(** * A shallow embedding of the TCP chat server (examples/tcp-chat/server)

    The server core is modelled as a sequential state machine: every
    handler of the Go program runs as one atomic transition on an explicit
    server state.  Pointers to sessions ([*Client]) are modelled by handles
    into a store, so that the aliasing between the nickname registry and the
    sessions it refers to is kept.  Go maps are finite maps; the order in
    which Go iterates over a map is unspecified, the model iterates in the
    order of [map_to_list] and the theorems never depend on that order.
    All calls of [time.Now] made while one event is handled read the same
    instant, which the event carries. *)

From Stdlib Require Import ZArith Ascii String List Bool Lia Sorted.
From stdpp Require Import base gmap strings list fin_maps pretty.

Open Scope string_scope.
Open Scope list_scope.
Open Scope Z_scope.

(** ** Go library functions used by the server *)

(** Package [strings], on byte strings. *)
Module GoStrings.

(** [strings.HasPrefix s prefix] *)
Definition HasPrefix (s prefix : string) : bool := String.prefix prefix s.

(** [strings.Contains s substr] *)
Fixpoint Contains (s substr : string) : bool :=
  String.prefix substr s ||
  match s with
  | EmptyString => false
  | String _ s' => Contains s' substr
  end.

Fixpoint mem_char (c : ascii) (chars : string) : bool :=
  match chars with
  | EmptyString => false
  | String d chars' => Ascii.eqb c d || mem_char c chars'
  end.

(** [strings.ContainsAny s chars] *)
Fixpoint ContainsAny (s chars : string) : bool :=
  match s with
  | EmptyString => false
  | String c s' => mem_char c chars || ContainsAny s' chars
  end.

(** The UTF-8 encodings of the code points for which [unicode.IsSpace]
    holds: the six ASCII ones, U+0085, U+00A0, U+1680, U+2000..U+200A,
    U+2028, U+2029, U+202F, U+205F and U+3000. *)
Definition b (n : nat) : ascii := ascii_of_nat n.
Definition bytes (l : list nat) : string := string_of_list_ascii (map b l).

Definition spaces : list string :=
  map bytes
    (List.app
       [ [9]; [10]; [11]; [12]; [13]; [32]; [194; 133]; [194; 160];
         [225; 154; 128] ]
       (List.app
          (map (fun k => [226; 128; 128 + k]) (seq 0 11))
          [ [226; 128; 168]; [226; 128; 169]; [226; 128; 175];
            [226; 129; 159]; [227; 128; 128] ]))%nat.

Fixpoint drop_prefix (p s : string) : option string :=
  match p, s with
  | EmptyString, _ => Some s
  | String c p', String d s' =>
      if Ascii.eqb c d then drop_prefix p' s' else None
  | String _ _, EmptyString => None
  end.

Fixpoint drop_any (ps : list string) (s : string) : option string :=
  match ps with
  | [] => None
  | p :: ps' =>
      match drop_prefix p s with
      | Some s' => Some s'
      | None => drop_any ps' s
      end
  end.

Fixpoint trim_left (fuel : nat) (ps : list string) (s : string) : string :=
  match fuel with
  | O => s
  | S fuel' =>
      match drop_any ps s with
      | Some s' => trim_left fuel' ps s'
      | None => s
      end
  end.

Definition TrimLeftSpace (s : string) : string :=
  trim_left (String.length s) spaces s.

Definition TrimRightSpace (s : string) : string :=
  String.rev (trim_left (String.length s) (map String.rev spaces) (String.rev s)).

(** [strings.TrimSpace s] *)
Definition TrimSpace (s : string) : string :=
  TrimRightSpace (TrimLeftSpace s).

End GoStrings.

(** Package [path/filepath] on a Unix host (separator [/], no volume
    names): [Clean] is the lexical algorithm of the Go library, written
    over the output buffer [out] and the index [dotdot] as there. *)
Module Filepath.

Definition IsPathSeparator (c : ascii) : bool := Ascii.eqb c "/".

(** The inner loop of the [..] case: [w] moves left until it reaches
    [dotdot] or a separator. *)
Fixpoint backtrack (out : list ascii) (dotdot w : nat) : nat :=
  match w with
  | O => O
  | S w' =>
      if (dotdot <? w)%nat && negb (IsPathSeparator (nth w out "/"%char))
      then backtrack out dotdot w'
      else w
  end.

(** The main loop.  [inElem] is true while the copy loop of the default
    case is running (the bytes of a path element are being copied). *)
Fixpoint clean_loop (rooted inElem : bool) (path out : list ascii)
         (dotdot : nat) : list ascii :=
  let element c rest :=
    let out1 :=
      if (rooted && negb (length out =? 1)%nat)
         || (negb rooted && negb (length out =? 0)%nat)
      then out ++ ["/"%char] else out in
    clean_loop rooted true rest (out1 ++ [c]) dotdot in
  match path with
  | [] => out
  | c :: rest =>
      if IsPathSeparator c then clean_loop rooted false rest out dotdot
      else if inElem then clean_loop rooted true rest (out ++ [c]) dotdot
      else if Ascii.eqb c "." then
        match rest with
        | [] => out
        | c1 :: rest1 =>
            if IsPathSeparator c1 then clean_loop rooted false rest out dotdot
            else if Ascii.eqb c1 "."
                    && match rest1 with
                       | [] => true
                       | c2 :: _ => IsPathSeparator c2
                       end
            then
              if (dotdot <? length out)%nat then
                let w := backtrack out dotdot (length out - 1) in
                clean_loop rooted false rest1 (take w out) dotdot
              else if negb rooted then
                let out1 := if (0 <? length out)%nat
                            then out ++ ["/"%char] else out in
                let out2 := out1 ++ ["."%char; "."%char] in
                clean_loop rooted false rest1 out2 (length out2)
              else clean_loop rooted false rest1 out dotdot
            else element c rest
        end
      else element c rest
  end.

Definition Clean (path : string) : string :=
  match list_ascii_of_string path with
  | [] => "."
  | c :: rest =>
      let rooted := IsPathSeparator c in
      let out :=
        if rooted then clean_loop true false rest ["/"%char] 1
        else clean_loop false false (c :: rest) [] 0 in
      match out with
      | [] => "."
      | _ => string_of_list_ascii out
      end
  end.

End Filepath.

(** ** Constants of package [common] *)

Definition MaxConnections : Z := 100.
Definition MaxConnectionsPerIP : Z := 5.
Definition MaxMessageSize : Z := 4096.
Definition MaxNicknameLength : Z := 20.
Definition MinNicknameLength : Z := 3.
Definition MaxRoomNameLength : Z := 30.
Definition MinRoomNameLength : Z := 3.
Definition MaxFileSize : Z := 100 * 1024 * 1024.
Definition MaxFileNameLength : Z := 255.
Definition MessagesPerSecond : Z := 10.
Definition RoomsPerUser : Z := 5.
Definition FileTransfersPerUser : Z := 3.

(** Durations and clock readings are in nanoseconds. *)
Definition Second : Z := 1000000000.
Definition Minute : Z := 60 * Second.
Definition FileTransferTimeout : Z := 5 * Minute.
Definition EmptyRoomTimeout : Z := 30 * Minute.

(** [len(s)] of a Go string: its number of bytes. *)
Definition len (s : string) : Z := Z.of_nat (String.length s).

(** [fmt.Sprintf("%d", n)] *)
Definition fmt_d (n : Z) : string := pretty n.

(** ** validator.go *)

(** A Go [error]: [None] is [nil], [Some m] an error with message [m]. *)
Definition error := option string.

Definition between (lo hi c : ascii) : bool :=
  (nat_of_ascii lo <=? nat_of_ascii c)%nat && (nat_of_ascii c <=? nat_of_ascii hi)%nat.

(** The character class [[a-zA-Z0-9_-]] of [NicknamePattern]. *)
Definition nicknameChar (c : ascii) : bool :=
  between "a" "z" c || between "A" "Z" c || between "0" "9" c
  || Ascii.eqb c "_" || Ascii.eqb c "-".

(** The character class [[a-zA-Z0-9_\- ]] of [RoomNamePattern]. *)
Definition roomNameChar (c : ascii) : bool :=
  nicknameChar c || Ascii.eqb c " ".

(** [regexp.MatchString] for a pattern [^[class]+$]: the whole text is a
    non-empty run of characters of the class. *)
Definition matchPlus (class : ascii -> bool) (s : string) : bool :=
  match list_ascii_of_string s with
  | [] => false
  | l => forallb class l
  end.

Definition nicknameRegex_MatchString : string -> bool := matchPlus nicknameChar.
Definition roomNameRegex_MatchString : string -> bool := matchPlus roomNameChar.

Definition ValidateNickname (nickname : string) : error :=
  if len nickname <? MinNicknameLength then
    Some ("nickname must be at least " +:+ fmt_d MinNicknameLength +:+ " characters long")
  else if len nickname >? MaxNicknameLength then
    Some ("nickname cannot exceed " +:+ fmt_d MaxNicknameLength +:+ " characters")
  else if negb (nicknameRegex_MatchString nickname) then
    Some "nickname can only contain letters, numbers, underscores, and hyphens"
  else None.

Definition ValidateRoomName (roomName : string) : error :=
  let roomName := GoStrings.TrimSpace roomName in
  if len roomName <? MinRoomNameLength then
    Some ("room name must be at least " +:+ fmt_d MinRoomNameLength +:+ " characters long")
  else if len roomName >? MaxRoomNameLength then
    Some ("room name cannot exceed " +:+ fmt_d MaxRoomNameLength +:+ " characters")
  else if negb (roomNameRegex_MatchString roomName) then
    Some "room name can only contain letters, numbers, underscores, hyphens, and spaces"
  else None.

Definition ValidateMessage (content : string) : error :=
  if len content =? 0 then Some "message cannot be empty"
  else if len content >? MaxMessageSize then
    Some ("message cannot exceed " +:+ fmt_d MaxMessageSize +:+ " characters")
  else None.

Definition ValidateFileName (filename : string) : error :=
  if len filename =? 0 then Some "filename cannot be empty"
  else if len filename >? MaxFileNameLength then
    Some ("filename cannot exceed " +:+ fmt_d MaxFileNameLength +:+ " characters")
  else
    let cleanPath := Filepath.Clean filename in
    if GoStrings.Contains cleanPath ".." || GoStrings.ContainsAny cleanPath "/\" then
      Some "filename cannot contain path separators or parent directory references"
    else if GoStrings.HasPrefix filename "." then
      Some "hidden files are not allowed"
    else None.

Definition ValidateFileSize (size : Z) : error :=
  if size <=? 0 then Some "file size must be positive"
  else if size >? MaxFileSize then
    Some ("file size cannot exceed " +:+ fmt_d MaxFileSize +:+ " bytes")
  else None.


(** ** protocol.go *)

(** [MessageType], [UserStatus] and [RoomAction] are Go string types: a
    decoded frame may carry any text in these fields. *)
Definition TypeText : string := "TEXT".
Definition TypeFile : string := "FILE".
Definition TypeFileChunk : string := "FILE_CHUNK".
Definition TypeFileComplete : string := "FILE_COMPLETE".
Definition TypeStatus : string := "STATUS".
Definition TypeRoom : string := "ROOM".
Definition TypeInvite : string := "INVITE".
Definition TypeInviteResp : string := "INVITE_RESP".
Definition TypeUserList : string := "USER_LIST".
Definition TypeError : string := "ERROR".
Definition TypeConnect : string := "CONNECT".
Definition TypeDisconnect : string := "DISCONNECT".
Definition TypeAck : string := "ACK".

Definition StatusActive : string := "ACTIVE".
Definition StatusBusy : string := "BUSY".
Definition StatusInvisible : string := "INVISIBLE".

Definition RoomCreate : string := "CREATE".
Definition RoomJoin : string := "JOIN".
Definition RoomLeave : string := "LEAVE".
Definition RoomLeaveConfirm : string := "LEAVE_CONFIRM".
Definition RoomMsg : string := "MSG".
Definition RoomMembers : string := "MEMBERS".
Definition RoomKick : string := "KICK".
Definition RoomDelete : string := "DELETE".
Definition RoomSetTopic : string := "TOPIC".

(** String comparison [a == b] of Go. *)
Definition eqs (a b : string) : bool := bool_decide (a = b).

(** [time.Time] is a clock reading in nanoseconds; [zeroTime] stands for
    the zero value of [time.Time]. *)
Definition zeroTime : Z := 0.

Record Message := mkMessage {
  MType : string;
  Sender : string;
  Recipient : string;
  Room : string;
  Content : string;
  Status : string;
  Action : string;
  Filename : string;
  Filesize : Z;
  FileID : string;
  ChunkNum : Z;
  TotalChunks : Z;
  Data : list ascii;
  Users : list string;
  Timestamp : Z;
  Error : string
}.

(** The zero value [Message{}]. *)
Definition Message0 : Message :=
  mkMessage "" "" "" "" "" "" "" "" 0 "" 0 0 [] [] zeroTime "".

(** The assignments [msg.Sender = x], [msg.Timestamp = t], [msg.Room = r]. *)
Definition setSender (x : string) (m : Message) : Message :=
  mkMessage (MType m) x (Recipient m) (Room m) (Content m) (Status m)
    (Action m) (Filename m) (Filesize m) (FileID m) (ChunkNum m)
    (TotalChunks m) (Data m) (Users m) (Timestamp m) (Error m).

Definition setTimestamp (t : Z) (m : Message) : Message :=
  mkMessage (MType m) (Sender m) (Recipient m) (Room m) (Content m) (Status m)
    (Action m) (Filename m) (Filesize m) (FileID m) (ChunkNum m)
    (TotalChunks m) (Data m) (Users m) t (Error m).

Definition setRoom (r : string) (m : Message) : Message :=
  mkMessage (MType m) (Sender m) (Recipient m) r (Content m) (Status m)
    (Action m) (Filename m) (Filesize m) (FileID m) (ChunkNum m)
    (TotalChunks m) (Data m) (Users m) (Timestamp m) (Error m).

Definition NewTextMessage (sender recipient content : string) (now : Z) : Message :=
  mkMessage TypeText sender recipient "" content "" "" "" 0 "" 0 0 [] [] now "".

Definition NewBroadcastMessage (sender content : string) (now : Z) : Message :=
  mkMessage TypeText sender "*" "" content "" "" "" 0 "" 0 0 [] [] now "".

Definition NewErrorMessage (sender recipient err : string) (now : Z) : Message :=
  mkMessage TypeError sender recipient "" "" "" "" "" 0 "" 0 0 [] [] now err.

(** [&Message{Type: TypeRoom, Action: a, Room: r, Content: c}] *)
Definition RoomReply (action room content : string) : Message :=
  mkMessage TypeRoom "" "" room content "" action "" 0 "" 0 0 [] [] zeroTime "".

(** [&Message{Type: TypeUserList, Users: users}] *)
Definition UserListMessage (users : list string) : Message :=
  mkMessage TypeUserList "" "" "" "" "" "" "" 0 "" 0 0 [] users zeroTime "".

(** [&Message{Type: TypeFileComplete, FileID: id, Filename: name}] *)
Definition FileCompleteMessage (fileID filename : string) : Message :=
  mkMessage TypeFileComplete "" "" "" "" "" "" filename 0 fileID 0 0 [] [] zeroTime "".

(** [&Message{Type: TypeInvite, Sender: .., Recipient: .., Room: .., Content: ..}] *)
Definition InviteMessage (sender recipient room content : string) : Message :=
  mkMessage TypeInvite sender recipient room content "" "" "" 0 "" 0 0 [] [] zeroTime "".

(** [&Message{Type: TypeAck, Timestamp: now}] *)
Definition PingMessage (now : Z) : Message :=
  mkMessage TypeAck "" "" "" "" "" "" "" 0 "" 0 0 [] [] now "".

#[global] Instance Message_eq_dec : EqDecision Message.
Proof. solve_decision. Defined.

Module FileTransfer.

Record t := mk {
  FileID : string;
  Filename : string;
  Filesize : Z;
  Sender : string;
  Recipient : string;
  TotalChunks : Z;
  ReceivedChunks : gmap Z (list ascii);
  StartTime : Z
}.

(** [len(ft.ReceivedChunks) == ft.TotalChunks] *)
Definition IsComplete (ft : t) : bool :=
  Z.of_nat (size (ReceivedChunks ft)) =? TotalChunks ft.

(** [ft.ReceivedChunks[chunkNum] = data] *)
Definition AddChunk (chunkNum : Z) (data : list ascii) (ft : t) : t :=
  mk (FileID ft) (Filename ft) (Filesize ft) (Sender ft) (Recipient ft)
     (TotalChunks ft) (<[chunkNum := data]> (ReceivedChunks ft)) (StartTime ft).

End FileTransfer.

(** [common.GenerateID]: [rnd] is the hexadecimal text of the eight random
    bytes, or [None] when reading them failed. *)
Definition GenerateID (prefix : string) (now : Z) (rnd : option string) : string :=
  match rnd with
  | None => prefix +:+ "_" +:+ fmt_d now
  | Some hex => prefix +:+ "_" +:+ fmt_d now +:+ "_" +:+ hex
  end.

(** ** The rate limiter (validator.go) *)

(** A TCP address [net.Addr]; [IP] is the host part that
    [net.SplitHostPort(addr.String())] returns. *)
Record Addr := mkAddr { IP : string; Port : Z }.

Record userRateLimit := mkRate { messages : Z; lastReset : Z }.

Record RateLimiter := mkRL {
  totalConnections : Z;
  connectionsByIP : gmap string Z;
  messageRates : gmap string userRateLimit;
  roomsPerUser : gmap string Z;
  transfersPerUser : gmap string Z
}.

Definition NewRateLimiter : RateLimiter := mkRL 0 ∅ ∅ ∅ ∅.

(** [m[k]] on a Go [map[string]int]: zero when the key is absent. *)
Definition count (m : gmap string Z) (k : string) : Z := default 0 (m !! k).

(** The pattern shared by [RemoveConnection], [RemoveRoom] and
    [RemoveFileTransfer]: delete the entry at one, decrement above one. *)
Definition decrement (m : gmap string Z) (k : string) : gmap string Z :=
  let c := count m k in
  if c >? 0 then
    if c =? 1 then delete k m else <[k := c - 1]> m
  else m.

Definition CanConnect (rl : RateLimiter) (addr : Addr) : error :=
  if totalConnections rl >=? MaxConnections then
    Some ("server has reached maximum connection limit (" +:+ fmt_d MaxConnections +:+ ")")
  else if count (connectionsByIP rl) (IP addr) >=? MaxConnectionsPerIP then
    Some ("IP " +:+ IP addr +:+ " has reached maximum connection limit ("
          +:+ fmt_d MaxConnectionsPerIP +:+ ")")
  else None.

Definition AddConnection (addr : Addr) (rl : RateLimiter) : RateLimiter :=
  mkRL (totalConnections rl + 1)
       (<[IP addr := count (connectionsByIP rl) (IP addr) + 1]> (connectionsByIP rl))
       (messageRates rl) (roomsPerUser rl) (transfersPerUser rl).

Definition RemoveConnection (addr : Addr) (rl : RateLimiter) : RateLimiter :=
  mkRL (if totalConnections rl >? 0 then totalConnections rl - 1 else totalConnections rl)
       (decrement (connectionsByIP rl) (IP addr))
       (messageRates rl) (roomsPerUser rl) (transfersPerUser rl).

(** [CanSendMessage] at clock reading [now] (the calls of [time.Now] and
    [time.Since] inside one invocation read the same instant). *)
Definition CanSendMessage (nickname : string) (now : Z) (rl : RateLimiter)
  : RateLimiter * error :=
  let userLimit :=
    match messageRates rl !! nickname with
    | Some u => u
    | None => mkRate 0 now
    end in
  let userLimit :=
    if now - lastReset userLimit >=? Second then mkRate 0 now else userLimit in
  if messages userLimit >=? MessagesPerSecond then
    (mkRL (totalConnections rl) (connectionsByIP rl)
          (<[nickname := userLimit]> (messageRates rl))
          (roomsPerUser rl) (transfersPerUser rl),
     Some ("message rate limit exceeded (" +:+ fmt_d MessagesPerSecond
           +:+ " messages per second)"))
  else
    (mkRL (totalConnections rl) (connectionsByIP rl)
          (<[nickname := mkRate (messages userLimit + 1) (lastReset userLimit)]>
             (messageRates rl))
          (roomsPerUser rl) (transfersPerUser rl),
     None).

Definition CanCreateRoom (nickname : string) (rl : RateLimiter) : error :=
  if count (roomsPerUser rl) nickname >=? RoomsPerUser then
    Some ("room creation limit exceeded (" +:+ fmt_d RoomsPerUser +:+ " rooms per user)")
  else None.

Definition AddRoom (nickname : string) (rl : RateLimiter) : RateLimiter :=
  mkRL (totalConnections rl) (connectionsByIP rl) (messageRates rl)
       (<[nickname := count (roomsPerUser rl) nickname + 1]> (roomsPerUser rl))
       (transfersPerUser rl).

Definition RemoveRoom (nickname : string) (rl : RateLimiter) : RateLimiter :=
  mkRL (totalConnections rl) (connectionsByIP rl) (messageRates rl)
       (decrement (roomsPerUser rl) nickname) (transfersPerUser rl).

Definition CanStartFileTransfer (nickname : string) (rl : RateLimiter) : error :=
  if count (transfersPerUser rl) nickname >=? FileTransfersPerUser then
    Some ("file transfer limit exceeded (" +:+ fmt_d FileTransfersPerUser
          +:+ " concurrent transfers per user)")
  else None.

Definition AddFileTransfer (nickname : string) (rl : RateLimiter) : RateLimiter :=
  mkRL (totalConnections rl) (connectionsByIP rl) (messageRates rl)
       (roomsPerUser rl)
       (<[nickname := count (transfersPerUser rl) nickname + 1]> (transfersPerUser rl)).

Definition RemoveFileTransfer (nickname : string) (rl : RateLimiter) : RateLimiter :=
  mkRL (totalConnections rl) (connectionsByIP rl) (messageRates rl)
       (roomsPerUser rl) (decrement (transfersPerUser rl) nickname).

Definition RemoveUser (nickname : string) (rl : RateLimiter) : RateLimiter :=
  mkRL (totalConnections rl) (connectionsByIP rl)
       (delete nickname (messageRates rl))
       (delete nickname (roomsPerUser rl))
       (delete nickname (transfersPerUser rl)).

(** One tick of the limiter's own [cleanup] loop. *)
Definition RateLimiter_cleanup (now : Z) (rl : RateLimiter) : RateLimiter :=
  mkRL (totalConnections rl) (connectionsByIP rl)
       (filter (fun kv => ¬ (now - lastReset kv.2 > 5 * Minute)) (messageRates rl))
       (roomsPerUser rl) (transfersPerUser rl).

(** ** room.go *)

Module Room.

(** [Members] and [Invitations] are Go [map[string]bool] whose entries are
    only ever set to [true] or deleted: sets of nicknames. *)
Record t := mk {
  ID : string;
  Name : string;
  Description : string;
  Creator : string;
  Members : gset string;
  Invitations : gset string;
  CreatedAt : Z
}.

Definition NewRoom (id name creator : string) (now : Z) : t :=
  mk id name "" creator {[ creator ]} ∅ now.

Definition AddMember (nickname : string) (r : t) : t :=
  mk (ID r) (Name r) (Description r) (Creator r)
     ({[ nickname ]} ∪ Members r) (Invitations r ∖ {[ nickname ]}) (CreatedAt r).

Definition RemoveMember (nickname : string) (r : t) : t :=
  mk (ID r) (Name r) (Description r) (Creator r)
     (Members r ∖ {[ nickname ]}) (Invitations r) (CreatedAt r).

Definition IsMember (nickname : string) (r : t) : bool :=
  bool_decide (nickname ∈ Members r).

Definition InviteUser (nickname : string) (r : t) : t :=
  mk (ID r) (Name r) (Description r) (Creator r)
     (Members r) ({[ nickname ]} ∪ Invitations r) (CreatedAt r).

(** [delete(room.Invitations, nickname)], done by the decline path. *)
Definition Uninvite (nickname : string) (r : t) : t :=
  mk (ID r) (Name r) (Description r) (Creator r)
     (Members r) (Invitations r ∖ {[ nickname ]}) (CreatedAt r).

Definition IsInvited (nickname : string) (r : t) : bool :=
  bool_decide (nickname ∈ Invitations r).

Definition GetMembers (r : t) : list string := elements (Members r).

Definition SetDescription (description : string) (r : t) : t :=
  mk (ID r) (Name r) description (Creator r)
     (Members r) (Invitations r) (CreatedAt r).

End Room.

(** ** client.go *)

Module Client.

(** [Conn] is the socket: whether it has been closed and the frames
    written to it so far.  [SendChan] is the buffered channel of capacity
    256; [None] is the nil channel that [Close] leaves behind. *)
Record t := mk {
  ID : string;
  Nickname : string;
  ConnClosed : bool;
  ConnWritten : list Message;
  RemoteAddr : option Addr;
  Status : string;
  Rooms : gset string;
  SendChan : option (list Message)
}.

Definition capacity : nat := 256.

Definition NewClient (id : string) : t :=
  mk id "" false [] None StatusActive ∅ (Some []).

Definition setNickname (n : string) (c : t) : t :=
  mk (ID c) n (ConnClosed c) (ConnWritten c) (RemoteAddr c) (Status c)
     (Rooms c) (SendChan c).

Definition setRemoteAddr (a : Addr) (c : t) : t :=
  mk (ID c) (Nickname c) (ConnClosed c) (ConnWritten c) (Some a) (Status c)
     (Rooms c) (SendChan c).

Definition SetStatus (st : string) (c : t) : t :=
  mk (ID c) (Nickname c) (ConnClosed c) (ConnWritten c) (RemoteAddr c) st
     (Rooms c) (SendChan c).

Definition AddRoom (roomID : string) (c : t) : t :=
  mk (ID c) (Nickname c) (ConnClosed c) (ConnWritten c) (RemoteAddr c)
     (Status c) ({[ roomID ]} ∪ Rooms c) (SendChan c).

Definition RemoveRoom (roomID : string) (c : t) : t :=
  mk (ID c) (Nickname c) (ConnClosed c) (ConnWritten c) (RemoteAddr c)
     (Status c) (Rooms c ∖ {[ roomID ]}) (SendChan c).

(** [IsInRoom]: [c.Rooms[roomID]] *)
Definition IsInRoom (roomID : string) (c : t) : bool :=
  bool_decide (roomID ∈ Rooms c).

Definition setSendChan (q : option (list Message)) (c : t) : t :=
  mk (ID c) (Nickname c) (ConnClosed c) (ConnWritten c) (RemoteAddr c)
     (Status c) (Rooms c) q.

(** [SendMessage]: a non-blocking send; the message is dropped when the
    channel is full (or nil). *)
Definition SendMessage (msg : Message) (c : t) : t :=
  match SendChan c with
  | Some q =>
      if (length q <? capacity)%nat then setSendChan (Some (q ++ [msg])) c
      else c
  | None => c
  end.

(** [c.Conn.Close()] *)
Definition ConnClose (c : t) : t :=
  mk (ID c) (Nickname c) true (ConnWritten c) (RemoteAddr c) (Status c)
     (Rooms c) (SendChan c).

(** [Close]: close and forget the channel, close the socket. *)
Definition Close (c : t) : t :=
  mk (ID c) (Nickname c) true (ConnWritten c) (RemoteAddr c) (Status c)
     (Rooms c) None.

(** One round of [WritePump] on the channel: the oldest queued message
    is written to the socket.  Nothing is written once the socket is
    closed. *)
Definition WriteOne (c : t) : t :=
  match SendChan c, ConnClosed c with
  | Some (m :: q), false =>
      mk (ID c) (Nickname c) false (ConnWritten c ++ [m]) (RemoteAddr c)
         (Status c) (Rooms c) (Some q)
  | _, _ => c
  end.

(** One keep-alive tick of [WritePump]. *)
Definition WritePing (now : Z) (c : t) : t :=
  if ConnClosed c then c
  else mk (ID c) (Nickname c) false (ConnWritten c ++ [PingMessage now])
          (RemoteAddr c) (Status c) (Rooms c) (SendChan c).

End Client.

(** ** main.go: the server *)

(** [sessions] is the store of the [Client] objects the program has
    allocated, addressed by handle; [clients] is the [sync.Map] from
    nickname to [*Client]; [rooms] is [roomManager.rooms]. *)
Record Server := mkServer {
  sessions : gmap nat Client.t;
  clients : gmap string nat;
  rooms : gmap string Room.t;
  fileTransfers : gmap string FileTransfer.t;
  rateLimiter : RateLimiter
}.

Definition NewServer : Server := mkServer ∅ ∅ ∅ ∅ NewRateLimiter.

Definition setSessions (x : gmap nat Client.t) (s : Server) : Server :=
  mkServer x (clients s) (rooms s) (fileTransfers s) (rateLimiter s).
Definition setClients (x : gmap string nat) (s : Server) : Server :=
  mkServer (sessions s) x (rooms s) (fileTransfers s) (rateLimiter s).
Definition setRooms (x : gmap string Room.t) (s : Server) : Server :=
  mkServer (sessions s) (clients s) x (fileTransfers s) (rateLimiter s).
Definition setFileTransfers (x : gmap string FileTransfer.t) (s : Server) : Server :=
  mkServer (sessions s) (clients s) (rooms s) x (rateLimiter s).
Definition setRateLimiter (x : RateLimiter) (s : Server) : Server :=
  mkServer (sessions s) (clients s) (rooms s) (fileTransfers s) x.

(** Dereferencing a [*Client]; handles held by the program always point
    into the store, the default is never reached on them. *)
Definition deref (s : Server) (h : nat) : Client.t :=
  default (Client.NewClient "") (sessions s !! h).

(** A method call [client.f(..)] that updates the object behind [h]. *)
Definition update (h : nat) (f : Client.t -> Client.t) (s : Server) : Server :=
  setSessions (alter f h (sessions s)) s.

(** [client.SendMessage(msg)] on the session behind [h]. *)
Definition sendTo (h : nat) (msg : Message) (s : Server) : Server :=
  update h (Client.SendMessage msg) s.

(** A method call on the room stored under [roomID]. *)
Definition updateRoom (roomID : string) (f : Room.t -> Room.t) (s : Server) : Server :=
  setRooms (alter f roomID (rooms s)) s.

Definition GetClient (s : Server) (nickname : string) : option nat :=
  clients s !! nickname.

Definition GetRoom (s : Server) (roomID : string) : option Room.t :=
  rooms s !! roomID.

(** The body of the [Range] callback of [BroadcastMessage]. *)
Definition broadcastOne (msg : Message) (exclude : string) (s : Server)
           (entry : string * nat) : Server :=
  let client := deref s entry.2 in
  if eqs (Client.Nickname client) exclude then s
  else if eqs (Client.Status client) StatusInvisible
          && negb (eqs (Sender msg) (Client.Nickname client)) then s
  else sendTo entry.2 msg s.

Definition BroadcastMessage (msg : Message) (exclude : string) (s : Server) : Server :=
  foldl (broadcastOne msg exclude) s (map_to_list (clients s)).

(** The body of the [Range] callback of [BroadcastUserList]. *)
Definition userListOne (s : Server) (users : list string) (entry : string * nat)
  : list string :=
  let client := deref s entry.2 in
  if negb (eqs (Client.Status client) StatusInvisible) then
    users ++ [Client.Nickname client +:+ ":" +:+ Client.Status client]
  else users.

Definition userList (s : Server) : list string :=
  foldl (userListOne s) [] (map_to_list (clients s)).

Definition BroadcastUserList (s : Server) : Server :=
  BroadcastMessage (UserListMessage (userList s)) "" s.

(** [roomManager.BroadcastToRoom] *)
Definition roomOne (msg : Message) (s : Server) (member : string) : Server :=
  match GetClient s member with
  | Some h =>
      if eqs (Client.Status (deref s h)) StatusInvisible
         && negb (eqs member (Sender msg)) then s
      else sendTo h msg s
  | None => s
  end.

Definition BroadcastToRoom (roomID : string) (msg : Message) (s : Server) : Server :=
  match GetRoom s roomID with
  | None => s
  | Some room => foldl (roomOne msg) s (Room.GetMembers room)
  end.

(** [roomManager.GetUserRooms] *)
Definition GetUserRooms (s : Server) (nickname : string) : list Room.t :=
  filter (fun r => Room.IsMember nickname r = true) (map snd (map_to_list (rooms s))).

(** [handleNewConnection] for the connection accepted from [addr]: [h] is
    the handle of the freshly allocated session, [id] its generated ID. *)
Definition handleNewConnection (h : nat) (id : string) (addr : Addr) (s : Server) : Server :=
  let s := setRateLimiter (AddConnection addr (rateLimiter s)) s in
  setSessions (<[h := Client.setRemoteAddr addr (Client.NewClient id)]> (sessions s)) s.

Definition RegisterClient (h : nat) (nickname : string) (now : Z) (s : Server)
  : Server * error :=
  match ValidateNickname nickname with
  | Some e => (s, Some e)
  | None =>
      match clients s !! nickname with
      | Some _ => (s, Some ("nickname '" +:+ nickname +:+ "' is already taken"))
      | None =>
          let s := update h (Client.setNickname nickname) s in
          let s := setClients (<[nickname := h]> (clients s)) s in
          let s := BroadcastUserList s in
          let welcomeMsg :=
            NewTextMessage "Server" nickname
              ("Welcome to the chat, " +:+ nickname +:+ "!") now in
          let s := sendTo h welcomeMsg s in
          let announceMsg :=
            NewBroadcastMessage "Server" (nickname +:+ " has joined the chat") now in
          let s := BroadcastMessage announceMsg nickname s in
          (s, None)
      end
  end.

(** The loop of [UnregisterClient] over the rooms of the leaving user. *)
Definition unregisterRoom (nickname : string) (now : Z) (s : Server) (room : Room.t)
  : Server :=
  let s := updateRoom (Room.ID room) (Room.RemoveMember nickname) s in
  let leaveMsg :=
    setRoom (Room.ID room)
      (NewTextMessage "Server" "" (nickname +:+ " has disconnected from the room") now) in
  BroadcastToRoom (Room.ID room) leaveMsg s.

(** [net.ResolveTCPAddr] gives back the address whose text [RemoteAddr]
    holds. *)
Definition UnregisterClient (h : nat) (now : Z) (s : Server) : Server :=
  let nickname := Client.Nickname (deref s h) in
  if eqs nickname "" then s
  else
    let s := setClients (delete nickname (clients s)) s in
    let s := foldl (unregisterRoom nickname now) s (GetUserRooms s nickname) in
    let disconnectMsg :=
      NewBroadcastMessage "Server" (nickname +:+ " has left the chat") now in
    let s := BroadcastMessage disconnectMsg "" s in
    let s := BroadcastUserList s in
    let s := setRateLimiter (RemoveUser nickname (rateLimiter s)) s in
    match Client.RemoteAddr (deref s h) with
    | Some addr => setRateLimiter (RemoveConnection addr (rateLimiter s)) s
    | None => s
    end.

(** [client.SendMessage(NewErrorMessage("Server", recipient, text))] *)
Definition sendError (h : nat) (recipient text : string) (now : Z) (s : Server) : Server :=
  sendTo h (NewErrorMessage "Server" recipient text now) s.

(** The [TypeText] case of [HandleMessage]. *)
Definition handleText (h : nat) (msg : Message) (now : Z) (s : Server) : Server :=
  let nickname := Client.Nickname (deref s h) in
  match CanSendMessage nickname now (rateLimiter s) with
  | (rl, Some e) => sendError h (Sender msg) e now (setRateLimiter rl s)
  | (rl, None) =>
      let s := setRateLimiter rl s in
      match ValidateMessage (Content msg) with
      | Some e => sendError h (Sender msg) e now s
      | None =>
          if eqs (Recipient msg) "*" || eqs (Recipient msg) "" then
            BroadcastMessage msg "" s
          else if negb (eqs (Room msg) "") then
            match GetRoom s (Room msg) with
            | Some room =>
                if negb (Room.IsMember nickname room) then
                  sendError h nickname "You are not a member of this room" now s
                else BroadcastToRoom (Room msg) msg s
            | None => sendError h nickname "Room not found" now s
            end
          else
            match GetClient s (Recipient msg) with
            | Some recipient => sendTo h msg (sendTo recipient msg s)
            | None =>
                sendError h (Sender msg)
                  ("User " +:+ Recipient msg +:+ " not found") now s
            end
      end
  end.

(** The [TypeStatus] case of [HandleMessage]. *)
Definition handleStatus (h : nat) (msg : Message) (now : Z) (s : Server) : Server :=
  let s := update h (Client.SetStatus (Status msg)) s in
  let s := BroadcastUserList s in
  let nickname := Client.Nickname (deref s h) in
  let statusMsg :=
    NewBroadcastMessage "Server" (nickname +:+ " is now " +:+ Status msg) now in
  BroadcastMessage statusMsg nickname s.

(** The member list of the [MEMBERS] reply. *)
Definition memberEntry (s : Server) (member : string) : string :=
  let status :=
    match GetClient s member with
    | Some mc => Client.Status (deref s mc)
    | None => "offline"
    end in
  member +:+ " (" +:+ status +:+ ")".

(** [strings.Join(l, sep)] *)
Fixpoint Join (l : list string) (sep : string) : string :=
  match l with
  | [] => ""
  | [x] => x
  | x :: l' => x +:+ sep +:+ Join l' sep
  end.

(** The loop of the [DELETE] case over the members of the room. *)
Definition deleteOne (room : Room.t) (roomID : string) (s : Server) (member : string)
  : Server :=
  match GetClient s member with
  | Some mc =>
      let s := update mc (Client.RemoveRoom roomID) s in
      sendTo mc (RoomReply RoomLeaveConfirm (Room.ID room)
                   ("Room '" +:+ Room.Name room +:+ "' has been deleted")) s
  | None => s
  end.

Definition handleRoomMessage (h : nat) (msg : Message) (now : Z)
           (rnd : option string) (s : Server) : Server :=
  let nickname := Client.Nickname (deref s h) in
  let notFound := sendError h nickname "Room not found" now s in
  if eqs (Action msg) RoomCreate then
    match CanCreateRoom nickname (rateLimiter s) with
    | Some e => sendError h nickname e now s
    | None =>
        match ValidateRoomName (Content msg) with
        | Some e => sendError h nickname e now s
        | None =>
            let room :=
              Room.NewRoom (GenerateID "room" now rnd)
                (GoStrings.TrimSpace (Content msg)) nickname now in
            let s := setRooms (<[Room.ID room := room]> (rooms s)) s in
            let s := update h (Client.AddRoom (Room.ID room)) s in
            let s := setRateLimiter (AddRoom nickname (rateLimiter s)) s in
            sendTo h (RoomReply RoomCreate (Room.ID room)
                        ("Room '" +:+ Room.Name room +:+ "' created successfully")) s
        end
    end
  else if eqs (Action msg) RoomJoin then
    match GetRoom s (Room msg) with
    | Some room =>
        if negb (Room.IsMember nickname room) then
          let s := updateRoom (Room msg) (Room.AddMember nickname) s in
          let s := update h (Client.AddRoom (Room.ID room)) s in
          let joinMsg :=
            setRoom (Room msg)
              (NewTextMessage "Server" "" (nickname +:+ " has joined the room") now) in
          let s := BroadcastToRoom (Room msg) joinMsg s in
          sendTo h (RoomReply RoomJoin (Room.ID room)
                      ("Joined room '" +:+ Room.Name room +:+ "'")) s
        else s
    | None => notFound
    end
  else if eqs (Action msg) RoomLeave then
    match GetRoom s (Room msg) with
    | Some room =>
        let s := updateRoom (Room msg) (Room.RemoveMember nickname) s in
        let s := update h (Client.RemoveRoom (Room msg)) s in
        let s := sendTo h (RoomReply RoomLeaveConfirm (Room.ID room) (Room.Name room)) s in
        let leaveMsg :=
          setRoom (Room msg)
            (NewTextMessage "Server" "" (nickname +:+ " has left the room") now) in
        BroadcastToRoom (Room msg) leaveMsg s
    | None => s
    end
  else if eqs (Action msg) RoomMembers then
    match GetRoom s (Room msg) with
    | Some room =>
        if negb (Room.IsMember nickname room) then
          sendError h nickname "You are not a member of this room" now s
        else
          let memberList := map (memberEntry s) (Room.GetMembers room) in
          let roomInfo := "Room '" +:+ Room.Name room +:+ "'" in
          let roomInfo :=
            if negb (eqs (Room.Description room) "") then
              roomInfo +:+ " (Topic: " +:+ Room.Description room +:+ ")"
            else roomInfo in
          sendTo h (RoomReply RoomMembers (Room.ID room)
                      (roomInfo +:+ " members: " +:+ Join memberList ", ")) s
    | None => notFound
    end
  else if eqs (Action msg) RoomKick then
    match GetRoom s (Room msg) with
    | Some room =>
        if negb (eqs (Room.Creator room) nickname) then
          sendError h nickname "Only the room creator can kick members" now s
        else if negb (Room.IsMember (Recipient msg) room) then
          sendError h nickname
            (Recipient msg +:+ " is not a member of this room") now s
        else if eqs (Recipient msg) nickname then
          sendError h nickname "You cannot kick yourself" now s
        else
          let s := updateRoom (Room msg) (Room.RemoveMember (Recipient msg)) s in
          let s :=
            match GetClient s (Recipient msg) with
            | Some kicked =>
                let s := update kicked (Client.RemoveRoom (Room msg)) s in
                sendTo kicked
                  (RoomReply RoomLeaveConfirm (Room.ID room)
                     ("You have been kicked from room '" +:+ Room.Name room +:+ "'")) s
            | None => s
            end in
          let kickNotifyMsg :=
            setRoom (Room msg)
              (NewTextMessage "Server" ""
                 (Recipient msg +:+ " has been kicked from the room by " +:+ nickname)
                 now) in
          let s := BroadcastToRoom (Room msg) kickNotifyMsg s in
          sendTo h (NewTextMessage "Server" nickname
                      (Recipient msg +:+ " has been kicked from the room") now) s
    | None => notFound
    end
  else if eqs (Action msg) RoomDelete then
    match GetRoom s (Room msg) with
    | Some room =>
        if negb (eqs (Room.Creator room) nickname) then
          sendError h nickname "Only the room creator can delete the room" now s
        else
          let deleteMsg :=
            setRoom (Room msg)
              (NewTextMessage "Server" ""
                 ("Room '" +:+ Room.Name room +:+ "' has been deleted by the creator")
                 now) in
          let s := BroadcastToRoom (Room msg) deleteMsg s in
          let s := foldl (deleteOne room (Room msg)) s (Room.GetMembers room) in
          let s := setRooms (delete (Room msg) (rooms s)) s in
          sendTo h (NewTextMessage "Server" nickname
                      ("Room '" +:+ Room.Name room +:+ "' has been deleted") now) s
    | None => notFound
    end
  else if eqs (Action msg) RoomSetTopic then
    match GetRoom s (Room msg) with
    | Some room =>
        if negb (Room.IsMember nickname room) then
          sendError h nickname "You must be a member to set the room topic" now s
        else
          let s := updateRoom (Room msg) (Room.SetDescription (Content msg)) s in
          let topicMsg :=
            setRoom (Room msg)
              (NewTextMessage "Server" ""
                 (nickname +:+ " set the room topic to: " +:+ Content msg) now) in
          let s := BroadcastToRoom (Room msg) topicMsg s in
          sendTo h (NewTextMessage "Server" nickname "Room topic updated" now) s
    | None => notFound
    end
  else s.

Definition handleInviteMessage (h : nat) (msg : Message) (now : Z) (s : Server) : Server :=
  let nickname := Client.Nickname (deref s h) in
  match GetRoom s (Room msg) with
  | None => sendError h nickname "Room not found" now s
  | Some room =>
      if negb (Room.IsMember nickname room) then
        sendError h nickname "You are not a member of this room" now s
      else
        match GetClient s (Recipient msg) with
        | Some recipient =>
            let s := updateRoom (Room msg) (Room.InviteUser (Recipient msg)) s in
            let inviteMsg :=
              InviteMessage nickname (Recipient msg) (Room msg)
                (nickname +:+ " invited you to join room '" +:+ Room.Name room +:+ "'") in
            let s := sendTo recipient inviteMsg s in
            sendTo h (NewTextMessage "Server" nickname
                        ("Invitation sent to " +:+ Recipient msg) now) s
        | None =>
            sendError h nickname ("User " +:+ Recipient msg +:+ " not found") now s
        end
  end.

Definition handleInviteResponse (h : nat) (msg : Message) (now : Z) (s : Server) : Server :=
  let nickname := Client.Nickname (deref s h) in
  match GetRoom s (Room msg) with
  | None => sendError h nickname "Room no longer exists" now s
  | Some room =>
      if eqs (Content msg) "accept" && Room.IsInvited nickname room then
        let s := updateRoom (Room msg) (Room.AddMember nickname) s in
        let s := update h (Client.AddRoom (Room.ID room)) s in
        let roomInfo :=
          if negb (eqs (Room.Description room) "") then
            Room.Name room +:+ " - Topic: " +:+ Room.Description room
          else Room.Name room in
        let s := sendTo h (RoomReply RoomJoin (Room.ID room) roomInfo) s in
        let joinMsg :=
          setRoom (Room msg)
            (NewTextMessage "Server" "" (nickname +:+ " has joined the room") now) in
        BroadcastToRoom (Room msg) joinMsg s
      else if eqs (Content msg) "decline" then
        let s := updateRoom (Room msg) (Room.Uninvite nickname) s in
        sendTo h (NewTextMessage "Server" nickname "Invitation declined" now) s
      else s
  end.

Definition handleFileTransferInit (h : nat) (msg : Message) (now : Z) (s : Server) : Server :=
  let nickname := Client.Nickname (deref s h) in
  match CanStartFileTransfer nickname (rateLimiter s) with
  | Some e => sendError h nickname e now s
  | None =>
      match ValidateFileName (Filename msg) with
      | Some e => sendError h nickname e now s
      | None =>
          match ValidateFileSize (Filesize msg) with
          | Some e => sendError h nickname e now s
          | None =>
              match GetClient s (Recipient msg) with
              | None =>
                  sendError h nickname
                    ("User " +:+ Recipient msg +:+ " not found") now s
              | Some recipient =>
                  let ft :=
                    FileTransfer.mk (FileID msg) (Filename msg) (Filesize msg)
                      nickname (Recipient msg) (TotalChunks msg) ∅ (Timestamp msg) in
                  let s := setFileTransfers (<[FileID msg := ft]> (fileTransfers s)) s in
                  let s := setRateLimiter (AddFileTransfer nickname (rateLimiter s)) s in
                  sendTo recipient msg s
              end
          end
      end
  end.

Definition handleFileChunk (h : nat) (msg : Message) (s : Server) : Server :=
  match fileTransfers s !! FileID msg with
  | None => s
  | Some ft0 =>
      let ft := FileTransfer.AddChunk (ChunkNum msg) (Data msg) ft0 in
      let s := setFileTransfers (<[FileID msg := ft]> (fileTransfers s)) s in
      match GetClient s (FileTransfer.Recipient ft) with
      | Some recipient =>
          let s := sendTo recipient msg s in
          if FileTransfer.IsComplete ft then
            let completeMsg :=
              FileCompleteMessage (FileID msg) (FileTransfer.Filename ft) in
            let s := sendTo recipient completeMsg s in
            let s := sendTo h completeMsg s in
            setFileTransfers (delete (FileID msg) (fileTransfers s)) s
          else s
      | None => s
      end
  end.

(** [HandleMessage]: the new state and the returned error. *)
Definition HandleMessage (h : nat) (msg : Message) (now : Z) (rnd : option string)
           (s : Server) : Server * error :=
  if eqs (MType msg) TypeConnect then
    match RegisterClient h (Content msg) now s with
    | (s, None) =>
        (sendTo h (NewTextMessage "Server" (Sender msg) "Connected successfully" now) s,
         None)
    | (s, Some e) =>
        let s := sendError h (Sender msg) e now s in
        (update h Client.ConnClose s, None)
    end
  else if eqs (MType msg) TypeText then (handleText h msg now s, None)
  else if eqs (MType msg) TypeStatus then (handleStatus h msg now s, None)
  else if eqs (MType msg) TypeRoom then (handleRoomMessage h msg now rnd s, None)
  else if eqs (MType msg) TypeInvite then (handleInviteMessage h msg now s, None)
  else if eqs (MType msg) TypeInviteResp then (handleInviteResponse h msg now s, None)
  else if eqs (MType msg) TypeFile then (handleFileTransferInit h msg now s, None)
  else if eqs (MType msg) TypeFileChunk then (handleFileChunk h msg s, None)
  else (s, Some ("[VALIDATION] unknown message type: " +:+ MType msg)).

(** One iteration of the loop of [ReadPump] on a decoded frame: the
    sender and the time are stamped, the frame is dispatched, and an
    error returned by the dispatcher is reported to the session. *)
Definition ReadPump_step (h : nat) (frame : Message) (now : Z) (rnd : option string)
           (s : Server) : Server :=
  let msg := setTimestamp now (setSender (Client.Nickname (deref s h)) frame) in
  match HandleMessage h msg now rnd s with
  | (s, None) => s
  | (s, Some e) => sendError h (Client.Nickname (deref s h)) e now s
  end.

(** The deferred function of [ReadPump]. *)
Definition ReadPump_exit (h : nat) (now : Z) (s : Server) : Server :=
  update h Client.Close (UnregisterClient h now s).

(** ** cleanup.go *)

(** The body of the [Range] callback of [cleanupFileTransfers]; the
    accumulator carries the server and [toDelete]. *)
Definition cleanupOne (now : Z) (acc : Server * list string)
           (entry : string * FileTransfer.t) : Server * list string :=
  let '(s, toDelete) := acc in
  let ft := entry.2 in
  if now - FileTransfer.StartTime ft >? FileTransferTimeout then
    let text := "File transfer timed out: " +:+ FileTransfer.Filename ft in
    let s :=
      match GetClient s (FileTransfer.Sender ft) with
      | Some sender => sendError sender (FileTransfer.Sender ft) text now s
      | None => s
      end in
    let s :=
      match GetClient s (FileTransfer.Recipient ft) with
      | Some recipient => sendError recipient (FileTransfer.Recipient ft) text now s
      | None => s
      end in
    let s :=
      setRateLimiter (RemoveFileTransfer (FileTransfer.Sender ft) (rateLimiter s)) s in
    (s, toDelete ++ [entry.1])
  else (s, toDelete).

Definition cleanupFileTransfers (now : Z) (s : Server) : Server :=
  let '(s, toDelete) :=
    foldl (cleanupOne now) (s, []) (map_to_list (fileTransfers s)) in
  foldl (fun s fileID => setFileTransfers (delete fileID (fileTransfers s)) s)
        s toDelete.

Definition cleanupEmptyRooms (now : Z) (s : Server) : Server :=
  let toDelete :=
    map fst
      (filter (fun kv => size (Room.Members kv.2) = 0%nat
                         ∧ now - Room.CreatedAt kv.2 > EmptyRoomTimeout)
              (map_to_list (rooms s))) in
  foldl (fun s roomID => setRooms (delete roomID (rooms s)) s) s toDelete.

(** ** The server as a transition system *)

(** What can happen to the server: a connection is accepted, a session
    reads a frame, a session's read loop ends, a session's write loop
    sends a queued message or a keep-alive, the cleanup timers fire. *)
Inductive Event :=
| Accept (h : nat) (id : string) (addr : Addr)
| Recv (h : nat) (frame : Message) (now : Z) (rnd : option string)
| ReadEnd (h : nat) (now : Z)
| Write (h : nat)
| Ping (h : nat) (now : Z)
| CleanupTick (now : Z)
| LimiterTick (now : Z).

(** The read loop of a session runs until its deferred [Close] has left
    the nil channel behind. *)
Definition reading (s : Server) (h : nat) : bool :=
  match sessions s !! h with
  | Some c => bool_decide (is_Some (Client.SendChan c))
  | None => false
  end.

(** [exec] runs the handler of an event; an event that cannot happen in
    the state (a handle that is not fresh, a session that is gone, a
    connection refused by the limiter) leaves the state as it is. *)
Definition exec (s : Server) (e : Event) : Server :=
  match e with
  | Accept h id addr =>
      match sessions s !! h, CanConnect (rateLimiter s) addr with
      | None, None => handleNewConnection h id addr s
      | _, _ => s
      end
  | Recv h frame now rnd =>
      if reading s h then ReadPump_step h frame now rnd s else s
  | ReadEnd h now =>
      if reading s h then ReadPump_exit h now s else s
  | Write h => update h Client.WriteOne s
  | Ping h now => update h (Client.WritePing now) s
  | CleanupTick now => cleanupEmptyRooms now (cleanupFileTransfers now s)
  | LimiterTick now => setRateLimiter (RateLimiter_cleanup now (rateLimiter s)) s
  end.

Definition run (evs : list Event) : Server := foldl exec NewServer evs.

(** A state is reachable when some sequence of events leads to it from
    the freshly started server. *)
Definition reachable (s : Server) : Prop := ∃ evs, run evs = s.

(** ** Vocabulary of the properties *)

(** Equality of states is decidable, so closed facts about concrete runs
    can be settled by evaluating [bool_decide]. *)
#[global] Instance FileTransfer_eq_dec : EqDecision FileTransfer.t.
Proof. solve_decision. Defined.
#[global] Instance Addr_eq_dec : EqDecision Addr.
Proof. solve_decision. Defined.
#[global] Instance userRateLimit_eq_dec : EqDecision userRateLimit.
Proof. solve_decision. Defined.
#[global] Instance RateLimiter_eq_dec : EqDecision RateLimiter.
Proof. solve_decision. Defined.
#[global] Instance Room_eq_dec : EqDecision Room.t.
Proof. solve_decision. Defined.
#[global] Instance Client_eq_dec : EqDecision Client.t.
Proof. solve_decision. Defined.
#[global] Instance Server_eq_dec : EqDecision Server.
Proof. solve_decision. Defined.

(** [decide_closed] proves a decidable closed proposition by evaluating
    its decision procedure. *)
Ltac decide_closed :=
  cbv zeta;
  lazymatch goal with |- ?P => apply (bool_decide_eq_true_1 P) end;
  vm_compute; reflexivity.

Ltac split_ands := repeat lazymatch goal with |- _ /\ _ => split end.

(** The messages [msgs] handed to [SendMessage] one after the other. *)
Definition SendAll (msgs : list Message) (c : Client.t) : Client.t :=
  foldl (fun c m => Client.SendMessage m c) c msgs.

(** The session behind [h] is stored in the nickname registry. *)
Definition registered (s : Server) (h : nat) : Prop :=
  ∃ nickname, clients s !! nickname = Some h.

(** The number of nicknames under which the session behind [h] is
    stored. *)
Definition registrations (s : Server) (h : nat) : nat :=
  length (filter (fun e : string * nat => e.2 = h) (map_to_list (clients s))).

(** The two tests of [BroadcastMessage] on a visited session, together:
    the session is sent [msg] when it is not the excluded one and is not
    an invisible session other than the sender. *)
Definition receives (msg : Message) (exclude : string) (c : Client.t) : bool :=
  negb (eqs (Client.Nickname c) exclude)
  && negb (eqs (Client.Status c) StatusInvisible
           && negb (eqs (Sender msg) (Client.Nickname c))).

(** A step of a loop that sends [msg] to the session [target] picks, if
    it picks one. *)
Definition sendIf {A} (target : Server -> A -> option nat) (msg : Message)
           (s : Server) (x : A) : Server :=
  match target s x with
  | Some h => sendTo h msg s
  | None => s
  end.

Definition broadcastTarget (msg : Message) (exclude : string) (s : Server)
           (entry : string * nat) : option nat :=
  if receives msg exclude (deref s entry.2) then Some entry.2 else None.

Definition roomTarget (msg : Message) (s : Server) (member : string) : option nat :=
  match GetClient s member with
  | Some h =>
      if eqs (Client.Status (deref s h)) StatusInvisible
         && negb (eqs member (Sender msg)) then None
      else Some h
  | None => None
  end.

(** The number of calls of [CanSendMessage] for [nickname], made at the
    clock readings [ts] one after the other, that return no error. *)
Fixpoint accepted (nickname : string) (ts : list Z) (rl : RateLimiter) : nat :=
  match ts with
  | [] => 0%nat
  | t :: ts' =>
      let '(rl', e) := CanSendMessage nickname t rl in
      ((if e is None then 1 else 0) + accepted nickname ts' rl')%nat
  end.

(** The frame a session reads is stamped by [ReadPump]. *)
Definition stamp (s : Server) (h : nat) (frame : Message) (now : Z) : Message :=
  setTimestamp now (setSender (Client.Nickname (deref s h)) frame).

(** A target is stable when sending messages does not change whom it
    picks. *)
Definition stable {A} (target : Server -> A -> option nat) : Prop :=
  forall s h msg x, target (sendTo h msg s) x = target s x.

(** A step keeps the identities when it leaves the nickname registry and
    the nickname of every session as they are. *)
Definition keeps (s s' : Server) : Prop :=
  clients s' = clients s
  /\ forall h, Client.Nickname <$> sessions s' !! h = Client.Nickname <$> sessions s !! h.

(** Every entry of the nickname registry refers to a session of the
    store, and that session has a nickname. *)
Definition registry_valid (s : Server) : Prop :=
  forall nickname h, clients s !! nickname = Some h ->
    exists c, sessions s !! h = Some c /\ Client.Nickname c <> "".

(** Frames as clients send them (the fields a frame leaves out decode to
    their zero values), and two peers, for the scenarios below. *)
Definition frame_CONNECT (nickname : string) : Message :=
  mkMessage TypeConnect "" "" "" nickname "" "" "" 0 "" 0 0 [] [] zeroTime "".

Definition frame_TEXT (recipient room content : string) : Message :=
  mkMessage TypeText "" recipient room content "" "" "" 0 "" 0 0 [] [] zeroTime "".

Definition frame_STATUS (status : string) : Message :=
  mkMessage TypeStatus "" "" "" "" status "" "" 0 "" 0 0 [] [] zeroTime "".

Definition frame_ROOM (action room content : string) : Message :=
  mkMessage TypeRoom "" "" room content "" action "" 0 "" 0 0 [] [] zeroTime "".

Definition frame_FILE (recipient fileID filename : string) (filesize totalChunks : Z)
  : Message :=
  mkMessage TypeFile "" recipient "" "" "" "" filename filesize fileID 0 totalChunks
            [] [] zeroTime "".

Definition frame_FILE_CHUNK (fileID : string) (chunkNum : Z) (data : list ascii)
  : Message :=
  mkMessage TypeFileChunk "" "" "" "" "" "" "" 0 fileID chunkNum 0 data [] zeroTime "".

Definition peer1 : Addr := mkAddr "10.0.0.1" 50000.
Definition peer2 : Addr := mkAddr "10.0.0.2" 50000.

(** Two sessions are accepted and register as alice and bobby. *)
Definition alice_and_bobby : list Event :=
  [ Accept 0 "client_1" peer1; Accept 1 "client_2" peer2;
    Recv 0 (frame_CONNECT "alice") (1 * Second) None;
    Recv 1 (frame_CONNECT "bobby") (2 * Second) None ].

(** The reading of the clock an event makes, if it makes one. *)
Definition clock (e : Event) : option Z :=
  match e with
  | Recv _ _ now _ | ReadEnd _ now | Ping _ now | CleanupTick now | LimiterTick now =>
      Some now
  | Accept _ _ _ | Write _ => None
  end.

(** The clock does not run backwards: each reading the events make is at
    or after the one before it, and the first at or after [lo]. *)
Fixpoint ticking (lo : Z) (evs : list Event) : bool :=
  match evs with
  | [] => true
  | e :: evs' =>
      match clock e with
      | Some t => (lo <=? t) && ticking t evs'
      | None => ticking lo evs'
      end
  end.

(** The event is a TEXT frame read from a session that carries
    [nickname]. *)
Definition text_of (nickname : string) (s : Server) (e : Event) : bool :=
  match e with
  | Recv h frame _ _ =>
      reading s h && eqs (Client.Nickname (deref s h)) nickname
      && eqs (MType frame) TypeText
  | _ => false
  end.

(** ... and the limiter lets it pass. *)
Definition passes (nickname : string) (s : Server) (e : Event) : bool :=
  match e with
  | Recv _ _ now _ =>
      text_of nickname s e
      && bool_decide ((CanSendMessage nickname now (rateLimiter s)).2 = None)
  | _ => false
  end.

(** The clock readings of the TEXT frames of [nickname] that pass the
    limiter when the events [evs] happen from the state [s]. *)
Fixpoint passed (nickname : string) (s : Server) (evs : list Event) : list Z :=
  match evs with
  | [] => []
  | e :: evs' =>
      (if passes nickname s e then option_list (clock e) else [])
      ++ passed nickname (exec s e) evs'
  end.

(** The nickname stays connected: no read loop of a session that carries
    it ends. *)
Fixpoint stays (nickname : string) (s : Server) (evs : list Event) : bool :=
  match evs with
  | [] => true
  | e :: evs' =>
      match e with
      | ReadEnd h _ => negb (reading s h && eqs (Client.Nickname (deref s h)) nickname)
      | _ => true
      end
      && stays nickname (exec s e) evs'
  end.

(** A step leaves the message counters of the limiter alone. *)
Definition rates_kept (s s' : Server) : Prop :=
  messageRates (rateLimiter s') = messageRates (rateLimiter s).

(** What the limiter can still let pass in the window from [t0] to
    [t0 + Second] when the clock reads [lo] and the counter of the
    nickname is [entry]. *)
Definition budget (t0 lo : Z) (entry : option userRateLimit) : Z :=
  if lo <? t0 then 20
  else if t0 + Second <=? lo then 0
  else match entry with
       | None => 10
       | Some u => if t0 <=? lastReset u then 10 - messages u else 20 - messages u
       end.

(** The counter is in range and was not reset after the clock reading
    [lo]. *)
Definition counter_ok (lo : Z) (entry : option userRateLimit) : Prop :=
  forall u, entry = Some u -> 0 <= messages u <= 10 /\ lastReset u <= lo.


(** ** The primitive steps of the handlers *)

(** The channel of a session never holds more than its capacity. *)
Definition queue_bounded (c : Client.t) : Prop :=
  forall q, Client.SendChan c = Some q -> (length q <= Client.capacity)%nat.

(** What the methods of a session have in common: they leave the
    assigned fields alone, keep the channel within its capacity, never
    reopen a channel or a socket that was closed, and only append to
    what was written to the socket. *)
Definition session_step (c c' : Client.t) : Prop :=
  Client.ID c' = Client.ID c
  /\ Client.RemoteAddr c' = Client.RemoteAddr c
  /\ (queue_bounded c -> queue_bounded c')
  /\ (Client.SendChan c = None -> Client.SendChan c' = None)
  /\ (Client.ConnClosed c = true ->
      Client.ConnClosed c' = true /\ Client.ConnWritten c' = Client.ConnWritten c)
  /\ exists l, Client.ConnWritten c' = Client.ConnWritten c ++ l.

(** The methods of a session other than the assignment of its
    nickname. *)
Definition client_op (f : Client.t -> Client.t) : Prop :=
  forall c, Client.Nickname (f c) = Client.Nickname c /\ session_step c (f c).

(** Every handler is a sequence of these steps: the guards the code
    tests before a step are the premises of its rule.  The three steps
    that only [UnregisterClient] takes are allowed when [disconnect] is
    set. *)
Inductive prim (disconnect : bool) : Server -> Server -> Prop :=
| prim_accept s h id addr :
    sessions s !! h = None -> CanConnect (rateLimiter s) addr = None ->
    prim disconnect s (handleNewConnection h id addr s)
| prim_update s h f :
    client_op f -> prim disconnect s (update h f s)
| prim_nickname s h nickname :
    ValidateNickname nickname = None ->
    prim disconnect s (update h (Client.setNickname nickname) s)
| prim_register s nickname h :
    ValidateNickname nickname = None -> clients s !! nickname = None ->
    prim disconnect s (setClients (<[nickname := h]> (clients s)) s)
| prim_unregister s nickname :
    disconnect = true ->
    prim disconnect s (setClients (delete nickname (clients s)) s)
| prim_room_create s room :
    prim disconnect s (setRooms (<[Room.ID room := room]> (rooms s)) s)
| prim_room_update s roomID f :
    (forall r, Room.ID (f r) = Room.ID r) ->
    prim disconnect s (updateRoom roomID f s)
| prim_room_delete s roomID :
    prim disconnect s (setRooms (delete roomID (rooms s)) s)
| prim_transfer_store s fileID ft :
    prim disconnect s (setFileTransfers (<[fileID := ft]> (fileTransfers s)) s)
| prim_transfer_delete s fileID :
    prim disconnect s (setFileTransfers (delete fileID (fileTransfers s)) s)
| prim_counted s nickname now :
    prim disconnect s
      (setRateLimiter (CanSendMessage nickname now (rateLimiter s)).1 s)
| prim_add_room s nickname :
    CanCreateRoom nickname (rateLimiter s) = None ->
    prim disconnect s (setRateLimiter (AddRoom nickname (rateLimiter s)) s)
| prim_add_transfer s nickname :
    CanStartFileTransfer nickname (rateLimiter s) = None ->
    prim disconnect s (setRateLimiter (AddFileTransfer nickname (rateLimiter s)) s)
| prim_remove_user s nickname :
    disconnect = true ->
    prim disconnect s (setRateLimiter (RemoveUser nickname (rateLimiter s)) s)
| prim_remove_connection s addr :
    disconnect = true ->
    prim disconnect s (setRateLimiter (RemoveConnection addr (rateLimiter s)) s)
| prim_remove_transfer s nickname :
    prim disconnect s (setRateLimiter (RemoveFileTransfer nickname (rateLimiter s)) s)
| prim_limiter_cleanup s now :
    prim disconnect s (setRateLimiter (RateLimiter_cleanup now (rateLimiter s)) s).

Definition steps (disconnect : bool) : Server -> Server -> Prop :=
  rtc (prim disconnect).

(** The events other than the end of a read loop. *)
Definition staying (e : Event) : Prop :=
  match e with
  | ReadEnd _ _ => False
  | _ => True
  end.

(** The budgets of the limiter: no counter is above its cap, the
    counters the maps hold are positive. *)
Definition within_limits (rl : RateLimiter) : Prop :=
  0 <= totalConnections rl <= MaxConnections
  /\ (forall ip v, connectionsByIP rl !! ip = Some v -> 0 < v <= MaxConnectionsPerIP)
  /\ (forall n v, roomsPerUser rl !! n = Some v -> 0 < v <= RoomsPerUser)
  /\ (forall n v, transfersPerUser rl !! n = Some v -> 0 < v <= FileTransfersPerUser)
  /\ (forall n u, messageRates rl !! n = Some u -> 0 <= messages u <= MessagesPerSecond).

(** Every room is stored under its own ID. *)
Definition rooms_keyed (s : Server) : Prop :=
  forall k r, rooms s !! k = Some r -> Room.ID r = k.

(** A transfer is stale at [now] when it started more than the timeout
    ago. *)
Definition stale (now : Z) (ft : FileTransfer.t) : Prop :=
  now - FileTransfer.StartTime ft > FileTransferTimeout.

(** A room is abandoned at [now] when it has no member and was created
    more than the timeout ago. *)
Definition abandoned (now : Z) (r : Room.t) : Prop :=
  size (Room.Members r) = 0%nat /\ now - Room.CreatedAt r > EmptyRoomTimeout.

(** The types [HandleMessage] dispatches on. *)
Definition dispatched : list string :=
  [ TypeConnect; TypeText; TypeStatus; TypeRoom; TypeInvite; TypeInviteResp;
    TypeFile; TypeFileChunk ].

(** The scenario in which alice, registered next to bobby, has created
    the room "proj", and the room as it is stored. *)
Definition alice_creates_a_room : list Event :=
  alice_and_bobby
  ++ [Recv 0 (frame_ROOM RoomCreate "" "proj") (3 * Second) (Some "00ff")].

Definition the_room : Room.t :=
  Room.mk "room_3000000000_00ff" "proj" "" "alice" {[ "alice" ]} ∅ (3 * Second).

(** What a session's room set becomes when the room [rid] is taken out
    of it or not. *)
Definition without (rid : string) (b : bool) (R : gset string) : gset string :=
  if b then R ∖ {[ rid ]} else R.

(** Every session of [s] is still there in [s'], moved forward by
    session steps. *)
Definition evolves (s s' : Server) : Prop :=
  forall h c, sessions s !! h = Some c ->
    exists c', sessions s' !! h = Some c' /\ session_step c c'.

(** The read loop of the session has ended: its channel is nil. *)
Definition closed (s : Server) (h : nat) : Prop :=
  exists c, sessions s !! h = Some c /\ Client.SendChan c = None.

(** Every session whose read loop runs and that has a nickname is the
    session the registry stores under that nickname. *)
Definition owns (s : Server) : Prop :=
  forall h c, sessions s !! h = Some c -> is_Some (Client.SendChan c) ->
    Client.Nickname c <> "" -> clients s !! Client.Nickname c = Some h.

(** * Properties *)

(** ** Sessions and their queues *)

Section Queues.

Implicit Types (c : Client.t) (msg : Message) (s : Server) (h : nat).

Lemma SendMessage_Nickname msg c :
  Client.Nickname (Client.SendMessage msg c) = Client.Nickname c.
Proof. unfold Client.SendMessage. by repeat case_match. Qed.

Lemma SendMessage_Status msg c :
  Client.Status (Client.SendMessage msg c) = Client.Status c.
Proof. unfold Client.SendMessage. by repeat case_match. Qed.

Lemma SendMessage_Rooms msg c :
  Client.Rooms (Client.SendMessage msg c) = Client.Rooms c.
Proof. unfold Client.SendMessage. by repeat case_match. Qed.

Lemma SendMessage_RemoteAddr msg c :
  Client.RemoteAddr (Client.SendMessage msg c) = Client.RemoteAddr c.
Proof. unfold Client.SendMessage. by repeat case_match. Qed.

Lemma SendMessage_Conn msg c :
  Client.ConnClosed (Client.SendMessage msg c) = Client.ConnClosed c
  /\ Client.ConnWritten (Client.SendMessage msg c) = Client.ConnWritten c.
Proof. unfold Client.SendMessage. by repeat case_match. Qed.

Lemma SendMessage_is_Some msg c :
  is_Some (Client.SendChan (Client.SendMessage msg c)) <-> is_Some (Client.SendChan c).
Proof.
  unfold Client.SendMessage. destruct (Client.SendChan c) eqn:E; [|by rewrite E].
  case_match; simpl; rewrite ?E; split; eauto.
Qed.

(** With room in the channel, a send appends to it. *)
Lemma SendMessage_room msg c q :
  Client.SendChan c = Some q -> (length q < Client.capacity)%nat ->
  Client.SendChan (Client.SendMessage msg c) = Some (q ++ [msg]).
Proof.
  intros Hq Hlen. unfold Client.SendMessage. rewrite Hq.
  destruct (Nat.ltb_spec (length q) Client.capacity); [done|lia].
Qed.

Lemma SendAll_cons m l c :
  SendAll (m :: l) c = SendAll l (Client.SendMessage m c).
Proof. reflexivity. Qed.

Lemma SendAll_app l1 l2 c : SendAll (l1 ++ l2) c = SendAll l2 (SendAll l1 c).
Proof. apply foldl_app. Qed.

Lemma SendAll_replicate_S n msg c :
  SendAll (replicate n msg) (Client.SendMessage msg c) = SendAll (replicate (S n) msg) c.
Proof. reflexivity. Qed.

Lemma SendAll_Nickname l c : Client.Nickname (SendAll l c) = Client.Nickname c.
Proof.
  revert c. induction l as [|m l IH]; intros c; [done|].
  by rewrite SendAll_cons, IH, SendMessage_Nickname.
Qed.

Lemma SendAll_Status l c : Client.Status (SendAll l c) = Client.Status c.
Proof.
  revert c. induction l as [|m l IH]; intros c; [done|].
  by rewrite SendAll_cons, IH, SendMessage_Status.
Qed.

Lemma SendAll_Rooms l c : Client.Rooms (SendAll l c) = Client.Rooms c.
Proof.
  revert c. induction l as [|m l IH]; intros c; [done|].
  by rewrite SendAll_cons, IH, SendMessage_Rooms.
Qed.

Lemma SendAll_RemoteAddr l c : Client.RemoteAddr (SendAll l c) = Client.RemoteAddr c.
Proof.
  revert c. induction l as [|m l IH]; intros c; [done|].
  by rewrite SendAll_cons, IH, SendMessage_RemoteAddr.
Qed.

Lemma SendAll_ConnClosed l c : Client.ConnClosed (SendAll l c) = Client.ConnClosed c.
Proof.
  revert c. induction l as [|m l IH]; intros c; [done|].
  rewrite SendAll_cons, IH. apply SendMessage_Conn.
Qed.

Lemma SendAll_ConnWritten l c : Client.ConnWritten (SendAll l c) = Client.ConnWritten c.
Proof.
  revert c. induction l as [|m l IH]; intros c; [done|].
  rewrite SendAll_cons, IH. apply SendMessage_Conn.
Qed.

Lemma SendAll_is_Some l c :
  is_Some (Client.SendChan (SendAll l c)) <-> is_Some (Client.SendChan c).
Proof.
  revert c. induction l as [|m l IH]; intros c; [done|].
  by rewrite SendAll_cons, IH, SendMessage_is_Some.
Qed.

(** With room for all of them, the messages are appended in order. *)
Lemma SendAll_room l c q :
  Client.SendChan c = Some q -> (length q + length l <= Client.capacity)%nat ->
  Client.SendChan (SendAll l c) = Some (q ++ l).
Proof.
  revert c q. induction l as [|m l IH]; intros c q Hq Hlen; simpl in Hlen.
  - by rewrite app_nil_r.
  - rewrite SendAll_cons, (IH _ (q ++ [m])).
    + by rewrite <- app_assoc.
    + apply SendMessage_room; [done|lia].
    + rewrite length_app. simpl. lia.
Qed.

(** [WritePump] empties the channel in the order of the sends. *)
Lemma WriteOne_fifo c q :
  Client.SendChan c = Some q -> Client.ConnClosed c = false ->
  Client.ConnWritten (Nat.iter (length q) Client.WriteOne c) = Client.ConnWritten c ++ q
  /\ Client.SendChan (Nat.iter (length q) Client.WriteOne c) = Some [].
Proof.
  revert c. induction q as [|m q IH]; intros c Hq Hc.
  - simpl. by rewrite app_nil_r.
  - change (length (m :: q)) with (S (length q)). rewrite Nat.iter_succ_r.
    destruct (IH (Client.WriteOne c)) as [IH1 IH2].
    + unfold Client.WriteOne. by rewrite Hq, Hc.
    + unfold Client.WriteOne. by rewrite Hq, Hc.
    + rewrite IH1, IH2. split; [|done].
      unfold Client.WriteOne. rewrite Hq, Hc. simpl. by rewrite <- app_assoc.
Qed.

Lemma deref_lookup s h c : sessions s !! h = Some c -> deref s h = c.
Proof. unfold deref. by intros ->. Qed.

Lemma sessions_sendTo s h msg h' :
  sessions (sendTo h msg s) !! h' =
  if decide (h = h') then Client.SendMessage msg <$> sessions s !! h'
  else sessions s !! h'.
Proof.
  unfold sendTo, update. simpl. rewrite lookup_alter.
  case_decide; by subst.
Qed.

Lemma deref_sendTo_Nickname s h msg h' :
  Client.Nickname (deref (sendTo h msg s) h') = Client.Nickname (deref s h').
Proof.
  unfold deref. rewrite sessions_sendTo.
  case_decide; [|done]. destruct (sessions s !! h'); simpl; [|done].
  apply SendMessage_Nickname.
Qed.

Lemma deref_sendTo_Status s h msg h' :
  Client.Status (deref (sendTo h msg s) h') = Client.Status (deref s h').
Proof.
  unfold deref. rewrite sessions_sendTo.
  case_decide; [|done]. destruct (sessions s !! h'); simpl; [|done].
  apply SendMessage_Status.
Qed.

Lemma broadcastTarget_stable msg exclude : stable (broadcastTarget msg exclude).
Proof.
  intros s h m x. unfold broadcastTarget, receives.
  by rewrite deref_sendTo_Nickname, deref_sendTo_Status.
Qed.

Lemma roomTarget_stable msg : stable (roomTarget msg).
Proof.
  intros s h m x. unfold roomTarget, GetClient. simpl.
  destruct (clients s !! x); [|done]. by rewrite deref_sendTo_Status.
Qed.

Lemma broadcastOne_sendIf msg exclude s e :
  broadcastOne msg exclude s e = sendIf (broadcastTarget msg exclude) msg s e.
Proof.
  unfold broadcastOne, sendIf, broadcastTarget, receives.
  destruct (eqs (Client.Nickname (deref s e.2)) exclude); simpl; [done|].
  by destruct (eqs (Client.Status (deref s e.2)) StatusInvisible
               && negb (eqs (Sender msg) (Client.Nickname (deref s e.2)))).
Qed.

Lemma roomOne_sendIf msg s member :
  roomOne msg s member = sendIf (roomTarget msg) msg s member.
Proof.
  unfold roomOne, sendIf, roomTarget. destruct (GetClient s member); [|done].
  by case_match.
Qed.

Lemma foldl_ext {A B} (f g : A -> B -> A) l a :
  (forall a b, f a b = g a b) -> foldl f a l = foldl g a l.
Proof.
  intros Hfg. revert a. induction l as [|b l IH]; intros a; simpl; [done|].
  by rewrite Hfg, IH.
Qed.

Lemma filter_none {A} (P : A -> Prop) `{!forall x, Decision (P x)} (l : list A) :
  (forall x, ~ P x) -> filter P l = [].
Proof.
  intros HP. induction l as [|x l IH]; [done|].
  by rewrite filter_cons_False.
Qed.

(** The effect of a sending loop: each session is sent [msg] once for
    every element of the list whose target it is; nothing else changes. *)
Lemma foldl_sendIf {A} (target : Server -> A -> option nat) msg (l : list A) s :
  stable target ->
  let s' := foldl (sendIf target msg) s l in
  clients s' = clients s /\ rooms s' = rooms s
  /\ fileTransfers s' = fileTransfers s /\ rateLimiter s' = rateLimiter s
  /\ forall h,
      sessions s' !! h =
      SendAll (replicate (length (filter (fun x => target s x = Some h) l)) msg)
        <$> sessions s !! h.
Proof.
  intros Hst. revert s. induction l as [|x l IH]; intros s; simpl.
  { repeat split; try done. intros h. by destruct (sessions s !! h). }
  destruct (IH (sendIf target msg s x)) as (Hc & Hr & Hf & Hl & Hs).
  assert (Hsame : forall y, target (sendIf target msg s x) y = target s y).
  { intros y. unfold sendIf. destruct (target s x); [apply Hst|done]. }
  assert (Hframe : clients (sendIf target msg s x) = clients s
                   /\ rooms (sendIf target msg s x) = rooms s
                   /\ fileTransfers (sendIf target msg s x) = fileTransfers s
                   /\ rateLimiter (sendIf target msg s x) = rateLimiter s).
  { unfold sendIf. by destruct (target s x). }
  destruct Hframe as (Hc' & Hr' & Hf' & Hl').
  rewrite Hc, Hr, Hf, Hl. repeat split; try done.
  intros h. rewrite Hs.
  rewrite (list_filter_iff _ (fun y => target s y = Some h)) by (intros y; by rewrite Hsame).
  rewrite filter_cons. unfold sendIf at 1.
  destruct (target s x) as [h0|] eqn:Ht.
  - rewrite sessions_sendTo. case_decide as Hh.
    + subst h0. rewrite decide_True by done.
      destruct (sessions s !! h); simpl; [|done]. by rewrite SendAll_replicate_S.
    + rewrite decide_False by congruence. done.
  - by rewrite decide_False.
Qed.

Lemma BroadcastMessage_spec msg exclude s :
  let s' := BroadcastMessage msg exclude s in
  clients s' = clients s /\ rooms s' = rooms s
  /\ fileTransfers s' = fileTransfers s /\ rateLimiter s' = rateLimiter s
  /\ forall h,
      sessions s' !! h =
      SendAll (replicate
                 (if receives msg exclude (deref s h) then registrations s h else 0%nat)
                 msg)
        <$> sessions s !! h.
Proof.
  unfold BroadcastMessage.
  rewrite (foldl_ext _ (sendIf (broadcastTarget msg exclude) msg))
    by apply broadcastOne_sendIf.
  destruct (foldl_sendIf (broadcastTarget msg exclude) msg (map_to_list (clients s)) s
              (broadcastTarget_stable msg exclude)) as (Hc & Hr & Hf & Hl & Hs).
  simpl. repeat split; try done.
  intros h. rewrite Hs. f_equal. f_equal. f_equal.
  unfold registrations, broadcastTarget.
  destruct (receives msg exclude (deref s h)) eqn:Hrec.
  - f_equal. apply list_filter_iff. intros [n h']; simpl.
    split.
    + case_match; congruence.
    + intros ->. by rewrite Hrec.
  - rewrite filter_none; [done|]. intros [n h']; simpl.
    case_match; [|done]. intros [= ->]. congruence.
Qed.

Lemma BroadcastToRoom_spec r room msg s :
  GetRoom s r = Some room ->
  let s' := BroadcastToRoom r msg s in
  clients s' = clients s /\ rooms s' = rooms s
  /\ fileTransfers s' = fileTransfers s /\ rateLimiter s' = rateLimiter s
  /\ forall h,
      sessions s' !! h =
      SendAll (replicate
                 (length (filter (fun member => roomTarget msg s member = Some h)
                                 (Room.GetMembers room)))
                 msg)
        <$> sessions s !! h.
Proof.
  intros Hr. unfold BroadcastToRoom. rewrite Hr.
  rewrite (foldl_ext _ (sendIf (roomTarget msg) msg)) by apply roomOne_sendIf.
  apply foldl_sendIf, roomTarget_stable.
Qed.

(** Whatever the room, a room broadcast only sends messages. *)
Lemma BroadcastToRoom_sends r msg s :
  let s' := BroadcastToRoom r msg s in
  clients s' = clients s /\ rooms s' = rooms s
  /\ fileTransfers s' = fileTransfers s /\ rateLimiter s' = rateLimiter s
  /\ forall h, exists l, sessions s' !! h = SendAll l <$> sessions s !! h.
Proof.
  destruct (GetRoom s r) as [room|] eqn:Hr.
  - destruct (BroadcastToRoom_spec r room msg s Hr) as (? & ? & ? & ? & Hs).
    repeat split; try done. intros h. eexists. apply Hs.
  - unfold BroadcastToRoom. rewrite Hr. repeat split; try done.
    intros h. exists []. by destruct (sessions s !! h).
Qed.

End Queues.

(** ** Steps that leave the registry and the nicknames alone *)

Section Keeps.

Implicit Types (c : Client.t) (msg : Message) (s : Server) (h : nat).

Lemma keeps_refl s : keeps s s.
Proof. by split. Qed.

Lemma keeps_trans s1 s2 s3 : keeps s1 s2 -> keeps s2 s3 -> keeps s1 s3.
Proof. intros [H1 H2] [H3 H4]. split; [congruence|]. intros h. by rewrite H4. Qed.

Lemma keeps_update s0 s h f :
  (forall c, Client.Nickname (f c) = Client.Nickname c) ->
  keeps s0 s -> keeps s0 (update h f s).
Proof.
  intros Hf Hk. eapply keeps_trans; [exact Hk|]. split; [done|].
  intros h'. unfold update. simpl. rewrite lookup_alter.
  case_decide; [|done]. subst. destruct (sessions s !! h'); simpl; [|done].
  by rewrite Hf.
Qed.

Lemma keeps_sendTo s0 s h msg : keeps s0 s -> keeps s0 (sendTo h msg s).
Proof. apply keeps_update. intros c. apply SendMessage_Nickname. Qed.

Lemma keeps_sendError s0 s h r e now : keeps s0 s -> keeps s0 (sendError h r e now s).
Proof. apply keeps_sendTo. Qed.

Lemma keeps_setRooms s0 s x : keeps s0 s -> keeps s0 (setRooms x s).
Proof. intros Hk. eapply keeps_trans; [exact Hk|]. by split. Qed.

Lemma keeps_updateRoom s0 s r f : keeps s0 s -> keeps s0 (updateRoom r f s).
Proof. apply keeps_setRooms. Qed.

Lemma keeps_setFileTransfers s0 s x : keeps s0 s -> keeps s0 (setFileTransfers x s).
Proof. intros Hk. eapply keeps_trans; [exact Hk|]. by split. Qed.

Lemma keeps_setRateLimiter s0 s x : keeps s0 s -> keeps s0 (setRateLimiter x s).
Proof. intros Hk. eapply keeps_trans; [exact Hk|]. by split. Qed.

Lemma keeps_foldl {A} (f : Server -> A -> Server) (l : list A) s0 s :
  (forall s x, keeps s (f s x)) -> keeps s0 s -> keeps s0 (foldl f s l).
Proof.
  intros Hf. revert s. induction l as [|x l IH]; intros s Hk; simpl; [done|].
  apply IH. eapply keeps_trans; [exact Hk|apply Hf].
Qed.

Lemma keeps_BroadcastMessage s0 s msg exclude :
  keeps s0 s -> keeps s0 (BroadcastMessage msg exclude s).
Proof.
  apply keeps_foldl. intros s1 x. unfold broadcastOne.
  repeat case_match; auto using keeps_refl, keeps_sendTo.
Qed.

Lemma keeps_BroadcastUserList s0 s : keeps s0 s -> keeps s0 (BroadcastUserList s).
Proof. apply keeps_BroadcastMessage. Qed.

Lemma keeps_BroadcastToRoom s0 s r msg :
  keeps s0 s -> keeps s0 (BroadcastToRoom r msg s).
Proof.
  intros Hk. unfold BroadcastToRoom. destruct (GetRoom s r); [|done].
  apply keeps_foldl; [|done]. intros s1 x. unfold roomOne.
  repeat case_match; auto using keeps_refl, keeps_sendTo.
Qed.

Lemma keeps_deleteOne room r s x : keeps s (deleteOne room r s x).
Proof.
  unfold deleteOne. destruct (GetClient s x); [|apply keeps_refl].
  apply keeps_sendTo, keeps_update; [done|apply keeps_refl].
Qed.

Lemma keeps_unregisterRoom n now s room : keeps s (unregisterRoom n now s room).
Proof.
  unfold unregisterRoom. apply keeps_BroadcastToRoom, keeps_updateRoom, keeps_refl.
Qed.

Lemma keeps_cleanupOne now acc e : keeps acc.1 (cleanupOne now acc e).1.
Proof.
  destruct acc as [s l]. unfold cleanupOne. simpl.
  case_match; simpl; [|apply keeps_refl].
  apply keeps_setRateLimiter.
  repeat case_match; repeat first [apply keeps_sendError | apply keeps_refl].
Qed.

Create HintDb keeps.

#[local] Hint Resolve keeps_refl keeps_sendTo keeps_sendError keeps_setRooms
  keeps_updateRoom keeps_setFileTransfers keeps_setRateLimiter
  keeps_BroadcastMessage keeps_BroadcastUserList keeps_BroadcastToRoom : keeps.

#[local] Hint Extern 1 (keeps _ (update _ _ _)) =>
  (apply keeps_update; [intros []; reflexivity|]) : keeps.

#[local] Hint Extern 1 (keeps _ (foldl (deleteOne _ _) _ _)) =>
  (apply keeps_foldl; [intros; apply keeps_deleteOne|]) : keeps.

Ltac keeps_cases := cbv zeta; repeat case_match; eauto 12 with keeps.

Lemma keeps_handleText h msg now s : keeps s (handleText h msg now s).
Proof. unfold handleText. keeps_cases. Qed.

Lemma keeps_handleStatus h msg now s : keeps s (handleStatus h msg now s).
Proof. unfold handleStatus. keeps_cases. Qed.

Lemma keeps_handleRoomMessage h msg now rnd s :
  keeps s (handleRoomMessage h msg now rnd s).
Proof. unfold handleRoomMessage. keeps_cases. Qed.

Lemma keeps_handleInviteMessage h msg now s : keeps s (handleInviteMessage h msg now s).
Proof. unfold handleInviteMessage. keeps_cases. Qed.

Lemma keeps_handleInviteResponse h msg now s : keeps s (handleInviteResponse h msg now s).
Proof. unfold handleInviteResponse. keeps_cases. Qed.

Lemma keeps_handleFileTransferInit h msg now s :
  keeps s (handleFileTransferInit h msg now s).
Proof. unfold handleFileTransferInit. keeps_cases. Qed.

Lemma keeps_handleFileChunk h msg s : keeps s (handleFileChunk h msg s).
Proof. unfold handleFileChunk. keeps_cases. Qed.

Lemma keeps_cleanupFileTransfers now s : keeps s (cleanupFileTransfers now s).
Proof.
  unfold cleanupFileTransfers.
  assert (Hk : forall l acc, keeps acc.1 (foldl (cleanupOne now) acc l).1).
  { induction l as [|e l IH]; intros acc; simpl; [apply keeps_refl|].
    eapply keeps_trans; [apply keeps_cleanupOne|apply IH]. }
  specialize (Hk (map_to_list (fileTransfers s)) (s, [])).
  destruct (foldl (cleanupOne now) (s, []) (map_to_list (fileTransfers s))) as [s1 l1].
  simpl in Hk. apply keeps_foldl; [|done].
  intros s2 x. apply keeps_setFileTransfers, keeps_refl.
Qed.

Lemma keeps_cleanupEmptyRooms now s : keeps s (cleanupEmptyRooms now s).
Proof.
  unfold cleanupEmptyRooms. apply keeps_foldl; [|apply keeps_refl].
  intros s2 x. apply keeps_setRooms, keeps_refl.
Qed.

Lemma registry_valid_keeps s s' : keeps s s' -> registry_valid s -> registry_valid s'.
Proof.
  intros [Hc Hn] Hv n h Hl. rewrite Hc in Hl.
  destruct (Hv n h Hl) as (c & Hs & Hne).
  specialize (Hn h). rewrite Hs in Hn. simpl in Hn.
  destruct (sessions s' !! h) as [c'|]; [|done]. simpl in Hn.
  exists c'. split; [done|]. congruence.
Qed.

Lemma ValidateNickname_nonempty n : ValidateNickname n = None -> n <> "".
Proof. intros Hv ->. by vm_compute in Hv. Qed.

Lemma registry_valid_RegisterClient h n now s :
  is_Some (sessions s !! h) -> registry_valid s ->
  registry_valid (RegisterClient h n now s).1.
Proof.
  intros [c Hc] Hv. unfold RegisterClient.
  destruct (ValidateNickname n) eqn:Hn; [done|].
  destruct (clients s !! n) eqn:Hfree; [done|]. cbv zeta. cbn [fst].
  eapply registry_valid_keeps.
  { apply keeps_BroadcastMessage, keeps_sendTo, keeps_BroadcastUserList, keeps_refl. }
  intros n' h' Hl. simpl in Hl. simpl. rewrite lookup_alter.
  destruct (decide (n = n')) as [->|Hne].
  - rewrite lookup_insert_eq in Hl. injection Hl as <-.
    rewrite decide_True by done. rewrite Hc. simpl. eexists. split; [done|].
    simpl. by apply ValidateNickname_nonempty.
  - rewrite lookup_insert_ne in Hl by done.
    destruct (Hv n' h' Hl) as (c' & Hc' & Hne').
    case_decide.
    + subst h'. rewrite Hc. simpl. eexists. split; [done|]. simpl.
      by apply ValidateNickname_nonempty.
    + eauto.
Qed.

Lemma registry_valid_UnregisterClient h now s :
  registry_valid s -> registry_valid (UnregisterClient h now s).
Proof.
  intros Hv. unfold UnregisterClient. case_match; [done|]. cbv zeta.
  set (s1 := setClients _ s).
  assert (Hv1 : registry_valid s1).
  { intros n' h' Hl. simpl in Hl. apply lookup_delete_Some in Hl as [_ Hl].
    exact (Hv n' h' Hl). }
  eapply registry_valid_keeps; [|exact Hv1].
  case_match; repeat first
    [ apply keeps_setRateLimiter | apply keeps_BroadcastUserList
    | apply keeps_BroadcastMessage ];
    (apply keeps_foldl; [intros; apply keeps_unregisterRoom|apply keeps_refl]).
Qed.

Lemma registry_valid_HandleMessage h msg now rnd s :
  is_Some (sessions s !! h) -> registry_valid s ->
  registry_valid (HandleMessage h msg now rnd s).1.
Proof.
  intros Hh Hv. unfold HandleMessage.
  destruct (eqs (MType msg) TypeConnect).
  { pose proof (registry_valid_RegisterClient h (Content msg) now s Hh Hv) as Hr.
    destruct (RegisterClient h (Content msg) now s) as [s1 [e|]]; simpl in *.
    - eapply registry_valid_keeps; [|exact Hr]. eauto 6 with keeps.
    - eapply registry_valid_keeps; [|exact Hr]. eauto with keeps. }
  repeat case_match; simplify_eq; simpl;
    (eapply registry_valid_keeps; [|exact Hv]);
    eauto using keeps_handleText, keeps_handleStatus, keeps_handleRoomMessage,
      keeps_handleInviteMessage, keeps_handleInviteResponse,
      keeps_handleFileTransferInit, keeps_handleFileChunk, keeps_refl.
Qed.

Lemma reading_is_Some s h : reading s h = true -> is_Some (sessions s !! h).
Proof. unfold reading. destruct (sessions s !! h); [eauto|done]. Qed.

Lemma registry_valid_exec s e : registry_valid s -> registry_valid (exec s e).
Proof.
  intros Hv. destruct e as [h id addr|h frame now rnd|h now|h|h now|now|now]; simpl.
  - destruct (sessions s !! h) eqn:Hh; [done|].
    destruct (CanConnect (rateLimiter s) addr); [done|].
    intros n' h' Hl. simpl in Hl. simpl.
    destruct (Hv n' h' Hl) as (c' & Hc' & Hne').
    rewrite lookup_insert_ne by congruence. eauto.
  - destruct (reading s h) eqn:Hr; [|done]. apply reading_is_Some in Hr.
    unfold ReadPump_step.
    pose proof (registry_valid_HandleMessage h
                  (setTimestamp now (setSender (Client.Nickname (deref s h)) frame))
                  now rnd s Hr Hv) as Hm.
    destruct (HandleMessage _ _ _ _ _) as [s1 [e|]]; simpl in Hm; [|done].
    eapply registry_valid_keeps; [|exact Hm]. eauto with keeps.
  - destruct (reading s h); [|done]. unfold ReadPump_exit.
    eapply registry_valid_keeps; [|apply registry_valid_UnregisterClient, Hv].
    eauto with keeps.
  - eapply registry_valid_keeps; [|exact Hv].
    apply keeps_update; [|apply keeps_refl].
    intros c. unfold Client.WriteOne. by repeat case_match.
  - eapply registry_valid_keeps; [|exact Hv].
    apply keeps_update; [|apply keeps_refl].
    intros c. unfold Client.WritePing. by repeat case_match.
  - eapply registry_valid_keeps; [|exact Hv].
    eapply keeps_trans; [apply keeps_cleanupFileTransfers|apply keeps_cleanupEmptyRooms].
  - eapply registry_valid_keeps; [|exact Hv]. eauto with keeps.
Qed.

(** In every reachable state the registry refers to sessions of the
    store that carry a nickname. *)
Lemma reachable_registry_valid s : reachable s -> registry_valid s.
Proof.
  intros [evs <-]. unfold run.
  induction evs as [|e evs IH] using rev_ind.
  - intros n h Hl. simpl in Hl. by rewrite lookup_empty in Hl.
  - rewrite foldl_app. simpl. by apply registry_valid_exec.
Qed.

Lemma reachable_exec s e : reachable s -> reachable (exec s e).
Proof.
  intros [evs <-]. exists (evs ++ [e]). unfold run. by rewrite foldl_app.
Qed.

End Keeps.

(** * Properties *)

(** ** The filename validator *)

Section FileNames.

Import GoStrings Filepath.

Lemma clean_loop_copy rooted rest out dd :
  forallb (fun c => negb (IsPathSeparator c)) rest = true ->
  clean_loop rooted true rest out dd = out ++ rest.
Proof.
  revert out. induction rest as [|c rest IH]; intros out Hs; simpl.
  - by rewrite app_nil_r.
  - simpl in Hs. apply andb_prop in Hs as [Hc Hr].
    apply negb_true_iff in Hc. rewrite Hc.
    rewrite IH by done. by rewrite <- app_assoc.
Qed.

Lemma ContainsAny_slash_forallb f :
  ContainsAny f "/" = false ->
  forallb (fun c => negb (IsPathSeparator c)) (list_ascii_of_string f) = true.
Proof.
  induction f as [|c f IH]; simpl; [done|].
  rewrite orb_false_r. intros H. apply orb_false_elim in H as [Hc Hf].
  unfold IsPathSeparator. rewrite Hc. simpl. auto.
Qed.

(** A name without [/] is its own cleaned form. *)
Lemma Clean_no_slash f :
  f <> "" -> ContainsAny f "/" = false -> Clean f = f.
Proof.
  intros Hne Hs. apply ContainsAny_slash_forallb in Hs.
  unfold Clean. rewrite <- (string_of_list_ascii_of_string f) at 2.
  destruct (list_ascii_of_string f) as [|c rest] eqn:E.
  { destruct f; simpl in E; congruence. }
  simpl in Hs. apply andb_prop in Hs as [Hc Hr].
  apply negb_true_iff in Hc. rewrite Hc.
  assert (Hel : clean_loop false true rest [c] 0 = c :: rest)
    by (by rewrite clean_loop_copy).
  unfold clean_loop; fold clean_loop. rewrite Hc.
  destruct (Ascii.eqb c ".") eqn:Hdot.
  - apply Ascii.eqb_eq in Hdot. subst c.
    destruct rest as [|c1 rest1]; [done|].
    simpl in Hr. apply andb_prop in Hr as [Hc1 Hr1].
    apply negb_true_iff in Hc1. rewrite Hc1.
    destruct (Ascii.eqb c1 ".") eqn:Hdot1.
    + apply Ascii.eqb_eq in Hdot1. subst c1.
      destruct rest1 as [|c2 rest2].
      * reflexivity.
      * simpl in Hr1. apply andb_prop in Hr1 as [Hc2 Hr2].
        apply negb_true_iff in Hc2. rewrite Hc2. simpl andb. cbv iota.
        cbn [orb app]. by rewrite Hel.
    + simpl andb. cbv iota. cbn [orb app]. by rewrite Hel.
  - cbn [orb app negb andb length Nat.eqb]. by rewrite Hel.
Qed.

Lemma ContainsAny_two f :
  ContainsAny f "/\" = ContainsAny f "/" || ContainsAny f "\".
Proof.
  induction f as [|c f IH]; simpl; [done|]. rewrite IH.
  destruct (Ascii.eqb c "/"), (Ascii.eqb c "\"), (ContainsAny f "/"),
    (ContainsAny f "\"); reflexivity.
Qed.

Lemma len_zero f : (len f =? 0) = true <-> f = "".
Proof.
  unfold len. destruct f; simpl; split; intros H; done.
Qed.

(** The verdict of [ValidateFileName], read off the cleaned form. *)
Lemma ValidateFileName_accepts f :
  ValidateFileName f = None <->
  f <> "" /\ len f <= MaxFileNameLength
  /\ Contains (Clean f) ".." = false
  /\ ContainsAny (Clean f) "/\" = false
  /\ HasPrefix f "." = false.
Proof.
  unfold ValidateFileName.
  destruct (len f =? 0) eqn:H0.
  { apply len_zero in H0. split; [done|]. intros [? _]. done. }
  assert (f <> "") by (intros ->; done).
  destruct (len f >? MaxFileNameLength) eqn:H1.
  { split; [done|]. intros (_ & ? & _). lia. }
  destruct (Contains (Clean f) ".." || ContainsAny (Clean f) "/\") eqn:H2.
  { split; [done|]. intros (_ & _ & Ha & Hb & _). rewrite Ha, Hb in H2. done. }
  apply orb_false_elim in H2 as [Ha Hb].
  destruct (HasPrefix f ".") eqn:H3.
  { split; [done|]. intros (_ & _ & _ & _ & ?). done. }
  split; [|done]. intros _. repeat split; try done. lia.
Qed.

End FileNames.



(** ** The user list *)

Section UserList.

Implicit Types (c : Client.t) (msg : Message) (s : Server) (h : nat).

Lemma eqs_true a b : eqs a b = true <-> a = b.
Proof. unfold eqs. apply bool_decide_eq_true. Qed.

Lemma eqs_false a b : eqs a b = false <-> a <> b.
Proof. unfold eqs. apply bool_decide_eq_false. Qed.

Lemma elem_of_userList_fold s x l acc :
  x ∈ foldl (userListOne s) acc l <->
  x ∈ acc \/ exists e, e ∈ l
      /\ Client.Status (deref s e.2) <> StatusInvisible
      /\ x = Client.Nickname (deref s e.2) +:+ ":" +:+ Client.Status (deref s e.2).
Proof.
  revert acc. induction l as [|e l IH]; intros acc; simpl.
  - split; [auto|]. intros [?|(e & He & _)]; [done|]. by apply elem_of_nil in He.
  - rewrite IH. unfold userListOne at 1.
    destruct (eqs (Client.Status (deref s e.2)) StatusInvisible) eqn:Hst; simpl.
    + apply eqs_true in Hst. split.
      * intros [?|(e' & He' & Hv & ->)]; [auto|]. right. exists e'.
        rewrite elem_of_cons. auto.
      * intros [?|(e' & He' & Hv & ->)]; [auto|]. right.
        apply elem_of_cons in He' as [->|He']; [done|]. eauto.
    + apply eqs_false in Hst. rewrite elem_of_app, list_elem_of_singleton. split.
      * intros [[?| ->]|(e' & He' & Hv & ->)]; [auto| |].
        -- right. exists e. rewrite elem_of_cons. auto.
        -- right. exists e'. rewrite elem_of_cons. auto.
      * intros [?|(e' & He' & Hv & ->)]; [auto|].
        apply elem_of_cons in He' as [->|He']; [auto|]. right. eauto.
Qed.

(** The users of the list: one entry for every registry entry whose
    session is not invisible. *)
Lemma elem_of_userList s x :
  x ∈ userList s <->
  exists nickname h, clients s !! nickname = Some h
    /\ Client.Status (deref s h) <> StatusInvisible
    /\ x = Client.Nickname (deref s h) +:+ ":" +:+ Client.Status (deref s h).
Proof.
  unfold userList. rewrite elem_of_userList_fold. split.
  - intros [H|([n h] & He & Hv & ->)]; [by apply elem_of_nil in H|].
    apply elem_of_map_to_list in He. eauto.
  - intros (n & h & Hl & Hv & ->). right. exists (n, h).
    by rewrite elem_of_map_to_list.
Qed.

Lemma registrations_pos s h : registered s h <-> (1 <= registrations s h)%nat.
Proof.
  unfold registered, registrations. split.
  - intros [n Hn]. apply elem_of_map_to_list in Hn.
    assert (Hin : (n, h) ∈ filter (fun e : string * nat => e.2 = h)
                              (map_to_list (clients s)))
      by (by apply list_elem_of_filter).
    destruct (filter _ _); [by apply elem_of_nil in Hin|simpl; lia].
  - intros Hlen.
    destruct (filter (fun e : string * nat => e.2 = h) (map_to_list (clients s)))
      as [|[n h'] l] eqn:E; [simpl in Hlen; lia|].
    assert (Hin : (n, h') ∈ filter (fun e : string * nat => e.2 = h)
                               (map_to_list (clients s)))
      by (rewrite E; apply list_elem_of_here).
    apply list_elem_of_filter in Hin as [Heq Hin]. simpl in Heq. subst h'.
    exists n. by apply elem_of_map_to_list.
Qed.

Lemma receives_userList users c :
  Client.Nickname c <> "" ->
  receives (UserListMessage users) "" c
  = negb (eqs (Client.Status c) StatusInvisible).
Proof.
  intros Hn. unfold receives. simpl.
  assert (H1 : eqs (Client.Nickname c) "" = false) by (by apply eqs_false).
  assert (H2 : eqs "" (Client.Nickname c) = false) by (by apply eqs_false).
  rewrite H1, H2. simpl. by rewrite andb_true_r.
Qed.

End UserList.

(** C7 (as the code has it): the user-list broadcast is a USER_LIST
    message whose [Users] are the texts ["<nickname>:<status>"] of the
    registered sessions that are not invisible; it is sent to every
    registered session that is not invisible (once for each nickname the
    session is stored under), and a registered session whose status is
    INVISIBLE is not sent it. *)
Theorem BroadcastUserList_delivery (s : Server) (h : nat) (c : Client.t) :
  sessions s !! h = Some c -> registered s h -> Client.Nickname c <> "" ->
  let msg := UserListMessage (userList s) in
  MType msg = TypeUserList
  /\ (forall x, x ∈ Users msg <->
        exists nickname h', clients s !! nickname = Some h'
          /\ Client.Status (deref s h') <> StatusInvisible
          /\ x = Client.Nickname (deref s h') +:+ ":" +:+ Client.Status (deref s h'))
  /\ (Client.Status c <> StatusInvisible ->
        (1 <= registrations s h)%nat
        /\ sessions (BroadcastUserList s) !! h
           = Some (SendAll (replicate (registrations s h) msg) c))
  /\ (Client.Status c = StatusInvisible ->
        sessions (BroadcastUserList s) !! h = Some c).
Proof.
  intros Hc Hreg Hn. cbv zeta. split; [done|]. split; [apply elem_of_userList|].
  destruct (BroadcastMessage_spec (UserListMessage (userList s)) "" s)
    as (_ & _ & _ & _ & Hs).
  unfold BroadcastUserList. rewrite Hs, Hc, (deref_lookup _ _ _ Hc).
  rewrite receives_userList by done.
  destruct (eqs (Client.Status c) StatusInvisible) eqn:E; simpl.
  - apply eqs_true in E. split; [done|]. by intros _.
  - apply eqs_false in E. split; [|done]. intros _.
    split; [by apply registrations_pos|done].
Qed.

Lemma BroadcastUserList_delivery_witness :
  let s := run [Accept 0 "client_1" peer1; Recv 0 (frame_CONNECT "alice") 1000 None] in
  exists c, sessions s !! 0%nat = Some c
    /\ Client.SendChan <$> sessions (BroadcastUserList s) !! 0%nat
       = Some (option_map (fun q => q ++ [UserListMessage ["alice:ACTIVE"]])
                 (Client.SendChan c)).
Proof.
  intros s. exists (deref s 0).
  assert (Hc : sessions s !! 0%nat = Some (deref s 0)) by (by vm_compute).
  split; [exact Hc|].
  assert (Hreg : registered s 0) by (exists "alice"; by vm_compute).
  assert (Hn : Client.Nickname (deref s 0) <> "") by (by vm_compute).
  assert (Hst : Client.Status (deref s 0) <> StatusInvisible) by (by vm_compute).
  destruct (BroadcastUserList_delivery s 0 _ Hc Hreg Hn) as (_ & _ & Hsend & _).
  destruct (Hsend Hst) as [_ ->]. by vm_compute.
Defined.

(** C7, the claim as written fails: after bobby has set himself
    INVISIBLE he is still registered, and the user-list broadcast reaches
    alice but not him. *)
Lemma BroadcastUserList_skips_invisible :
  let s := run (alice_and_bobby ++ [Recv 1 (frame_STATUS StatusInvisible) (3 * Second) None]) in
  clients s !! "bobby" = Some 1%nat
  /\ Client.Status <$> sessions s !! 1%nat = Some StatusInvisible
  /\ sessions (BroadcastUserList s) !! 1%nat = sessions s !! 1%nat
  /\ userList s = ["alice:ACTIVE"]
  /\ (Client.SendChan <$> sessions (BroadcastUserList s) !! 0%nat)
     = (option_map (fun q => q ++ [UserListMessage ["alice:ACTIVE"]])
        <$> (Client.SendChan <$> sessions s !! 0%nat)).
Proof. by vm_compute. Qed.

(** ** Registration *)

Section Registration.

Implicit Types (c : Client.t) (msg : Message) (s : Server) (h : nat).

Lemma registrations_insert s x n h h' :
  clients s !! n = None ->
  registrations (setClients (<[n := h]> (clients s)) x) h'
  = ((if decide (h = h') then 1 else 0) + registrations s h')%nat.
Proof.
  intros Hfree. unfold registrations.
  destruct x as [ss cl rs fs rl]. simpl.
  rewrite (Permutation_length
             (filter_Permutation _ _ _ (map_to_list_insert (clients s) n h Hfree))).
  rewrite filter_cons. simpl. by case_decide.
Qed.

Lemma registrations_zero s h : ~ registered s h -> registrations s h = 0%nat.
Proof.
  intros Hn. destruct (registrations s h) eqn:E; [done|].
  exfalso. apply Hn, registrations_pos. lia.
Qed.

Lemma stamp_fields s h frame now :
  MType (stamp s h frame now) = MType frame
  /\ Content (stamp s h frame now) = Content frame
  /\ Recipient (stamp s h frame now) = Recipient frame
  /\ Room (stamp s h frame now) = Room frame
  /\ Sender (stamp s h frame now) = Client.Nickname (deref s h)
  /\ Timestamp (stamp s h frame now) = now.
Proof. by destruct frame. Qed.

Lemma reading_lookup s h c :
  sessions s !! h = Some c -> is_Some (Client.SendChan c) -> reading s h = true.
Proof. intros Hc Hq. unfold reading. rewrite Hc. by apply bool_decide_eq_true. Qed.

(** The queue of a session whose first CONNECT is accepted. *)
Lemma RegisterClient_fresh s h c n now :
  sessions s !! h = Some c -> ~ registered s h ->
  ValidateNickname n = None -> clients s !! n = None ->
  let s2 := setClients (<[n := h]> (clients s)) (update h (Client.setNickname n) s) in
  let welcome := NewTextMessage "Server" n ("Welcome to the chat, " +:+ n +:+ "!") now in
  exists s', RegisterClient h n now s = (s', None)
    /\ clients s' = <[n := h]> (clients s)
    /\ sessions s' !! h
       = Some (SendAll ((if eqs (Client.Status c) StatusInvisible then []
                         else [UserListMessage (userList s2)]) ++ [welcome])
                 (Client.setNickname n c)).
Proof.
  intros Hc Hnew Hval Hfree s2 welcome.
  unfold RegisterClient. rewrite Hval, Hfree. cbv zeta.
  change (setClients (<[n := h]> (clients (update h (Client.setNickname n) s)))
            (update h (Client.setNickname n) s)) with s2.
  fold welcome.
  set (announce := NewBroadcastMessage _ _ _).
  eexists. split; [reflexivity|].
  destruct (BroadcastMessage_spec announce n (sendTo h welcome (BroadcastUserList s2)))
    as (Hc5 & _ & _ & _ & Hs5).
  destruct (BroadcastMessage_spec (UserListMessage (userList s2)) "" s2)
    as (Hc3 & _ & _ & _ & Hs3).
  split.
  { rewrite Hc5. simpl. unfold BroadcastUserList. by rewrite Hc3. }
  assert (Hc2 : sessions s2 !! h = Some (Client.setNickname n c)).
  { unfold s2. simpl. rewrite lookup_alter, decide_True by done. by rewrite Hc. }
  assert (Hne : n <> "") by (by apply ValidateNickname_nonempty).
  assert (Hc4 : sessions (sendTo h welcome (BroadcastUserList s2)) !! h
                = Some (SendAll ((if eqs (Client.Status c) StatusInvisible then []
                                  else [UserListMessage (userList s2)]) ++ [welcome])
                          (Client.setNickname n c))).
  { rewrite sessions_sendTo, decide_True by done.
    unfold BroadcastUserList. rewrite Hs3, Hc2. simpl.
    rewrite (deref_lookup _ _ _ Hc2), receives_userList by done.
    unfold s2 at 1. rewrite registrations_insert by done.
    rewrite decide_True, registrations_zero by done. simpl.
    rewrite SendAll_app. by destruct (eqs (Client.Status c) StatusInvisible). }
  rewrite Hs5, Hc4. simpl. rewrite (deref_lookup _ _ _ Hc4).
  unfold receives. rewrite SendAll_Nickname. simpl.
  assert (Hex : eqs n n = true) by (by apply eqs_true).
  by rewrite Hex.
Qed.

Lemma sessions_writes s h k h' :
  sessions (foldl exec s (replicate k (Write h))) !! h'
  = if decide (h = h') then Nat.iter k Client.WriteOne <$> sessions s !! h'
    else sessions s !! h'.
Proof.
  revert s. induction k as [|k IH]; intros s.
  - simpl. case_decide; [|done]. by destruct (sessions s !! h').
  - change (replicate (S k) (Write h)) with (Write h :: replicate k (Write h)).
    simpl foldl. rewrite IH. simpl. rewrite lookup_alter.
    case_decide; [|done]. subst h'.
    destruct (sessions s !! h) as [c|]; [|done].
    change (Some (Nat.iter k Client.WriteOne (Client.WriteOne c))
            = Some (Nat.iter (S k) Client.WriteOne c)).
    by rewrite Nat.iter_succ_r.
Qed.

End Registration.

(** C5 (as the code has it): when the first CONNECT of a session with a
    valid nickname that is free is processed, the messages sent to the
    session's own queue are, in order: the USER_LIST message (unless the
    session had set itself INVISIBLE), the welcome TEXT, and last the TEXT
    "Connected successfully"; with room in the channel they are appended
    to it in that order, and the write loop puts them on the socket in the
    same order. *)
Theorem CONNECT_replies (s : Server) (h : nat) (c : Client.t) (q : list Message)
        (frame : Message) (now : Z) (rnd : option string) :
  sessions s !! h = Some c -> Client.SendChan c = Some q ->
  ~ registered s h ->
  MType frame = TypeConnect ->
  ValidateNickname (Content frame) = None ->
  clients s !! Content frame = None ->
  let n := Content frame in
  let s2 := setClients (<[n := h]> (clients s)) (update h (Client.setNickname n) s) in
  let list := UserListMessage (userList s2) in
  let welcome := NewTextMessage "Server" n ("Welcome to the chat, " +:+ n +:+ "!") now in
  let ack := NewTextMessage "Server" (Client.Nickname c) "Connected successfully" now in
  let replies :=
    (if eqs (Client.Status c) StatusInvisible then [] else [list]) ++ [welcome; ack] in
  let s' := exec s (Recv h frame now rnd) in
  clients s' !! n = Some h
  /\ sessions s' !! h = Some (SendAll replies (Client.setNickname n c))
  /\ ((length q + length replies <= Client.capacity)%nat ->
      Client.SendChan <$> sessions s' !! h = Some (Some (q ++ replies))
      /\ (Client.ConnClosed c = false ->
          Client.ConnWritten
            <$> sessions (foldl exec s' (replicate (length (q ++ replies)) (Write h))) !! h
          = Some (Client.ConnWritten c ++ q ++ replies))).
Proof.
  intros Hc Hq Hnew Hty Hval Hfree n s2 list welcome ack replies s'.
  destruct (RegisterClient_fresh s h c n now Hc Hnew Hval Hfree)
    as (s5 & Hreg & Hcl & Hs5).
  assert (Hs' : s' = sendTo h ack s5).
  { unfold s'. simpl. rewrite (reading_lookup s h c) by (rewrite ?Hq; eauto).
    unfold ReadPump_step, HandleMessage. fold (stamp s h frame now).
    destruct (stamp_fields s h frame now) as (-> & -> & _ & _ & -> & _).
    rewrite Hty. change (eqs TypeConnect TypeConnect) with true. cbv iota.
    fold n. rewrite Hreg. by rewrite (deref_lookup _ _ _ Hc). }
  assert (Hsess : sessions s' !! h = Some (SendAll replies (Client.setNickname n c))).
  { rewrite Hs', sessions_sendTo, decide_True, Hs5 by done. simpl.
    unfold replies. fold s2. fold list. fold welcome.
    change [welcome; ack] with ([welcome] ++ [ack]).
    by rewrite app_assoc, (SendAll_app _ [ack]). }
  split. { rewrite Hs'. simpl. rewrite Hcl. apply lookup_insert_eq. }
  split; [exact Hsess|].
  intros Hroom.
  assert (Hchan : Client.SendChan (SendAll replies (Client.setNickname n c))
                  = Some (q ++ replies)) by (by apply SendAll_room).
  split. { rewrite Hsess. simpl. by rewrite Hchan. }
  intros Hopen. rewrite sessions_writes, decide_True, Hsess by done. simpl.
  f_equal.
  destruct (WriteOne_fifo (SendAll replies (Client.setNickname n c)) (q ++ replies))
    as [Hw _]; [done| |].
  { by rewrite SendAll_ConnClosed. }
  by rewrite Hw, SendAll_ConnWritten.
Qed.

Lemma CONNECT_replies_witness :
  let s := run [Accept 0 "client_1" peer1] in
  let s' := exec s (Recv 0 (frame_CONNECT "alice") Second None) in
  Client.SendChan <$> sessions s' !! 0%nat
  = Some (Some [ UserListMessage ["alice:ACTIVE"];
                 NewTextMessage "Server" "alice" "Welcome to the chat, alice!" Second;
                 NewTextMessage "Server" "" "Connected successfully" Second ]).
Proof.
  intros s s'.
  assert (Hc : sessions s !! 0%nat = Some (deref s 0)) by (by vm_compute).
  assert (Hnew : ~ registered s 0).
  { assert (Hcl : clients s = ∅) by (by vm_compute).
    intros [n Hn]. by rewrite Hcl, lookup_empty in Hn. }
  destruct (CONNECT_replies s 0 (deref s 0) [] (frame_CONNECT "alice") Second None)
    as (_ & _ & Hroom); [done|by vm_compute|done|done|by vm_compute|by vm_compute|].
  destruct Hroom as [Hq _]; [vm_compute; lia|].
  unfold s'. rewrite Hq. by vm_compute.
Defined.

(** C5, the claim as written fails: the first message queued for the
    new session is the USER_LIST, and "Connected successfully" is the
    last of the three. *)
Lemma CONNECT_ack_comes_last :
  let s := run [Accept 0 "client_1" peer1; Recv 0 (frame_CONNECT "alice") Second None] in
  exists q, Client.SendChan <$> sessions s !! 0%nat = Some (Some q)
    /\ MType <$> q = [TypeUserList; TypeText; TypeText]
    /\ Content <$> q = [""; "Welcome to the chat, alice!"; "Connected successfully"].
Proof. eexists. by vm_compute. Qed.

(** ** The nickname registry *)

(** C1 (the code at the failing input): a session that has registered as
    alice sends a second CONNECT, for bobby.  [RegisterClient] does not
    look at the nickname the session already has: the registry then holds
    the same session under both nicknames, and when the session ends only
    the entry of its last nickname is removed, so alice stays in the
    registry, bound to a closed session. *)
Theorem second_CONNECT_registers_twice :
  let s := run [ Accept 0 "client_1" peer1;
                 Recv 0 (frame_CONNECT "alice") (1 * Second) None;
                 Recv 0 (frame_CONNECT "bobby") (2 * Second) None ] in
  let s_end := exec s (ReadEnd 0 (3 * Second)) in
  reachable s
  /\ clients s !! "alice" = Some 0%nat
  /\ clients s !! "bobby" = Some 0%nat
  /\ Client.Nickname <$> sessions s !! 0%nat = Some "bobby"
  /\ registrations s 0 = 2%nat
  /\ reachable s_end
  /\ clients s_end !! "alice" = Some 0%nat
  /\ clients s_end !! "bobby" = None
  /\ Client.SendChan <$> sessions s_end !! 0%nat = Some None
  /\ Client.ConnClosed <$> sessions s_end !! 0%nat = Some true.
Proof.
  intros s s_end.
  split; [by eexists|]. do 4 (split; [by vm_compute|]).
  split; [apply reachable_exec; by eexists|].
  repeat split; by vm_compute.
Qed.

(** ** Joining a room *)

Section Joining.

Implicit Types (c : Client.t) (msg : Message) (s : Server) (h : nat).

Lemma length_filter_zero {A} (P : A -> Prop) `{!forall x, Decision (P x)} (l : list A) :
  length (filter P l) = 0%nat <-> forall x, x ∈ l -> ~ P x.
Proof.
  induction l as [|x l IH].
  - split; [|done]. intros _ x Hx. by apply elem_of_nil in Hx.
  - rewrite filter_cons. destruct (decide (P x)) as [HP|HP]; simpl.
    + split; [done|]. intros Hall. exfalso. apply (Hall x); [left|done].
    + rewrite IH. split.
      * intros Hall y Hy. apply elem_of_cons in Hy as [->|Hy]; [done|by apply Hall].
      * intros Hall y Hy. apply Hall. by right.
Qed.

(** Whom a room broadcast of [msg] reaches: the registered session of a
    member, unless it is invisible and the member is not the sender of
    the message. *)
Lemma roomTarget_Some msg s member h c :
  sessions s !! h = Some c ->
  roomTarget msg s member = Some h
  <-> clients s !! member = Some h
      /\ (Client.Status c <> StatusInvisible \/ member = Sender msg).
Proof.
  intros Hc. unfold roomTarget, GetClient.
  destruct (clients s !! member) as [h0|] eqn:Hreg; [|by split; [|intros [? _]]].
  destruct (decide (h0 = h)) as [->|Hne].
  - rewrite (deref_lookup _ _ _ Hc).
    destruct (eqs (Client.Status c) StatusInvisible) eqn:Hst;
      destruct (eqs member (Sender msg)) eqn:Hme; simpl.
    + apply eqs_true in Hme. split; [by auto|done].
    + apply eqs_true in Hst. apply eqs_false in Hme.
      split; [done|]. intros [_ [?|?]]; done.
    + apply eqs_false in Hst. split; [by auto|done].
    + apply eqs_false in Hst. split; [by auto|done].
  - split; [by case_match; intros [=]|]. intros [[=] _]. done.
Qed.

End Joining.

(** C4 (the code's behaviour): a ROOM message with action JOIN that
    names an existing room of which the sender is not a member makes the
    sender a member whether or not the room has invited the sender
    (clearing a pending invitation if there is one), adds the room to the
    sender's room set, sends the "has joined the room" notice to the
    registered sessions of the room's members and then the "Joined room"
    reply to the sender; it is not a no-op.  The silent no-op is the JOIN
    of a sender who is a member already. *)
Theorem JOIN_adds_the_sender (s : Server) (h : nat) (c : Client.t) (msg : Message)
        (now : Z) (rnd : option string) (room : Room.t) :
  sessions s !! h = Some c ->
  Action msg = RoomJoin ->
  GetRoom s (Room msg) = Some room ->
  let nickname := Client.Nickname c in
  let joinMsg :=
    setRoom (Room msg)
      (NewTextMessage "Server" "" (nickname +:+ " has joined the room") now) in
  let reply :=
    RoomReply RoomJoin (Room.ID room) ("Joined room '" +:+ Room.Name room +:+ "'") in
  let s' := handleRoomMessage h msg now rnd s in
  (nickname ∉ Room.Members room ->
     rooms s' = <[Room msg := Room.AddMember nickname room]> (rooms s)
     /\ nickname ∈ Room.Members (Room.AddMember nickname room)
     /\ (exists k,
           sessions s' !! h
           = Some (SendAll (replicate k joinMsg ++ [reply])
                     (Client.AddRoom (Room.ID room) c))
           /\ (clients s !! nickname = Some h ->
               Client.Status c <> StatusInvisible -> (1 <= k)%nat))
     /\ (forall h' c', h' <> h -> sessions s !! h' = Some c' ->
           exists k,
             sessions s' !! h' = Some (SendAll (replicate k joinMsg) c')
             /\ (k = 0%nat <->
                 ~ exists member,
                     member ∈ Room.Members (Room.AddMember nickname room)
                     /\ clients s !! member = Some h'
                     /\ (Client.Status c' <> StatusInvisible \/ member = "Server"))))
  /\ (nickname ∈ Room.Members room -> s' = s).
Proof.
  intros Hc Hact Hroom nickname joinMsg reply s'.
  unfold s', handleRoomMessage. rewrite Hact, Hroom, (deref_lookup _ _ _ Hc).
  change (eqs RoomJoin RoomCreate) with false.
  change (eqs RoomJoin RoomJoin) with true. cbv iota zeta.
  fold nickname. unfold Room.IsMember. split.
  - intros Hnot. rewrite bool_decide_eq_false_2 by done. cbn [negb].
    fold joinMsg. fold reply.
    set (s1 := update h (Client.AddRoom (Room.ID room))
                 (updateRoom (Room msg) (Room.AddMember nickname) s)).
    assert (Hr1 : GetRoom s1 (Room msg) = Some (Room.AddMember nickname room)).
    { unfold s1, GetRoom. simpl. rewrite lookup_alter, decide_True by done.
      unfold GetRoom in Hroom. by rewrite Hroom. }
    destruct (BroadcastToRoom_spec _ _ joinMsg s1 Hr1) as (_ & Hrooms & _ & _ & Hs).
    split.
    { simpl. rewrite Hrooms. unfold s1. simpl.
      apply map_eq. intros i. rewrite lookup_alter, lookup_insert.
      unfold GetRoom in Hroom. case_decide; [subst i; by rewrite Hroom|done]. }
    split; [simpl; set_solver|].
    split.
    + eexists. split.
      * rewrite sessions_sendTo, decide_True, Hs by done.
        unfold s1 at 2. simpl. rewrite lookup_alter, decide_True, Hc by done. simpl.
        rewrite SendAll_app. reflexivity.
      * intros Hreg Hvis.
        assert (Hin : nickname ∈ filter (fun member => roomTarget joinMsg s1 member = Some h)
                               (Room.GetMembers (Room.AddMember nickname room))).
        { apply list_elem_of_filter. split.
          - unfold roomTarget, GetClient. simpl. rewrite Hreg.
            unfold deref. simpl. rewrite lookup_alter, decide_True, Hc by done. simpl.
            apply eqs_false in Hvis. by rewrite Hvis.
          - unfold Room.GetMembers. apply elem_of_elements. simpl. set_solver. }
        destruct (filter _ _); [by apply elem_of_nil in Hin|simpl; lia].
    + intros h' c' Hne Hc'.
      assert (Hc1 : sessions s1 !! h' = Some c').
      { unfold s1. simpl. by rewrite lookup_alter_ne. }
      eexists. split.
      { rewrite sessions_sendTo, decide_False, Hs, Hc1 by done. reflexivity. }
      rewrite length_filter_zero. split.
      * intros Hall (member & Hmem & Hreg & Hvis).
        apply (Hall member); [unfold Room.GetMembers; by apply elem_of_elements|].
        by apply (roomTarget_Some joinMsg s1 member h' c' Hc1).
      * intros Hnone member Hmem Htarget. apply Hnone. exists member.
        unfold Room.GetMembers in Hmem. apply elem_of_elements in Hmem.
        split; [done|].
        by apply (roomTarget_Some joinMsg s1 member h' c' Hc1) in Htarget.
  - intros Hmem. by rewrite bool_decide_eq_true_2.
Qed.

Lemma JOIN_adds_the_sender_witness :
  let s := run (alice_and_bobby
                ++ [Recv 0 (frame_ROOM RoomCreate "" "proj") (3 * Second) (Some "00ff")]) in
  let msg := stamp s 1 (frame_ROOM RoomJoin "room_3000000000_00ff" "") (4 * Second) in
  let s' := handleRoomMessage 1 msg (4 * Second) None s in
  Room.Members <$> rooms s' !! "room_3000000000_00ff"
  = Some ({[ "bobby" ]} ∪ {[ "alice" ]} : gset string).
Proof.
  intros s msg s'.
  pose (room := Room.mk "room_3000000000_00ff" "proj" "" "alice" {[ "alice" ]} ∅
                        (3 * Second)).
  assert (Hc : sessions s !! 1%nat = Some (deref s 1)) by decide_closed.
  assert (Hr : GetRoom s (Room msg) = Some room) by decide_closed.
  assert (Hn : Client.Nickname (deref s 1) ∉ Room.Members room) by decide_closed.
  destruct (JOIN_adds_the_sender s 1 _ msg (4 * Second) None room Hc eq_refl Hr)
    as [Hjoin _].
  destruct (Hjoin Hn) as (Hrooms & _).
  unfold s'. rewrite Hrooms, lookup_insert_eq. decide_closed.
Defined.

(** C4, the failing input: bobby, who is not a member of the room alice
    created and was never invited to it, sends JOIN: he becomes a member,
    the room enters his room set, and both he and alice are sent the
    notice. *)
Lemma JOIN_is_not_a_no_op :
  let s := run (alice_and_bobby
                ++ [Recv 0 (frame_ROOM RoomCreate "" "proj") (3 * Second) (Some "00ff")]) in
  let s' := exec s (Recv 1 (frame_ROOM RoomJoin "room_3000000000_00ff" "") (4 * Second) None) in
  let notice :=
    setRoom "room_3000000000_00ff"
      (NewTextMessage "Server" "" "bobby has joined the room" (4 * Second)) in
  (Room.IsMember "bobby" <$> rooms s !! "room_3000000000_00ff") = Some false
  /\ (Room.IsInvited "bobby" <$> rooms s !! "room_3000000000_00ff") = Some false
  /\ (Room.IsMember "bobby" <$> rooms s' !! "room_3000000000_00ff") = Some true
  /\ (Client.IsInRoom "room_3000000000_00ff" <$> sessions s !! 1%nat) = Some false
  /\ (Client.IsInRoom "room_3000000000_00ff" <$> sessions s' !! 1%nat) = Some true
  /\ (Client.SendChan <$> sessions s' !! 0%nat)
     = (option_map (fun q => q ++ [notice]) <$> (Client.SendChan <$> sessions s !! 0%nat))
  /\ (Client.SendChan <$> sessions s' !! 1%nat)
     = (option_map (fun q => q ++ [notice;
                                   RoomReply RoomJoin "room_3000000000_00ff"
                                     "Joined room 'proj'"])
        <$> (Client.SendChan <$> sessions s !! 1%nat)).
Proof. decide_closed. Qed.

(** ** File transfers *)

Section Transfers.

Implicit Types (c : Client.t) (msg : Message) (s : Server) (h : nat).

Lemma handleFileChunk_unknown h msg s :
  fileTransfers s !! FileID msg = None -> handleFileChunk h msg s = s.
Proof. intros Hft. unfold handleFileChunk. by rewrite Hft. Qed.

(** The chunk path never touches the rate limiter, the registry or the
    rooms. *)
Lemma handleFileChunk_frame h msg s :
  rateLimiter (handleFileChunk h msg s) = rateLimiter s
  /\ clients (handleFileChunk h msg s) = clients s
  /\ rooms (handleFileChunk h msg s) = rooms s.
Proof. unfold handleFileChunk. by repeat case_match. Qed.

(** The completing chunk, whichever session it is read from. *)
Lemma handleFileChunk_complete h msg s ft0 r :
  fileTransfers s !! FileID msg = Some ft0 ->
  GetClient s (FileTransfer.Recipient ft0) = Some r ->
  FileTransfer.IsComplete (FileTransfer.AddChunk (ChunkNum msg) (Data msg) ft0) = true ->
  let complete := FileCompleteMessage (FileID msg) (FileTransfer.Filename ft0) in
  fileTransfers (handleFileChunk h msg s) = delete (FileID msg) (fileTransfers s)
  /\ forall h',
      sessions (handleFileChunk h msg s) !! h'
      = SendAll ((if decide (r = h') then [msg; complete] else [])
                 ++ (if decide (h = h') then [complete] else []))
          <$> sessions s !! h'.
Proof.
  intros Hft Hr Hdone complete. unfold handleFileChunk. rewrite Hft.
  cbv zeta. unfold GetClient in *. simpl.
  change (FileTransfer.Recipient (FileTransfer.AddChunk (ChunkNum msg) (Data msg) ft0))
    with (FileTransfer.Recipient ft0).
  change (FileTransfer.Filename (FileTransfer.AddChunk (ChunkNum msg) (Data msg) ft0))
    with (FileTransfer.Filename ft0).
  fold complete. rewrite Hr, Hdone. simpl. split.
  { apply map_eq. intros i. rewrite !lookup_delete, lookup_insert.
    by case_decide. }
  intros h'. rewrite !lookup_alter.
  repeat case_decide; subst; try congruence;
    by destruct (sessions s !! _).
Qed.

End Transfers.

(** C2 (as the code has it): when a FILE_CHUNK for an in-flight transfer
    T is read from the session registered under T's sender while T's
    recipient is registered, and the recorded chunk set has reached
    TotalChunks, FILE_COMPLETE is sent to both endpoints (the recipient's
    session is sent the chunk and then FILE_COMPLETE, the sender's session
    is sent FILE_COMPLETE) and T is removed from the registry.  A chunk
    that does not bring the recorded set to TotalChunks keeps T, with the
    chunk recorded, and sends no FILE_COMPLETE; when the recipient is no
    longer registered nothing is sent at all and T stays in the
    registry. *)
Theorem FILE_CHUNK_completion (s : Server) (h : nat) (msg : Message)
        (ft0 : FileTransfer.t) :
  fileTransfers s !! FileID msg = Some ft0 ->
  let ft := FileTransfer.AddChunk (ChunkNum msg) (Data msg) ft0 in
  let complete := FileCompleteMessage (FileID msg) (FileTransfer.Filename ft0) in
  let s' := handleFileChunk h msg s in
  (forall r, GetClient s (FileTransfer.Sender ft0) = Some h ->
     GetClient s (FileTransfer.Recipient ft0) = Some r ->
     FileTransfer.IsComplete ft = true ->
     fileTransfers s' = delete (FileID msg) (fileTransfers s)
     /\ forall h',
         sessions s' !! h'
         = SendAll ((if decide (r = h') then [msg; complete] else [])
                    ++ (if decide (h = h') then [complete] else []))
             <$> sessions s !! h')
  /\ (forall r, GetClient s (FileTransfer.Recipient ft0) = Some r ->
        FileTransfer.IsComplete ft = false ->
        fileTransfers s' = <[FileID msg := ft]> (fileTransfers s)
        /\ forall h',
            sessions s' !! h'
            = SendAll (if decide (r = h') then [msg] else []) <$> sessions s !! h')
  /\ (GetClient s (FileTransfer.Recipient ft0) = None ->
        fileTransfers s' = <[FileID msg := ft]> (fileTransfers s)
        /\ sessions s' = sessions s).
Proof.
  intros Hft ft complete s'. unfold s', handleFileChunk. rewrite Hft.
  cbv zeta. fold ft. unfold GetClient. simpl.
  change (FileTransfer.Recipient ft) with (FileTransfer.Recipient ft0).
  change (FileTransfer.Filename ft) with (FileTransfer.Filename ft0).
  fold complete.
  split; [|split].
  - intros r _ Hr Hdone. rewrite Hr, Hdone. simpl. split.
    { apply map_eq. intros i. rewrite !lookup_delete, lookup_insert.
      by case_decide. }
    intros h'. rewrite !lookup_alter.
    repeat case_decide; subst; try congruence;
      by destruct (sessions s !! _).
  - intros r Hr Hnot. rewrite Hr, Hnot. simpl. split; [done|].
    intros h'. rewrite lookup_alter.
    repeat case_decide; subst; try congruence;
      by destruct (sessions s !! _).
  - intros Hr. rewrite Hr. simpl. done.
Qed.

Lemma FILE_CHUNK_completion_witness :
  let s := run (alice_and_bobby
                ++ [Recv 0 (frame_FILE "bobby" "f1" "a.bin" 8192 1) (3 * Second) None]) in
  let chunk := stamp s 0 (frame_FILE_CHUNK "f1" 0 []) (4 * Second) in
  let s' := handleFileChunk 0 chunk s in
  fileTransfers s' = delete "f1" (fileTransfers s)
  /\ sessions s' !! 1%nat
     = SendAll [chunk; FileCompleteMessage "f1" "a.bin"] <$> sessions s !! 1%nat
  /\ sessions s' !! 0%nat
     = SendAll [FileCompleteMessage "f1" "a.bin"] <$> sessions s !! 0%nat.
Proof.
  intros s chunk s'.
  pose (ft0 := FileTransfer.mk "f1" "a.bin" 8192 "alice" "bobby" 1 ∅ (3 * Second)).
  assert (Hft : fileTransfers s !! FileID chunk = Some ft0) by decide_closed.
  destruct (FILE_CHUNK_completion s 0 chunk ft0 Hft) as (Hdone & _ & _).
  destruct (Hdone 1%nat) as [Hdel Hs]; [decide_closed|decide_closed|decide_closed|].
  unfold s'. split; [exact Hdel|].
  split; [rewrite (Hs 1%nat)|rewrite (Hs 0%nat)]; decide_closed.
Defined.

(** C2, the claim as written fails: bobby, the recipient, has left when
    alice's only chunk arrives.  The recorded chunk set reaches
    TotalChunks, yet no FILE_COMPLETE is sent to anyone and the transfer
    stays in the registry. *)
Lemma FILE_CHUNK_recipient_gone :
  let s := run (alice_and_bobby
                ++ [Recv 0 (frame_FILE "bobby" "f1" "a.bin" 8192 1) (3 * Second) None;
                    ReadEnd 1 (4 * Second)]) in
  let s' := exec s (Recv 0 (frame_FILE_CHUNK "f1" 0 []) (5 * Second) None) in
  (FileTransfer.IsComplete <$> fileTransfers s !! "f1") = Some false
  /\ (FileTransfer.IsComplete <$> fileTransfers s' !! "f1") = Some true
  /\ sessions s' = sessions s.
Proof. decide_closed. Qed.

(** C6 (the code at the failing input): alice starts a transfer of one
    chunk to bobby and sends the chunk.  The transfer completes and is
    removed, but alice's transfer counter stays at one: the completion
    path of [handleFileChunk] never calls [RemoveFileTransfer].  After
    three completed transfers her fourth FILE is refused although no
    transfer is in flight.  The timeout cleanup does decrement. *)
Theorem completed_transfer_keeps_counter :
  let transfer (id : string) (t : Z) :=
    [ Recv 0 (frame_FILE "bobby" id "a.bin" 8192 1) t None;
      Recv 0 (frame_FILE_CHUNK id 0 []) (t + 1) None ] in
  let s0 := run (alice_and_bobby
                 ++ [Recv 0 (frame_FILE "bobby" "f1" "a.bin" 8192 1) (3 * Second) None]) in
  let s1 := exec s0 (Recv 0 (frame_FILE_CHUNK "f1" 0 []) (4 * Second) None) in
  let s3 := run (alice_and_bobby ++ transfer "f1" (3 * Second)
                 ++ transfer "f2" (4 * Second) ++ transfer "f3" (5 * Second)) in
  let s4 := exec s3 (Recv 0 (frame_FILE "bobby" "f4" "a.bin" 8192 1) (6 * Second) None) in
  let stale := exec s0 (CleanupTick (3 * Second + FileTransferTimeout + 1)) in
  (forall h msg s, rateLimiter (handleFileChunk h msg s) = rateLimiter s)
  /\ count (transfersPerUser (rateLimiter s0)) "alice" = 1
  /\ (FileTransfer.Sender <$> fileTransfers s0 !! "f1") = Some "alice"
  /\ fileTransfers s1 = ∅
  /\ count (transfersPerUser (rateLimiter s1)) "alice" = 1
  /\ fileTransfers s3 = ∅
  /\ count (transfersPerUser (rateLimiter s3)) "alice" = 3
  /\ fileTransfers s4 = ∅
  /\ (Client.SendChan <$> sessions s4 !! 0%nat)
     = (option_map
          (fun q => q ++ [NewErrorMessage "Server" "alice"
                            "file transfer limit exceeded (3 concurrent transfers per user)"
                            (6 * Second)])
        <$> (Client.SendChan <$> sessions s3 !! 0%nat))
  /\ fileTransfers stale = ∅
  /\ count (transfersPerUser (rateLimiter stale)) "alice" = 0.
Proof.
  cbv zeta. split; [intros h msg s; apply handleFileChunk_frame|].
  split_ands; decide_closed.
Qed.

(** ** Admission counters *)

Section Admission.

Implicit Types (c : Client.t) (msg : Message) (s : Server) (h : nat).

Lemma unregister_loop_sends n now (l : list Room.t) s :
  let s' := foldl (unregisterRoom n now) s l in
  clients s' = clients s /\ fileTransfers s' = fileTransfers s
  /\ rateLimiter s' = rateLimiter s
  /\ forall h, exists msgs, sessions s' !! h = SendAll msgs <$> sessions s !! h.
Proof.
  revert s. induction l as [|room l IH]; intros s; simpl.
  { repeat split; try done. intros h. exists []. by destruct (sessions s !! h). }
  destruct (IH (unregisterRoom n now s room)) as (Hc & Hf & Hl & Hs).
  unfold unregisterRoom in *.
  set (leaveMsg := setRoom _ _) in *.
  set (s1 := updateRoom _ _ s) in *.
  destruct (BroadcastToRoom_sends (Room.ID room) leaveMsg s1) as (Hc1 & _ & Hf1 & Hl1 & Hs1).
  rewrite Hc, Hf, Hl, Hc1, Hf1, Hl1. repeat split; try done.
  intros h. destruct (Hs h) as [l2 ->]. destruct (Hs1 h) as [l1 ->].
  exists (l1 ++ l2). unfold s1. simpl.
  destruct (sessions s !! h); simpl; [|done]. by rewrite SendAll_app.
Qed.

(** What the unregister path does to the limiter. *)
Lemma UnregisterClient_rateLimiter s h c now :
  sessions s !! h = Some c ->
  rateLimiter (UnregisterClient h now s)
  = if eqs (Client.Nickname c) "" then rateLimiter s
    else
      let rl := RemoveUser (Client.Nickname c) (rateLimiter s) in
      match Client.RemoteAddr c with
      | Some addr => RemoveConnection addr rl
      | None => rl
      end.
Proof.
  intros Hc. unfold UnregisterClient. rewrite (deref_lookup _ _ _ Hc).
  destruct (eqs (Client.Nickname c) "") eqn:Hn; [done|]. cbv zeta.
  set (s1 := setClients _ s).
  set (disc := NewBroadcastMessage _ _ _).
  destruct (unregister_loop_sends (Client.Nickname c) now
              (GetUserRooms s1 (Client.Nickname c)) s1) as (_ & _ & Hl2 & Hs2).
  set (s2 := foldl _ s1 _) in *.
  destruct (BroadcastMessage_spec disc "" s2) as (_ & _ & _ & Hl3 & Hs3).
  set (s3 := BroadcastMessage disc "" s2) in *.
  destruct (BroadcastMessage_spec (UserListMessage (userList s3)) "" s3)
    as (_ & _ & _ & Hl4 & Hs4).
  fold (BroadcastUserList s3) in Hl4, Hs4.
  set (s4 := BroadcastUserList s3) in *.
  assert (Haddr : Client.RemoteAddr (deref (setRateLimiter
                     (RemoveUser (Client.Nickname c) (rateLimiter s4)) s4) h)
                  = Client.RemoteAddr c).
  { unfold deref. simpl. rewrite Hs4, Hs3. destruct (Hs2 h) as [l2 ->].
    unfold s1. simpl. rewrite Hc. simpl. by rewrite !SendAll_RemoteAddr. }
  rewrite Haddr.
  assert (Hrl : rateLimiter s4 = rateLimiter s) by (by rewrite Hl4, Hl3, Hl2).
  destruct (Client.RemoteAddr c); simpl; by rewrite Hrl.
Qed.

Lemma reading_closed s h : reading (update h Client.Close s) h = false.
Proof.
  unfold reading. simpl. rewrite lookup_alter, decide_True by done.
  by destruct (sessions s !! h).
Qed.

End Admission.

(** C9: accepting a connection adds one to the total and to the per-IP
    counter of the limiter.  When the read loop of a session ends while
    its nickname is still empty, the unregister path returns at once: the
    limiter is left as it is, the session is closed, and no later event of
    that session does anything, so its connection is never given back.
    When the nickname is set, the total is decremented (if positive) and so
    is the counter of the session's IP.  So a connection that never
    registered stays counted after it has gone. *)
Theorem admission_counters_leak :
  (forall s h id addr,
     sessions s !! h = None -> CanConnect (rateLimiter s) addr = None ->
     let rl := rateLimiter s in
     let rl' := rateLimiter (exec s (Accept h id addr)) in
     totalConnections rl' = totalConnections rl + 1
     /\ count (connectionsByIP rl') (IP addr) = count (connectionsByIP rl) (IP addr) + 1)
  /\ (forall s h c now,
        sessions s !! h = Some c -> is_Some (Client.SendChan c) ->
        Client.Nickname c = "" ->
        let s' := exec s (ReadEnd h now) in
        s' = update h Client.Close s
        /\ rateLimiter s' = rateLimiter s
        /\ (forall frame now' rnd, exec s' (Recv h frame now' rnd) = s')
        /\ (forall now', exec s' (ReadEnd h now') = s'))
  /\ (forall s h c addr now,
        sessions s !! h = Some c -> is_Some (Client.SendChan c) ->
        Client.Nickname c <> "" -> Client.RemoteAddr c = Some addr ->
        let rl := rateLimiter s in
        let rl' := rateLimiter (exec s (ReadEnd h now)) in
        totalConnections rl'
        = (if totalConnections rl >? 0 then totalConnections rl - 1 else totalConnections rl)
        /\ connectionsByIP rl' = decrement (connectionsByIP rl) (IP addr))
  /\ (let s := run [ Accept 0 "client_1" peer1;
                     Recv 0 (frame_CONNECT "al") (1 * Second) None;
                     ReadEnd 0 (2 * Second) ] in
      reading s 0 = false
      /\ totalConnections (rateLimiter s) = 1
      /\ count (connectionsByIP (rateLimiter s)) (IP peer1) = 1)
  /\ (let s := run [ Accept 0 "client_1" peer1;
                     Recv 0 (frame_CONNECT "alice") (1 * Second) None;
                     ReadEnd 0 (2 * Second) ] in
      reading s 0 = false
      /\ totalConnections (rateLimiter s) = 0
      /\ count (connectionsByIP (rateLimiter s)) (IP peer1) = 0).
Proof.
  split; [|split; [|split; [|split]]].
  - intros s h id addr Hfresh Hok. simpl. rewrite Hfresh, Hok. simpl.
    split; [done|]. unfold count at 1. by rewrite lookup_insert_eq.
  - intros s h c now Hc Hq Hn. cbv zeta. simpl.
    rewrite (reading_lookup s h c Hc Hq).
    assert (Hs' : ReadPump_exit h now s = update h Client.Close s).
    { unfold ReadPump_exit, UnregisterClient.
      rewrite (deref_lookup _ _ _ Hc), Hn. done. }
    rewrite Hs'. split; [done|]. split; [done|].
    split; intros; simpl; by rewrite reading_closed.
  - intros s h c addr now Hc Hq Hn Haddr. cbv zeta. simpl.
    rewrite (reading_lookup s h c Hc Hq). unfold ReadPump_exit. simpl.
    rewrite (UnregisterClient_rateLimiter s h c now Hc).
    apply eqs_false in Hn. rewrite Hn, Haddr. done.
  - decide_closed.
  - decide_closed.
Qed.

Lemma admission_counters_leak_witness :
  let s := run [Accept 0 "client_1" peer1] in
  let s' := exec s (ReadEnd 0 Second) in
  totalConnections (rateLimiter s) = 1
  /\ rateLimiter s' = rateLimiter s
  /\ reading s' 0 = false.
Proof.
  intros s s'. split; [decide_closed|].
  destruct admission_counters_leak as (_ & Hleak & _).
  destruct (Hleak s 0%nat (deref s 0) Second) as (Hs' & Hrl & _);
    [decide_closed|decide_closed|decide_closed|].
  split; [exact Hrl|]. unfold s'. rewrite Hs'. apply reading_closed.
Defined.

(** ** TEXT frames *)

Section Text.

Implicit Types (c : Client.t) (msg : Message) (s : Server) (h : nat).

Lemma exec_Recv_TEXT s h c frame now rnd :
  sessions s !! h = Some c -> is_Some (Client.SendChan c) ->
  MType frame = TypeText ->
  exec s (Recv h frame now rnd) = handleText h (stamp s h frame now) now s.
Proof.
  intros Hc Hq Hty. simpl. rewrite (reading_lookup s h c Hc Hq).
  unfold ReadPump_step, HandleMessage. fold (stamp s h frame now).
  destruct (stamp_fields s h frame now) as (-> & _). by rewrite Hty.
Qed.

Lemma registrations_setRateLimiter rl s h :
  registrations (setRateLimiter rl s) h = registrations s h.
Proof. reflexivity. Qed.

Implicit Types (rl : RateLimiter) (nickname : string).

Lemma CanSendMessage_fresh nickname t rl :
  messageRates rl !! nickname = None ->
  messageRates (CanSendMessage nickname t rl).1 !! nickname = Some (mkRate 1 t)
  /\ (CanSendMessage nickname t rl).2 = None.
Proof.
  intros Hnone. unfold CanSendMessage. rewrite Hnone. simpl.
  rewrite Z.sub_diag. simpl. by rewrite lookup_insert_eq.
Qed.

Lemma CanSendMessage_reset nickname t rl u :
  messageRates rl !! nickname = Some u -> Second <= t - lastReset u ->
  messageRates (CanSendMessage nickname t rl).1 !! nickname = Some (mkRate 1 t)
  /\ (CanSendMessage nickname t rl).2 = None.
Proof.
  intros Hu Hold. unfold CanSendMessage. rewrite Hu.
  destruct (Z.geb_spec (t - lastReset u) Second); [|lia]. simpl.
  by rewrite lookup_insert_eq.
Qed.

Lemma CanSendMessage_counted nickname t rl u :
  messageRates rl !! nickname = Some u -> t - lastReset u < Second ->
  messages u < MessagesPerSecond ->
  messageRates (CanSendMessage nickname t rl).1 !! nickname
  = Some (mkRate (messages u + 1) (lastReset u))
  /\ (CanSendMessage nickname t rl).2 = None.
Proof.
  intros Hu Hnew Hm. unfold CanSendMessage. rewrite Hu.
  destruct (Z.geb_spec (t - lastReset u) Second); [lia|].
  destruct (Z.geb_spec (messages u) MessagesPerSecond); [lia|]. simpl.
  by rewrite lookup_insert_eq.
Qed.

Lemma CanSendMessage_refused nickname t rl u :
  messageRates rl !! nickname = Some u -> t - lastReset u < Second ->
  MessagesPerSecond <= messages u ->
  CanSendMessage nickname t rl
  = (rl, Some "message rate limit exceeded (10 messages per second)").
Proof.
  intros Hu Hnew Hm. unfold CanSendMessage. rewrite Hu.
  destruct (Z.geb_spec (t - lastReset u) Second); [lia|].
  destruct (Z.geb_spec (messages u) MessagesPerSecond); [|lia].
  rewrite insert_id by done. by destruct rl.
Qed.

End Text.

(** C10 (as the code has it): the dispatcher does not require CONNECT
    first.  A TEXT frame with recipient [""] or ["*"] read from a session
    whose nickname is still empty is stamped with the empty sender and
    rate-limited under the empty nickname: when the counter of [""] holds
    10 messages and was reset less than a second ago the frame is refused
    (the session is sent the rate-limit ERROR, nothing else changes);
    otherwise the frame is counted (the counter goes up by one, or starts
    again at one when it is new or a second old) and validated, and a
    valid frame is handed to [BroadcastMessage]: every registered session
    that is not INVISIBLE is sent the frame with the empty [Sender], a
    registered session that is INVISIBLE is sent nothing, and the
    unregistered sender itself gets nothing. *)
Theorem TEXT_before_CONNECT (s : Server) (h : nat) (c : Client.t) (frame : Message)
        (now : Z) (rnd : option string) :
  reachable s ->
  sessions s !! h = Some c -> is_Some (Client.SendChan c) ->
  Client.Nickname c = "" ->
  MType frame = TypeText ->
  Recipient frame = "*" \/ Recipient frame = "" ->
  let msg := stamp s h frame now in
  let s' := exec s (Recv h frame now rnd) in
  let entry := messageRates (rateLimiter s) !! "" in
  let refusal := "message rate limit exceeded (10 messages per second)" in
  let handled (counter : userRateLimit) :=
    messageRates (rateLimiter s') !! "" = Some counter
    /\ clients s' = clients s
    /\ match ValidateMessage (Content frame) with
       | Some e => sessions s' = sessions (sendError h "" e now s)
       | None =>
           sessions s' !! h = Some c
           /\ forall h' c',
               registered s h' -> sessions s !! h' = Some c' ->
               (1 <= registrations s h')%nat
               /\ sessions s' !! h'
                  = Some (if eqs (Client.Status c') StatusInvisible then c'
                          else SendAll (replicate (registrations s h') msg) c')
       end in
  Sender msg = "" /\ MType msg = TypeText /\ Content msg = Content frame
  /\ (forall u, entry = Some u -> now - lastReset u < Second -> 10 <= messages u ->
        s' = sendError h "" refusal now s)
  /\ (forall u, entry = Some u -> now - lastReset u < Second -> messages u < 10 ->
        handled (mkRate (messages u + 1) (lastReset u)))
  /\ (entry = None \/ (exists u, entry = Some u /\ Second <= now - lastReset u) ->
        handled (mkRate 1 now)).
Proof.
  intros Hreach Hc Hq Hn Hty Hrec msg s' entry refusal handled.
  destruct (stamp_fields s h frame now) as (Hmty & Hcont & Hrcp & _ & Hsnd & _).
  rewrite (deref_lookup _ _ _ Hc), Hn in Hsnd.
  fold msg in Hmty, Hcont, Hrcp, Hsnd.
  split; [done|]. split; [congruence|]. split; [done|].
  assert (Hs' : s' = handleText h msg now s).
  { unfold s'. by rewrite (exec_Recv_TEXT s h c frame now rnd Hc Hq Hty). }
  unfold handleText in Hs'. rewrite (deref_lookup _ _ _ Hc), Hn, Hsnd, Hcont in Hs'.
  assert (Hhandled : forall counter,
             (CanSendMessage "" now (rateLimiter s)).2 = None ->
             messageRates (CanSendMessage "" now (rateLimiter s)).1 !! "" = Some counter ->
             handled counter).
  { intros counter Hok Hentry. unfold handled.
    destruct (CanSendMessage "" now (rateLimiter s)) as [rl e]. simpl in Hok, Hentry.
    subst e.
    destruct (ValidateMessage (Content frame)) as [e|].
    { rewrite Hs'. done. }
    assert (Hbc : eqs (Recipient msg) "*" || eqs (Recipient msg) "" = true).
    { rewrite Hrcp. destruct Hrec as [-> | ->]; reflexivity. }
    rewrite Hbc in Hs'.
    destruct (BroadcastMessage_spec msg "" (setRateLimiter rl s))
      as (Hcl & _ & _ & Hrl & Hs).
    rewrite <- Hs' in Hcl, Hrl, Hs.
    assert (Hderef : forall k, deref (setRateLimiter rl s) k = deref s k) by done.
    assert (Hsess : sessions (setRateLimiter rl s) = sessions s) by done.
    split; [by rewrite Hrl|]. split; [by rewrite Hcl|]. split.
    - rewrite Hs, Hderef, Hsess, Hc, (deref_lookup _ _ _ Hc). simpl.
      unfold receives. rewrite Hn. done.
    - intros h' c' Hreg Hc'. split; [by apply registrations_pos|].
      rewrite Hs, Hderef, Hsess, Hc', (deref_lookup _ _ _ Hc'). simpl.
      rewrite registrations_setRateLimiter.
      assert (Hne : Client.Nickname c' <> "").
      { destruct Hreg as [n Hl].
        destruct (reachable_registry_valid s Hreach n h' Hl) as (c2 & Hc2 & Hne).
        congruence. }
      unfold receives. rewrite Hsnd.
      assert (H1 : eqs (Client.Nickname c') "" = false) by (by apply eqs_false).
      assert (H2 : eqs "" (Client.Nickname c') = false) by (by apply eqs_false).
      rewrite H1, H2. simpl. rewrite andb_true_r.
      by destruct (eqs (Client.Status c') StatusInvisible). }
  split; [|split].
  - intros u Hu Hnew Hfull. rewrite Hs'.
    rewrite (CanSendMessage_refused "" now _ u Hu Hnew Hfull).
    unfold sendError. by destruct s.
  - intros u Hu Hnew Hlt.
    destruct (CanSendMessage_counted "" now _ u Hu Hnew Hlt) as [Hentry Hok].
    by apply Hhandled.
  - intros [Hnone|(u & Hu & Hold)].
    + destruct (CanSendMessage_fresh "" now _ Hnone) as [Hentry Hok].
      by apply Hhandled.
    + destruct (CanSendMessage_reset "" now _ u Hu Hold) as [Hentry Hok].
      by apply Hhandled.
Qed.

(** An unregistered session next to the registered alice: its first
    TEXT frame reaches alice with the empty sender; after ten TEXT
    frames within one second the eleventh is refused. *)
Lemma TEXT_before_CONNECT_witness :
  let start := [ Accept 0 "client_1" peer1; Accept 1 "client_2" peer2;
                 Recv 0 (frame_CONNECT "alice") (1 * Second) None ] in
  let frame := frame_TEXT "*" "" "hi" in
  let s0 := run start in
  let s := run (start ++ replicate 10 (Recv 1 frame (2 * Second) None)) in
  sessions (exec s0 (Recv 1 frame (2 * Second) None)) !! 0%nat
  = Some (SendAll [stamp s0 1 frame (2 * Second)] (deref s0 0))
  /\ exec s (Recv 1 frame (2 * Second + 5) None)
     = sendError 1 "" "message rate limit exceeded (10 messages per second)"
         (2 * Second + 5) s.
Proof.
  intros start frame s0 s. split.
  - assert (Hreach : reachable s0) by (by eexists).
    destruct (TEXT_before_CONNECT s0 1 (deref s0 1) frame (2 * Second) None Hreach)
      as (_ & _ & _ & _ & _ & Hfresh);
      [decide_closed|decide_closed|decide_closed|decide_closed|by left|].
    destruct Hfresh as (_ & _ & Hsent); [left; decide_closed|].
    change (ValidateMessage (Content frame)) with (@None string) in Hsent.
    destruct Hsent as [_ Hsent].
    destruct (Hsent 0%nat (deref s0 0)) as [_ Halice];
      [exists "alice"; decide_closed|decide_closed|].
    rewrite Halice. decide_closed.
  - assert (Hreach : reachable s) by (by eexists).
    destruct (TEXT_before_CONNECT s 1 (deref s 1) frame (2 * Second + 5) None Hreach)
      as (_ & _ & _ & Hrefused & _);
      [decide_closed|decide_closed|decide_closed|decide_closed|by left|].
    apply (Hrefused (mkRate 10 (2 * Second))); [decide_closed|done|done].
Defined.

(** C10, the claim as written fails: alice is registered and has set her
    status to INVISIBLE when the unregistered session 1 sends a TEXT to
    ["*"].  The frame passes the limiter and the validation, yet alice's
    session is sent nothing: the broadcast skips her. *)
Lemma TEXT_before_CONNECT_skips_invisible :
  let s := run [ Accept 0 "client_1" peer1; Accept 1 "client_2" peer2;
                 Recv 0 (frame_CONNECT "alice") (1 * Second) None;
                 Recv 0 (frame_STATUS StatusInvisible) (2 * Second) None ] in
  let s' := exec s (Recv 1 (frame_TEXT "*" "" "hi") (3 * Second) None) in
  clients s !! "alice" = Some 0%nat
  /\ (Client.Status <$> sessions s !! 0%nat) = Some StatusInvisible
  /\ (CanSendMessage "" (3 * Second) (rateLimiter s)).2 = None
  /\ ValidateMessage "hi" = None
  /\ messageRates (rateLimiter s') !! "" = Some (mkRate 1 (3 * Second))
  /\ sessions s' !! 0%nat = sessions s !! 0%nat.
Proof. decide_closed. Qed.

(** ** Steps that leave the message counters alone *)

Create HintDb rates.

Section Rates.

Implicit Types (c : Client.t) (msg : Message) (s : Server) (h : nat).

Lemma rates_kept_refl s : rates_kept s s.
Proof. done. Qed.

Lemma rates_kept_trans s1 s2 s3 : rates_kept s1 s2 -> rates_kept s2 s3 -> rates_kept s1 s3.
Proof. unfold rates_kept. congruence. Qed.

Lemma rates_kept_update s0 s h f : rates_kept s0 s -> rates_kept s0 (update h f s).
Proof. done. Qed.

Lemma rates_kept_sendTo s0 s h msg : rates_kept s0 s -> rates_kept s0 (sendTo h msg s).
Proof. done. Qed.

Lemma rates_kept_sendError s0 s h r e now :
  rates_kept s0 s -> rates_kept s0 (sendError h r e now s).
Proof. done. Qed.

Lemma rates_kept_setRooms s0 s x : rates_kept s0 s -> rates_kept s0 (setRooms x s).
Proof. done. Qed.

Lemma rates_kept_updateRoom s0 s r f : rates_kept s0 s -> rates_kept s0 (updateRoom r f s).
Proof. done. Qed.

Lemma rates_kept_setClients s0 s x : rates_kept s0 s -> rates_kept s0 (setClients x s).
Proof. done. Qed.

Lemma rates_kept_setFileTransfers s0 s x :
  rates_kept s0 s -> rates_kept s0 (setFileTransfers x s).
Proof. done. Qed.

Lemma rates_kept_setRateLimiter s0 s rl :
  messageRates rl = messageRates (rateLimiter s) ->
  rates_kept s0 s -> rates_kept s0 (setRateLimiter rl s).
Proof. unfold rates_kept. simpl. congruence. Qed.

Lemma rates_kept_foldl {A} (f : Server -> A -> Server) (l : list A) s0 s :
  (forall s x, rates_kept s (f s x)) -> rates_kept s0 s -> rates_kept s0 (foldl f s l).
Proof.
  intros Hf. revert s. induction l as [|x l IH]; intros s Hk; simpl; [done|].
  apply IH. eapply rates_kept_trans; [exact Hk|apply Hf].
Qed.

Lemma rates_kept_BroadcastMessage s0 s msg exclude :
  rates_kept s0 s -> rates_kept s0 (BroadcastMessage msg exclude s).
Proof.
  intros Hk. destruct (BroadcastMessage_spec msg exclude s) as (_ & _ & _ & Hl & _).
  unfold rates_kept. by rewrite Hl.
Qed.

Lemma rates_kept_BroadcastUserList s0 s :
  rates_kept s0 s -> rates_kept s0 (BroadcastUserList s).
Proof. apply rates_kept_BroadcastMessage. Qed.

Lemma rates_kept_BroadcastToRoom s0 s r msg :
  rates_kept s0 s -> rates_kept s0 (BroadcastToRoom r msg s).
Proof.
  intros Hk. destruct (BroadcastToRoom_sends r msg s) as (_ & _ & _ & Hl & _).
  unfold rates_kept. by rewrite Hl.
Qed.

Lemma rates_kept_deleteOne room r s x : rates_kept s (deleteOne room r s x).
Proof. unfold deleteOne. by destruct (GetClient s x). Qed.

Lemma rates_kept_unregisterRoom n now s room : rates_kept s (unregisterRoom n now s room).
Proof.
  unfold unregisterRoom. apply rates_kept_BroadcastToRoom, rates_kept_updateRoom.
  apply rates_kept_refl.
Qed.

#[local] Hint Resolve rates_kept_refl rates_kept_sendTo rates_kept_sendError
  rates_kept_setRooms rates_kept_updateRoom rates_kept_setClients
  rates_kept_setFileTransfers rates_kept_update
  rates_kept_BroadcastMessage rates_kept_BroadcastUserList rates_kept_BroadcastToRoom
  : rates.

#[local] Hint Extern 1 (rates_kept _ (setRateLimiter _ _)) =>
  (apply rates_kept_setRateLimiter; [reflexivity|]) : rates.

#[local] Hint Extern 1 (rates_kept _ (foldl (deleteOne _ _) _ _)) =>
  (apply rates_kept_foldl; [intros; apply rates_kept_deleteOne|]) : rates.

Ltac rates_cases := cbv zeta; repeat case_match; eauto 12 with rates.

Lemma rates_kept_handleStatus h msg now s : rates_kept s (handleStatus h msg now s).
Proof. unfold handleStatus. rates_cases. Qed.

Lemma rates_kept_handleRoomMessage h msg now rnd s :
  rates_kept s (handleRoomMessage h msg now rnd s).
Proof. unfold handleRoomMessage. rates_cases. Qed.

Lemma rates_kept_handleInviteMessage h msg now s :
  rates_kept s (handleInviteMessage h msg now s).
Proof. unfold handleInviteMessage. rates_cases. Qed.

Lemma rates_kept_handleInviteResponse h msg now s :
  rates_kept s (handleInviteResponse h msg now s).
Proof. unfold handleInviteResponse. rates_cases. Qed.

Lemma rates_kept_handleFileTransferInit h msg now s :
  rates_kept s (handleFileTransferInit h msg now s).
Proof. unfold handleFileTransferInit. rates_cases. Qed.

Lemma rates_kept_handleFileChunk h msg s : rates_kept s (handleFileChunk h msg s).
Proof. unfold handleFileChunk. rates_cases. Qed.

Lemma rates_kept_RegisterClient h n now s : rates_kept s (RegisterClient h n now s).1.
Proof. unfold RegisterClient. rates_cases; simpl; eauto 12 with rates. Qed.

Lemma rates_kept_cleanupOne now acc e : rates_kept acc.1 (cleanupOne now acc e).1.
Proof.
  destruct acc as [s l]. unfold cleanupOne. simpl.
  case_match; simpl; [|apply rates_kept_refl].
  apply rates_kept_setRateLimiter.
  - unfold sendError, sendTo, update, GetClient. simpl. by repeat case_match.
  - repeat case_match;
      repeat first [apply rates_kept_sendError | apply rates_kept_refl].
Qed.

Lemma rates_kept_cleanupFileTransfers now s : rates_kept s (cleanupFileTransfers now s).
Proof.
  unfold cleanupFileTransfers.
  assert (Hk : forall l acc, rates_kept acc.1 (foldl (cleanupOne now) acc l).1).
  { induction l as [|e l IH]; intros acc; simpl; [apply rates_kept_refl|].
    eapply rates_kept_trans; [apply rates_kept_cleanupOne|apply IH]. }
  specialize (Hk (map_to_list (fileTransfers s)) (s, [])).
  destruct (foldl (cleanupOne now) (s, []) (map_to_list (fileTransfers s))) as [s1 l1].
  simpl in Hk. apply rates_kept_foldl; [|done].
  intros s2 x. apply rates_kept_setFileTransfers, rates_kept_refl.
Qed.

Lemma rates_kept_cleanupEmptyRooms now s : rates_kept s (cleanupEmptyRooms now s).
Proof.
  unfold cleanupEmptyRooms. apply rates_kept_foldl; [|apply rates_kept_refl].
  intros s2 x. apply rates_kept_setRooms, rates_kept_refl.
Qed.

(** The TEXT path leaves the counters as [CanSendMessage] left them. *)
Lemma handleText_rates h msg now s :
  messageRates (rateLimiter (handleText h msg now s))
  = messageRates
      (CanSendMessage (Client.Nickname (deref s h)) now (rateLimiter s)).1.
Proof.
  unfold handleText.
  destruct (CanSendMessage (Client.Nickname (deref s h)) now (rateLimiter s)) as [rl e].
  simpl.
  assert (Hk : forall s', rates_kept (setRateLimiter rl s) s' ->
                 messageRates (rateLimiter s') = messageRates rl) by (by intros s' ->).
  destruct e; [done|]. cbv zeta. apply Hk. rates_cases.
Qed.

(** Every frame but a TEXT leaves the counters alone. *)
Lemma rates_kept_HandleMessage h msg now rnd s :
  eqs (MType msg) TypeText = false -> rates_kept s (HandleMessage h msg now rnd s).1.
Proof.
  intros Hty. unfold HandleMessage. rewrite Hty.
  destruct (eqs (MType msg) TypeConnect).
  { pose proof (rates_kept_RegisterClient h (Content msg) now s) as Hr.
    destruct (RegisterClient h (Content msg) now s) as [s1 [e|]]; simpl in *;
      eauto with rates. }
  repeat case_match; simpl;
    eauto using rates_kept_handleStatus, rates_kept_handleRoomMessage,
      rates_kept_handleInviteMessage, rates_kept_handleInviteResponse,
      rates_kept_handleFileTransferInit, rates_kept_handleFileChunk, rates_kept_refl.
Qed.

Lemma CanSendMessage_other nickname n t rl :
  nickname <> n ->
  messageRates (CanSendMessage nickname t rl).1 !! n = messageRates rl !! n.
Proof.
  intros Hne. unfold CanSendMessage.
  repeat case_match; simpl; by rewrite lookup_insert_ne.
Qed.

End Rates.

(** ** The message rate *)

Section Rate.

Implicit Types (rl : RateLimiter) (nickname : string) (ts : list Z).

Lemma accepted_cons nickname t ts rl :
  accepted nickname (t :: ts) rl
  = ((if (CanSendMessage nickname t rl).2 is None then 1 else 0)
     + accepted nickname ts (CanSendMessage nickname t rl).1)%nat.
Proof. simpl. by destruct (CanSendMessage nickname t rl). Qed.

(** Between two resets of the counter at most ten messages pass. *)
Lemma accepted_no_reset nickname ts rl m r :
  messageRates rl !! nickname = Some (mkRate m r) -> 0 <= m ->
  Forall (fun t => t - r < Second) ts ->
  (accepted nickname ts rl <= Z.to_nat (MessagesPerSecond - m))%nat.
Proof.
  revert rl m. induction ts as [|t ts IH]; intros rl m Hu Hm Hts.
  { simpl. lia. }
  apply Forall_cons in Hts as [Ht Hts]. rewrite accepted_cons.
  destruct (Z.lt_ge_cases m MessagesPerSecond) as [Hlt|Hge].
  - destruct (CanSendMessage_counted nickname t rl _ Hu Ht Hlt) as [Hu' ->].
    simpl in Hu'. specialize (IH _ _ Hu' ltac:(lia) Hts).
    unfold MessagesPerSecond in *. lia.
  - rewrite (CanSendMessage_refused nickname t rl _ Hu Ht Hge). simpl.
    specialize (IH _ _ Hu Hm Hts). lia.
Qed.

Lemma accepted_after_reset nickname t ts rl :
  messageRates (CanSendMessage nickname t rl).1 !! nickname = Some (mkRate 1 t) ->
  (CanSendMessage nickname t rl).2 = None ->
  Forall (fun t' => t' - t < Second) ts ->
  (accepted nickname (t :: ts) rl <= 10)%nat.
Proof.
  intros Hu He Hts. rewrite accepted_cons, He.
  pose proof (accepted_no_reset nickname ts _ 1 t Hu ltac:(lia) Hts) as Hb.
  unfold MessagesPerSecond in Hb. lia.
Qed.

(** In a window shorter than a second the counter is reset at most
    once. *)
Lemma accepted_window nickname ts rl t0 :
  StronglySorted Z.le ts ->
  Forall (fun t => t0 <= t < t0 + Second) ts ->
  (accepted nickname ts rl
   <= match messageRates rl !! nickname with
      | Some u => Z.to_nat (MessagesPerSecond - messages u) + 10
      | None => 10
      end)%nat.
Proof.
  revert rl. induction ts as [|t ts IH]; intros rl Hsort Hwin.
  { simpl. case_match; lia. }
  apply StronglySorted_inv in Hsort as [Hsort Hle].
  apply Forall_cons in Hwin as [Ht Hwin].
  assert (Hrest : Forall (fun t' => t' - t < Second) ts).
  { rewrite Forall_forall in *. intros t' Hin.
    specialize (Hwin t' Hin). lia. }
  destruct (messageRates rl !! nickname) as [[m r]|] eqn:Hu.
  - destruct (Z.lt_ge_cases (t - r) Second) as [Hnew|Hold].
    + destruct (Z.lt_ge_cases m MessagesPerSecond) as [Hlt|Hge].
      * destruct (CanSendMessage_counted nickname t rl _ Hu Hnew Hlt) as [Hu' He].
        rewrite accepted_cons, He.
        specialize (IH (CanSendMessage nickname t rl).1 Hsort Hwin).
        rewrite Hu' in IH. simpl in *. unfold MessagesPerSecond in *. lia.
      * rewrite accepted_cons, (CanSendMessage_refused nickname t rl _ Hu Hnew Hge).
        simpl. specialize (IH rl Hsort Hwin). rewrite Hu in IH. simpl in IH. lia.
    + destruct (CanSendMessage_reset nickname t rl _ Hu Hold) as [Hu' He].
      pose proof (accepted_after_reset nickname t ts rl Hu' He Hrest). lia.
  - destruct (CanSendMessage_fresh nickname t rl Hu) as [Hu' He].
    apply (accepted_after_reset nickname t ts rl Hu' He Hrest).
Qed.

Implicit Types (s : Server) (e : Event) (evs : list Event) (h : nat).

(** What an event does to the counter of a nickname that stays
    connected: nothing, or the limiter's cleanup drops a counter that is
    more than five minutes old, or a TEXT frame of the nickname passes and
    the counter starts again at one, or it passes and is counted. *)
Lemma limiter_step nickname s e :
  match e with
  | ReadEnd h _ => negb (reading s h && eqs (Client.Nickname (deref s h)) nickname)
  | _ => true
  end = true ->
  let entry := messageRates (rateLimiter s) !! nickname in
  let entry' := messageRates (rateLimiter (exec s e)) !! nickname in
  (passes nickname s e = false
   /\ (entry' = entry
       \/ (entry' = None
           /\ exists u t, entry = Some u /\ clock e = Some t
                          /\ t - lastReset u > 5 * Minute)))
  \/ (passes nickname s e = true
      /\ exists t, clock e = Some t
           /\ ((entry' = Some (mkRate 1 t)
                /\ (entry = None
                    \/ exists u, entry = Some u /\ Second <= t - lastReset u))
               \/ (exists u, entry = Some u /\ t - lastReset u < Second
                             /\ messages u < 10
                             /\ entry' = Some (mkRate (messages u + 1) (lastReset u))))).
Proof.
  intros Hstay entry entry'. unfold entry, entry'. clear entry entry'.
  destruct e as [h id addr|h frame now rnd|h now|h|h now|now|now].
  - left. split; [done|]. left. simpl.
    by destruct (sessions s !! h), (CanConnect (rateLimiter s) addr).
  - unfold passes, text_of.
    destruct (reading s h) eqn:Hr.
    2:{ left. split; [done|]. left. simpl. by rewrite Hr. }
    assert (Hc : exists c, sessions s !! h = Some c /\ is_Some (Client.SendChan c)).
    { unfold reading in Hr. destruct (sessions s !! h) as [c|]; [|done].
      exists c. split; [done|]. by apply bool_decide_eq_true in Hr. }
    destruct Hc as (c & Hc & Hq).
    destruct (eqs (MType frame) TypeText) eqn:Hty.
    2:{ left. rewrite andb_false_r. split; [done|]. left.
        simpl. rewrite Hr. unfold ReadPump_step.
        match goal with |- context [HandleMessage h ?m now rnd s] =>
          pose proof (rates_kept_HandleMessage h m now rnd s) as Hk end.
        destruct (stamp_fields s h frame now) as (Hmty & _).
        unfold stamp in Hmty. rewrite Hmty in Hk. specialize (Hk Hty).
        destruct (HandleMessage _ _ _ _ _) as [s1 [e|]]; simpl in Hk;
          unfold rates_kept in Hk; simpl; by rewrite Hk. }
    apply eqs_true in Hty.
    rewrite (exec_Recv_TEXT s h c frame now rnd Hc Hq Hty), handleText_rates.
    rewrite (deref_lookup _ _ _ Hc).
    destruct (eqs (Client.Nickname c) nickname) eqn:Hn.
    2:{ left. split; [done|]. left. apply eqs_false in Hn.
        by apply CanSendMessage_other. }
    apply eqs_true in Hn. subst nickname. cbn [andb].
    destruct (messageRates (rateLimiter s) !! Client.Nickname c) as [u|] eqn:Hu.
    + destruct (Z.lt_ge_cases (now - lastReset u) Second) as [Hnew|Hold].
      * destruct (Z.lt_ge_cases (messages u) MessagesPerSecond) as [Hlt|Hge].
        -- destruct (CanSendMessage_counted _ now _ u Hu Hnew Hlt) as [Hu' He].
           right. rewrite He, bool_decide_eq_true_2 by done.
           split; [done|]. exists now. split; [done|]. right.
           exists u. by rewrite Hu'.
        -- rewrite (CanSendMessage_refused _ now _ u Hu Hnew Hge). cbn [fst snd].
           left. rewrite bool_decide_eq_false_2 by done. split; [done|]. by left.
      * destruct (CanSendMessage_reset _ now _ u Hu Hold) as [Hu' He].
        right. rewrite He, bool_decide_eq_true_2 by done.
        split; [done|]. exists now. split; [done|]. left.
        split; [done|]. right. by exists u.
    + destruct (CanSendMessage_fresh _ now _ Hu) as [Hu' He].
      right. rewrite He, bool_decide_eq_true_2 by done.
      split; [done|]. exists now. split; [done|]. left. split; [done|]. by left.
  - left. split; [done|]. left. simpl.
    destruct (reading s h) eqn:Hr; [|done]. simpl in Hstay.
    apply negb_true_iff, eqs_false in Hstay.
    unfold reading in Hr. destruct (sessions s !! h) as [c|] eqn:Hc; [|done].
    rewrite (deref_lookup _ _ _ Hc) in Hstay.
    unfold ReadPump_exit.
    change (rateLimiter (update h Client.Close (UnregisterClient h now s)))
      with (rateLimiter (UnregisterClient h now s)).
    rewrite (UnregisterClient_rateLimiter s h c now Hc).
    destruct (eqs (Client.Nickname c) ""); [done|]. cbv zeta.
    destruct (Client.RemoteAddr c); simpl; by rewrite lookup_delete_ne.
  - left. split; [done|]. by left.
  - left. split; [done|]. by left.
  - left. split; [done|]. left. simpl.
    pose proof (rates_kept_cleanupFileTransfers now s) as H1.
    pose proof (rates_kept_cleanupEmptyRooms now (cleanupFileTransfers now s)) as H2.
    unfold rates_kept in *. by rewrite H2, H1.
  - left. split; [done|]. simpl. rewrite map_lookup_filter.
    destruct (messageRates (rateLimiter s) !! nickname) as [u|] eqn:Hu; simpl;
      [|by left].
    case_guard as Hg; simpl; [by left|]. right. split; [done|].
    exists u, now. split_ands; try done.
Qed.

Lemma budget_nonneg t0 lo entry : counter_ok lo entry -> 0 <= budget t0 lo entry.
Proof.
  intros Hok. unfold budget. repeat case_match; try lia;
    destruct (Hok _ eq_refl); lia.
Qed.

Lemma budget_kept t0 lo lo' entry :
  counter_ok lo entry -> lo <= lo' -> budget t0 lo' entry <= budget t0 lo entry.
Proof.
  intros Hok Hle. unfold budget.
  destruct (Z.ltb_spec lo t0), (Z.ltb_spec lo' t0),
    (Z.leb_spec (t0 + Second) lo), (Z.leb_spec (t0 + Second) lo'); try lia;
    destruct entry as [u|]; try lia;
    destruct (Hok _ eq_refl); case_match; lia.
Qed.

Lemma budget_dropped t0 lo t u :
  counter_ok lo (Some u) -> lo <= t -> t - lastReset u > 5 * Minute ->
  budget t0 t None <= budget t0 lo (Some u).
Proof.
  intros Hok Hle Hold. destruct (Hok _ eq_refl). unfold budget, Minute, Second in *.
  destruct (Z.ltb_spec lo t0), (Z.ltb_spec t t0),
    (Z.leb_spec (t0 + 1000000000) lo), (Z.leb_spec (t0 + 1000000000) t),
    (Z.leb_spec t0 (lastReset u)); lia.
Qed.

Lemma budget_reset t0 lo t entry :
  counter_ok lo entry -> lo <= t ->
  entry = None \/ (exists u, entry = Some u /\ Second <= t - lastReset u) ->
  (if decide (t0 <= t < t0 + Second) then 1 else 0) + budget t0 t (Some (mkRate 1 t))
  <= budget t0 lo entry.
Proof.
  intros Hok Hle Hwhy. unfold budget, Second in *. simpl.
  destruct (Z.ltb_spec lo t0), (Z.ltb_spec t t0),
    (Z.leb_spec (t0 + 1000000000) lo), (Z.leb_spec (t0 + 1000000000) t),
    (Z.leb_spec t0 t); case_decide; try lia;
    destruct Hwhy as [->|(u & -> & Hold)]; try lia;
    destruct (Hok _ eq_refl); case_match; lia.
Qed.

Lemma budget_counted t0 lo t u :
  counter_ok lo (Some u) -> lo <= t -> messages u < 10 ->
  (if decide (t0 <= t < t0 + Second) then 1 else 0)
  + budget t0 t (Some (mkRate (messages u + 1) (lastReset u)))
  <= budget t0 lo (Some u).
Proof.
  intros Hok Hle Hlt. destruct (Hok _ eq_refl). unfold budget, Second in *. simpl.
  destruct (Z.ltb_spec lo t0), (Z.ltb_spec t t0),
    (Z.leb_spec (t0 + 1000000000) lo), (Z.leb_spec (t0 + 1000000000) t),
    (Z.leb_spec t0 (lastReset u)); case_decide; lia.
Qed.

(** In a run whose clock does not run backwards, the frames of a
    nickname that pass the limiter in a window of a second stay within the
    budget. *)
Lemma passed_budget nickname t0 evs : forall s lo,
  ticking lo evs = true -> stays nickname s evs = true ->
  counter_ok lo (messageRates (rateLimiter s) !! nickname) ->
  Z.of_nat (length (filter (fun t => t0 <= t < t0 + Second) (passed nickname s evs)))
  <= budget t0 lo (messageRates (rateLimiter s) !! nickname).
Proof.
  induction evs as [|e evs IH]; intros s lo Htick Hstay Hok.
  { simpl. by apply budget_nonneg. }
  simpl in Htick, Hstay. apply andb_true_iff in Hstay as [Hstay1 Hstay2].
  change (passed nickname s (e :: evs))
    with ((if passes nickname s e then option_list (clock e) else [])
          ++ passed nickname (exec s e) evs).
  rewrite filter_app, length_app, Nat2Z.inj_add.
  destruct (limiter_step nickname s e Hstay1)
    as [[Hp Hentry]|(Hp & t & Hclock & Hentry)]; rewrite Hp.
  - simpl.
    assert (Hlo : exists lo', lo <= lo' /\ ticking lo' evs = true
                              /\ forall t, clock e = Some t -> lo' = t).
    { destruct (clock e) as [t|].
      - apply andb_true_iff in Htick as [Hle Htick]. apply Z.leb_le in Hle.
        exists t. split_ands; try done. by intros ? [= ->].
      - exists lo. split_ands; done. }
    destruct Hlo as (lo' & Hle & Htick' & Hlo').
    destruct Hentry as [Hsame|(Hnone & u & t & Hu & Hclock & Hold)].
    + specialize (IH (exec s e) lo' Htick' Hstay2). rewrite Hsame in IH.
      etrans; [apply IH|by apply budget_kept].
      intros u Hu. destruct (Hok u Hu). split; lia.
    + specialize (IH (exec s e) lo' Htick' Hstay2). rewrite Hnone in IH.
      rewrite (Hlo' t Hclock) in *. rewrite Hu in *.
      etrans; [apply IH; by intros ? [=]|]. by apply budget_dropped.
  - rewrite Hclock in Htick |- *. apply andb_true_iff in Htick as [Hle Htick].
    apply Z.leb_le in Hle.
    assert (Hone : Z.of_nat (length (filter (fun t => t0 <= t < t0 + Second)
                                       (option_list (Some t))))
                   = if decide (t0 <= t < t0 + Second) then 1 else 0).
    { simpl. rewrite filter_cons, filter_nil. by case_decide. }
    rewrite Hone. specialize (IH (exec s e) t Htick Hstay2).
    destruct Hentry as [[Hnew Hwhy]|(u & Hu & Hnear & Hlt & Hnew)]; rewrite Hnew in IH.
    + etrans; [|by apply (budget_reset t0 lo t)].
      apply Z.add_le_mono_l, IH. intros ? [= <-]. simpl. lia.
    + rewrite Hu in *. etrans; [|by apply (budget_counted t0 lo t u)].
      apply Z.add_le_mono_l, IH. intros ? [= <-]. simpl.
      destruct (Hok _ eq_refl). lia.
Qed.

Lemma ticking_lower lo evs :
  ticking lo evs = true -> Forall (fun t => lo <= t) (omap clock evs).
Proof.
  revert lo. induction evs as [|e evs IH]; intros lo Htick; [by constructor|].
  simpl in *. destruct (clock e) as [t|]; [|by apply IH].
  apply andb_true_iff in Htick as [Hle Htick]. apply Z.leb_le in Hle.
  constructor; [done|]. eapply Forall_impl; [by apply IH|]. simpl. intros. lia.
Qed.

Lemma passed_clock nickname evs : forall s t,
  t ∈ passed nickname s evs -> t ∈ omap clock evs.
Proof.
  induction evs as [|e evs IH]; intros s t Hin; [done|].
  simpl in Hin. apply elem_of_app in Hin as [Hin|Hin].
  - simpl. destruct (passes nickname s e); [|by apply elem_of_nil in Hin].
    destruct (clock e) as [t'|]; [|by apply elem_of_nil in Hin].
    simpl in Hin. apply list_elem_of_singleton in Hin as ->. by left.
  - simpl. destruct (clock e); [right|]; by eapply IH.
Qed.

Lemma length_filter_all {A} (P : A -> Prop) `{!forall x, Decision (P x)} (l : list A) :
  Forall P l -> length (filter P l) = length l.
Proof.
  induction 1 as [|x l HP _ IH]; [done|].
  rewrite filter_cons_True by done. simpl. by rewrite IH.
Qed.

End Rate.




(** ** Every handler is a sequence of primitive steps *)

Section Steps.

Variable d : bool.

Implicit Types (c : Client.t) (msg : Message) (s : Server) (h : nat).

Lemma queue_bounded_SendMessage msg c :
  queue_bounded c -> queue_bounded (Client.SendMessage msg c).
Proof.
  intros Hb q. unfold Client.SendMessage.
  destruct (Client.SendChan c) as [q0|] eqn:Hq; [|by rewrite Hq].
  destruct (Nat.ltb_spec (length q0) Client.capacity) as [Hlt|Hge].
  - simpl. intros [= <-]. rewrite length_app. simpl. lia.
  - rewrite Hq. intros [= <-]. by apply Hb.
Qed.

Lemma session_step_refl c : session_step c c.
Proof. unfold session_step. split_ands; try done. exists []. by rewrite app_nil_r. Qed.

Lemma session_step_trans c1 c2 c3 :
  session_step c1 c2 -> session_step c2 c3 -> session_step c1 c3.
Proof.
  intros (H1 & H2 & H3 & H4 & H5 & l1 & H6) (K1 & K2 & K3 & K4 & K5 & l2 & K6).
  unfold session_step. split_ands; try congruence; auto.
  - intros Hc. destruct (H5 Hc) as [Hc2 Hw2]. destruct (K5 Hc2) as [Hc3 Hw3].
    split; congruence.
  - exists (l1 ++ l2). by rewrite K6, H6, app_assoc.
Qed.

(** A method that touches neither the channel nor the socket. *)
Lemma session_step_fields c c' :
  Client.ID c' = Client.ID c -> Client.RemoteAddr c' = Client.RemoteAddr c ->
  Client.SendChan c' = Client.SendChan c ->
  Client.ConnClosed c' = Client.ConnClosed c ->
  Client.ConnWritten c' = Client.ConnWritten c ->
  session_step c c'.
Proof.
  intros H1 H2 H3 H4 H5. unfold session_step, queue_bounded.
  rewrite H1, H2, H3, H4, H5. split_ands; try done. exists []. by rewrite app_nil_r.
Qed.

Lemma client_op_SendMessage msg : client_op (Client.SendMessage msg).
Proof.
  intros c. split; [apply SendMessage_Nickname|].
  destruct (SendMessage_Conn msg c) as [Hcl Hw].
  unfold session_step. rewrite Hcl, Hw. split_ands.
  - unfold Client.SendMessage. by repeat case_match.
  - apply SendMessage_RemoteAddr.
  - apply queue_bounded_SendMessage.
  - intros Hq. unfold Client.SendMessage. by rewrite Hq.
  - done.
  - exists []. by rewrite app_nil_r.
Qed.

Lemma client_op_SetStatus st : client_op (Client.SetStatus st).
Proof. intros c. split; [done|]. by apply session_step_fields. Qed.

Lemma client_op_AddRoom r : client_op (Client.AddRoom r).
Proof. intros c. split; [done|]. by apply session_step_fields. Qed.

Lemma client_op_RemoveRoom r : client_op (Client.RemoveRoom r).
Proof. intros c. split; [done|]. by apply session_step_fields. Qed.

Lemma client_op_ConnClose : client_op Client.ConnClose.
Proof.
  intros c. split; [done|]. unfold session_step. simpl. split_ands; try done.
  exists []. by rewrite app_nil_r.
Qed.

Lemma client_op_Close : client_op Client.Close.
Proof.
  intros c. split; [done|]. unfold session_step. simpl. split_ands; try done.
  exists []. by rewrite app_nil_r.
Qed.

Lemma client_op_WritePing now : client_op (Client.WritePing now).
Proof.
  intros c. unfold Client.WritePing.
  destruct (Client.ConnClosed c) eqn:Hcl; (split; [done|]).
  - apply session_step_refl.
  - unfold session_step. simpl. rewrite Hcl. split_ands; try done. by eexists.
Qed.

Lemma client_op_WriteOne : client_op Client.WriteOne.
Proof.
  intros c. unfold Client.WriteOne.
  destruct (Client.SendChan c) as [[|m q]|] eqn:Hq;
    try (split; [done|apply session_step_refl]).
  destruct (Client.ConnClosed c) eqn:Hcl; (split; [done|]);
    [apply session_step_refl|].
  unfold session_step. simpl. rewrite Hq, Hcl. split_ands; try done.
  - intros Hb q' [= <-]. specialize (Hb _ Hq). simpl in Hb. lia.
  - by eexists.
Qed.

Lemma session_step_setNickname n c : session_step c (Client.setNickname n c).
Proof. by apply session_step_fields. Qed.

Lemma steps_refl s : steps d s s.
Proof. apply rtc_refl. Qed.

Lemma steps_trans s1 s2 s3 : steps d s1 s2 -> steps d s2 s3 -> steps d s1 s3.
Proof. apply rtc_trans. Qed.

Lemma steps_prim s0 s s' : prim d s s' -> steps d s0 s -> steps d s0 s'.
Proof. intros Hp Hs. by eapply rtc_r. Qed.

Lemma steps_update s0 s h f : client_op f -> steps d s0 s -> steps d s0 (update h f s).
Proof. intros Hf. apply steps_prim. by constructor. Qed.

Lemma steps_sendTo s0 s h msg : steps d s0 s -> steps d s0 (sendTo h msg s).
Proof. apply steps_update, client_op_SendMessage. Qed.

Lemma steps_sendError s0 s h r e now : steps d s0 s -> steps d s0 (sendError h r e now s).
Proof. apply steps_sendTo. Qed.

Lemma steps_updateRoom s0 s k f :
  (forall r, Room.ID (f r) = Room.ID r) -> steps d s0 s -> steps d s0 (updateRoom k f s).
Proof. intros Hf. apply steps_prim. by constructor. Qed.

Lemma steps_foldl {A} (f : Server -> A -> Server) (l : list A) s0 s :
  (forall s x, steps d s (f s x)) -> steps d s0 s -> steps d s0 (foldl f s l).
Proof.
  intros Hf. revert s. induction l as [|x l IH]; intros s Hs; simpl; [done|].
  apply IH. eapply steps_trans; [exact Hs|apply Hf].
Qed.

Lemma steps_BroadcastMessage s0 s msg exclude :
  steps d s0 s -> steps d s0 (BroadcastMessage msg exclude s).
Proof.
  apply steps_foldl. intros s1 x. unfold broadcastOne.
  repeat case_match; auto using steps_refl, steps_sendTo.
Qed.

Lemma steps_BroadcastUserList s0 s : steps d s0 s -> steps d s0 (BroadcastUserList s).
Proof. apply steps_BroadcastMessage. Qed.

Lemma steps_BroadcastToRoom s0 s r msg :
  steps d s0 s -> steps d s0 (BroadcastToRoom r msg s).
Proof.
  intros Hs. unfold BroadcastToRoom. destruct (GetRoom s r); [|done].
  apply steps_foldl; [|done]. intros s1 x. unfold roomOne.
  repeat case_match; auto using steps_refl, steps_sendTo.
Qed.

Lemma steps_deleteOne room r s x : steps d s (deleteOne room r s x).
Proof.
  unfold deleteOne. destruct (GetClient s x); [|apply steps_refl].
  apply steps_sendTo, steps_update; [apply client_op_RemoveRoom|apply steps_refl].
Qed.

Lemma steps_unregisterRoom n now s room : steps d s (unregisterRoom n now s room).
Proof.
  unfold unregisterRoom. apply steps_BroadcastToRoom, steps_updateRoom; [done|].
  apply steps_refl.
Qed.

Create HintDb steps.

#[local] Hint Resolve steps_refl steps_sendTo steps_sendError
  steps_BroadcastMessage steps_BroadcastUserList steps_BroadcastToRoom
  client_op_SendMessage client_op_SetStatus client_op_AddRoom client_op_RemoveRoom
  client_op_ConnClose client_op_Close client_op_WritePing client_op_WriteOne : steps.

#[local] Hint Extern 1 (steps _ _ (update _ _ _)) =>
  (apply steps_update; [solve [eauto with steps]|]) : steps.

#[local] Hint Extern 1 (steps _ _ (updateRoom _ _ _)) =>
  (apply steps_updateRoom; [intros []; reflexivity|]) : steps.

#[local] Hint Extern 1 (steps _ _ (foldl (deleteOne _ _) _ _)) =>
  (apply steps_foldl; [intros; apply steps_deleteOne|]) : steps.

#[local] Hint Extern 2 (steps _ _ (setRooms (<[_ := _]> _) _)) =>
  (eapply steps_prim; [apply (prim_room_create _ _ (Room.NewRoom _ _ _ _))|]) : steps.

#[local] Hint Extern 2 (steps _ _ (setRooms (delete _ _) _)) =>
  (eapply steps_prim; [apply prim_room_delete|]) : steps.

#[local] Hint Extern 2 (steps _ _ (setFileTransfers (<[_ := _]> _) _)) =>
  (eapply steps_prim; [apply prim_transfer_store|]) : steps.

#[local] Hint Extern 2 (steps _ _ (setFileTransfers (delete _ _) _)) =>
  (eapply steps_prim; [apply prim_transfer_delete|]) : steps.

#[local] Hint Extern 2 (steps _ _ (setRateLimiter (AddRoom _ _) _)) =>
  (eapply steps_prim; [apply prim_add_room; assumption|]) : steps.

#[local] Hint Extern 2 (steps _ _ (setRateLimiter (AddFileTransfer _ _) _)) =>
  (eapply steps_prim; [apply prim_add_transfer; assumption|]) : steps.

Ltac steps_cases := cbv zeta; repeat case_match; eauto 12 with steps.

Lemma steps_handleText h msg now s : steps d s (handleText h msg now s).
Proof.
  unfold handleText.
  destruct (CanSendMessage (Client.Nickname (deref s h)) now (rateLimiter s))
    as [rl e] eqn:E.
  assert (Hrl : steps d s (setRateLimiter rl s)).
  { replace rl with (CanSendMessage (Client.Nickname (deref s h)) now (rateLimiter s)).1
      by (by rewrite E).
    eapply steps_prim; [apply prim_counted|apply steps_refl]. }
  steps_cases.
Qed.

Lemma steps_handleStatus h msg now s : steps d s (handleStatus h msg now s).
Proof. unfold handleStatus. steps_cases. Qed.

Lemma steps_handleRoomMessage h msg now rnd s :
  steps d s (handleRoomMessage h msg now rnd s).
Proof. unfold handleRoomMessage. steps_cases. Qed.

Lemma steps_handleInviteMessage h msg now s : steps d s (handleInviteMessage h msg now s).
Proof. unfold handleInviteMessage. steps_cases. Qed.

Lemma steps_handleInviteResponse h msg now s : steps d s (handleInviteResponse h msg now s).
Proof. unfold handleInviteResponse. steps_cases. Qed.

Lemma steps_handleFileTransferInit h msg now s :
  steps d s (handleFileTransferInit h msg now s).
Proof. unfold handleFileTransferInit. steps_cases. Qed.

Lemma steps_handleFileChunk h msg s : steps d s (handleFileChunk h msg s).
Proof. unfold handleFileChunk. steps_cases. Qed.

Lemma steps_RegisterClient h n now s : steps d s (RegisterClient h n now s).1.
Proof.
  unfold RegisterClient.
  destruct (ValidateNickname n) eqn:Hn; [apply steps_refl|].
  destruct (clients s !! n) eqn:Hfree; [apply steps_refl|]. cbv zeta. cbn [fst].
  apply steps_BroadcastMessage, steps_sendTo, steps_BroadcastUserList.
  eapply steps_prim; [by apply prim_register|].
  eapply steps_prim; [by apply prim_nickname|]. apply steps_refl.
Qed.

Lemma steps_HandleMessage h msg now rnd s : steps d s (HandleMessage h msg now rnd s).1.
Proof.
  unfold HandleMessage.
  destruct (eqs (MType msg) TypeConnect).
  { pose proof (steps_RegisterClient h (Content msg) now s) as Hr.
    destruct (RegisterClient h (Content msg) now s) as [s1 [e|]]; simpl in *.
    - apply steps_update; [apply client_op_ConnClose|]. by apply steps_sendError.
    - by apply steps_sendTo. }
  repeat case_match; simplify_eq; simpl;
    eauto using steps_handleText, steps_handleStatus, steps_handleRoomMessage,
      steps_handleInviteMessage, steps_handleInviteResponse,
      steps_handleFileTransferInit, steps_handleFileChunk, steps_refl.
Qed.

Lemma steps_cleanupFileTransfers now s : steps d s (cleanupFileTransfers now s).
Proof.
  unfold cleanupFileTransfers.
  assert (Hk : forall l acc, steps d acc.1 (foldl (cleanupOne now) acc l).1).
  { induction l as [|e l IH]; intros acc; simpl; [apply steps_refl|].
    eapply steps_trans; [|apply IH].
    destruct acc as [s1 l1]. unfold cleanupOne. simpl.
    case_match; simpl; [|apply steps_refl].
    eapply steps_prim; [apply prim_remove_transfer|].
    repeat case_match; repeat first [apply steps_sendError | apply steps_refl]. }
  specialize (Hk (map_to_list (fileTransfers s)) (s, [])).
  destruct (foldl (cleanupOne now) (s, []) (map_to_list (fileTransfers s))) as [s1 l1].
  simpl in Hk. apply steps_foldl; [|done].
  intros s2 x. eapply steps_prim; [apply prim_transfer_delete|apply steps_refl].
Qed.

Lemma steps_cleanupEmptyRooms now s : steps d s (cleanupEmptyRooms now s).
Proof.
  unfold cleanupEmptyRooms. apply steps_foldl; [|apply steps_refl].
  intros s2 x. eapply steps_prim; [apply prim_room_delete|apply steps_refl].
Qed.

End Steps.

Lemma steps_unregister_loop n now (l : list Room.t) s0 s :
  steps true s0 s -> steps true s0 (foldl (unregisterRoom n now) s l).
Proof. apply steps_foldl. intros. apply steps_unregisterRoom. Qed.

Lemma steps_UnregisterClient h now s : steps true s (UnregisterClient h now s).
Proof.
  unfold UnregisterClient. case_match; [apply steps_refl|]. cbv zeta.
  case_match.
  - eapply steps_prim; [by apply prim_remove_connection|].
    eapply steps_prim; [by apply prim_remove_user|].
    apply steps_BroadcastUserList, steps_BroadcastMessage, steps_unregister_loop.
    eapply steps_prim; [by apply prim_unregister|apply steps_refl].
  - eapply steps_prim; [by apply prim_remove_user|].
    apply steps_BroadcastUserList, steps_BroadcastMessage, steps_unregister_loop.
    eapply steps_prim; [by apply prim_unregister|apply steps_refl].
Qed.

(** Every event but the end of a read loop is a sequence of primitive
    steps that take nothing out of the registry or the limiter's
    connection and room counters. *)
Lemma steps_exec_staying s e : staying e -> steps false s (exec s e).
Proof.
  destruct e as [h id addr|h frame now rnd|h now|h|h now|now|now]; simpl; intros He.
  - destruct (sessions s !! h) eqn:Hh; [apply steps_refl|].
    destruct (CanConnect (rateLimiter s) addr) eqn:Hok; [apply steps_refl|].
    apply rtc_once. by constructor.
  - destruct (reading s h); [|apply steps_refl]. unfold ReadPump_step.
    pose proof (steps_HandleMessage false h
                  (setTimestamp now (setSender (Client.Nickname (deref s h)) frame))
                  now rnd s) as Hm.
    destruct (HandleMessage _ _ _ _ _) as [s1 [e|]]; simpl in Hm; [|done].
    by apply steps_sendError.
  - done.
  - apply steps_update; [apply client_op_WriteOne|apply steps_refl].
  - apply steps_update; [apply client_op_WritePing|apply steps_refl].
  - eapply steps_trans; [apply steps_cleanupFileTransfers|apply steps_cleanupEmptyRooms].
  - eapply steps_prim; [apply prim_limiter_cleanup|apply steps_refl].
Qed.

Lemma prim_disconnect s s' : prim false s s' -> prim true s s'.
Proof. intros Hp. destruct Hp; try done; by constructor. Qed.

Lemma steps_disconnect s s' : steps false s s' -> steps true s s'.
Proof.
  intros Hs. induction Hs; [apply rtc_refl|].
  eapply rtc_l; [by apply prim_disconnect|done].
Qed.

(** Every event is a sequence of primitive steps. *)
Lemma steps_exec s e : steps true s (exec s e).
Proof.
  destruct e as [h id addr|h frame now rnd|h now|h|h now|now|now];
    try (by apply steps_disconnect, steps_exec_staying).
  simpl. destruct (reading s h); [|apply steps_refl]. unfold ReadPump_exit.
  apply steps_update; [apply client_op_Close|apply steps_UnregisterClient].
Qed.

(** An invariant of the primitive steps that holds at the start holds in
    every reachable state. *)
Lemma reachable_invariant (P : Server -> Prop) :
  P NewServer -> (forall s s', prim true s s' -> P s -> P s') ->
  forall s, reachable s -> P s.
Proof.
  intros H0 Hstep s [evs <-]. unfold run.
  induction evs as [|e evs IH] using rev_ind; [done|].
  rewrite foldl_app. simpl.
  pose proof (steps_exec (foldl exec NewServer evs) e) as Hs.
  eapply (rtc_ind_r (fun s' => P s') (foldl exec NewServer evs));
    [exact IH| |exact Hs].
  intros y z _ Hp Hy. eauto.
Qed.

(** ** Invariants of the reachable states *)

Section Invariants.

Implicit Types (c : Client.t) (msg : Message) (s : Server) (h : nat)
  (rl : RateLimiter).

Lemma count_bounds (m : gmap string Z) cap k :
  (forall k v, m !! k = Some v -> 0 < v <= cap) -> 0 <= count m k.
Proof.
  intros Hm. unfold count. destruct (m !! k) as [v|] eqn:E; simpl; [|lia].
  specialize (Hm _ _ E). lia.
Qed.

Lemma decrement_bounds (m : gmap string Z) cap k0 :
  (forall k v, m !! k = Some v -> 0 < v <= cap) ->
  forall k v, decrement m k0 !! k = Some v -> 0 < v <= cap.
Proof.
  intros Hm k v. unfold decrement, count.
  destruct (m !! k0) as [v0|] eqn:E0; simpl; [|apply Hm].
  specialize (Hm _ _ E0) as Hv0.
  destruct (Z.gtb_spec v0 0); [|apply Hm].
  destruct (Z.eqb_spec v0 1).
  - rewrite lookup_delete_Some. intros [_ Hl]. by eapply Hm.
  - rewrite lookup_insert_Some. intros [[<- <-]|[_ Hl]]; [lia|by eapply Hm].
Qed.

Lemma increment_bounds (m : gmap string Z) cap k0 :
  (forall k v, m !! k = Some v -> 0 < v <= cap) -> count m k0 < cap ->
  forall k v, <[k0 := count m k0 + 1]> m !! k = Some v -> 0 < v <= cap.
Proof.
  intros Hm Hlt k v. pose proof (count_bounds m cap k0 Hm).
  rewrite lookup_insert_Some. intros [[<- <-]|[_ Hl]]; [lia|by eapply Hm].
Qed.

Lemma CanConnect_None rl addr :
  CanConnect rl addr = None ->
  totalConnections rl < MaxConnections
  /\ count (connectionsByIP rl) (IP addr) < MaxConnectionsPerIP.
Proof.
  unfold CanConnect.
  destruct (Z.geb_spec (totalConnections rl) MaxConnections); [done|].
  destruct (Z.geb_spec (count (connectionsByIP rl) (IP addr)) MaxConnectionsPerIP);
    [done|]. done.
Qed.

Lemma CanCreateRoom_None rl n :
  CanCreateRoom n rl = None -> count (roomsPerUser rl) n < RoomsPerUser.
Proof.
  unfold CanCreateRoom.
  by destruct (Z.geb_spec (count (roomsPerUser rl) n) RoomsPerUser).
Qed.

Lemma CanStartFileTransfer_None rl n :
  CanStartFileTransfer n rl = None ->
  count (transfersPerUser rl) n < FileTransfersPerUser.
Proof.
  unfold CanStartFileTransfer.
  by destruct (Z.geb_spec (count (transfersPerUser rl) n) FileTransfersPerUser).
Qed.

Lemma within_limits_CanSendMessage n now rl :
  within_limits rl -> within_limits (CanSendMessage n now rl).1.
Proof.
  intros (Ht & Hip & Hr & Hf & Hm). unfold CanSendMessage.
  set (u0 := match messageRates rl !! n with Some u => u | None => mkRate 0 now end).
  set (u1 := if now - lastReset u0 >=? Second then mkRate 0 now else u0).
  assert (Hu1 : 0 <= messages u1 <= MessagesPerSecond).
  { unfold u1, u0. destruct (messageRates rl !! n) as [u|] eqn:E.
    - specialize (Hm _ _ E). case_match; simpl; [unfold MessagesPerSecond; lia|done].
    - case_match; simpl; unfold MessagesPerSecond; lia. }
  destruct (Z.geb_spec (messages u1) MessagesPerSecond); simpl;
    (split; [done|]; split; [done|]; split; [done|]; split; [done|]);
    intros k u; simpl; rewrite lookup_insert_Some;
    (intros [[_ <-]|[_ Hl]]; [simpl; lia|by eapply Hm]).
Qed.

Lemma within_limits_prim s s' :
  prim true s s' -> within_limits (rateLimiter s) -> within_limits (rateLimiter s').
Proof.
  intros Hp Hw. pose proof Hw as (Ht & Hip & Hr & Hf & Hm).
  destruct Hp; simpl; try done;
    try (apply CanConnect_None in H0 as [Hlt Hlt']);
    try (apply CanCreateRoom_None in H);
    try (apply CanStartFileTransfer_None in H);
    try (by apply within_limits_CanSendMessage);
    (unfold within_limits, AddConnection, AddRoom, AddFileTransfer, RemoveUser,
       RemoveConnection, RemoveFileTransfer, RateLimiter_cleanup;
     simpl; split_ands; try done; try lia;
     first [ by apply increment_bounds
           | by eapply decrement_bounds
           | intros k v [_ Hl]%lookup_delete_Some; eauto
           | intros k v [Hl _]%map_lookup_filter_Some; eauto
           | case_match; lia ]).
Qed.

Lemma rooms_keyed_prim s s' : prim true s s' -> rooms_keyed s -> rooms_keyed s'.
Proof.
  intros Hp Hk. destruct Hp; simpl; try done.
  - intros k r. simpl. rewrite lookup_insert_Some.
    intros [[<- <-]|[_ Hl]]; [done|by apply Hk].
  - intros k r. simpl. rewrite lookup_alter_Some.
    intros [(_ & r0 & Hl & ->)|[_ Hl]]; [|by apply Hk].
    rewrite H. by apply Hk.
  - intros k r. simpl. rewrite lookup_delete_Some. intros [_ Hl]. by apply Hk.
Qed.

Lemma queues_bounded_prim s s' :
  prim true s s' ->
  (forall h c, sessions s !! h = Some c -> queue_bounded c) ->
  (forall h c, sessions s' !! h = Some c -> queue_bounded c).
Proof.
  intros Hp Hb. destruct Hp; simpl; try done.
  - intros h' c. rewrite lookup_insert_Some.
    intros [[_ <-]|[_ Hl]]; [|by eapply Hb].
    intros q. simpl. intros [= <-]. simpl. lia.
  - intros h' c. rewrite lookup_alter_Some.
    intros [(_ & c0 & Hl & ->)|[_ Hl]]; [|by eapply Hb].
    apply H. by eapply Hb.
  - intros h' c. rewrite lookup_alter_Some.
    intros [(_ & c0 & Hl & ->)|[_ Hl]]; [|by eapply Hb].
    intros q. simpl. by apply (Hb _ _ Hl).
Qed.

Lemma registry_keys_prim s s' :
  prim true s s' ->
  (forall n h, clients s !! n = Some h -> ValidateNickname n = None) ->
  (forall n h, clients s' !! n = Some h -> ValidateNickname n = None).
Proof.
  intros Hp Hv. destruct Hp; simpl; try done.
  - intros n h'. rewrite lookup_insert_Some.
    intros [[<- _]|[_ Hl]]; [done|by eapply Hv].
  - intros n h'. rewrite lookup_delete_Some. intros [_ Hl]. by eapply Hv.
Qed.

Lemma ValidateNickname_accepts n :
  ValidateNickname n = None <->
  MinNicknameLength <= len n <= MaxNicknameLength
  /\ forallb nicknameChar (list_ascii_of_string n) = true.
Proof.
  unfold ValidateNickname.
  destruct (Z.ltb_spec (len n) MinNicknameLength).
  { split; [done|]. lia. }
  destruct (Z.gtb_spec (len n) MaxNicknameLength).
  { split; [done|]. lia. }
  unfold nicknameRegex_MatchString, matchPlus.
  destruct (list_ascii_of_string n) as [|a l] eqn:E.
  { destruct n; [|done]. unfold len, MinNicknameLength in *. simpl in *. lia. }
  destruct (forallb nicknameChar (a :: l)) eqn:Hf; simpl.
  - split; [intros _; split; [lia|done]|done].
  - split; [done|]. by intros [_ ?].
Qed.

Lemma reachable_within_limits s : reachable s -> within_limits (rateLimiter s).
Proof.
  revert s. apply reachable_invariant.
  - repeat split; try done; intros k v Hl; simpl in Hl;
      by rewrite lookup_empty in Hl.
  - apply within_limits_prim.
Qed.

End Invariants.

(** X1: in every reachable state each key of the nickname registry is a
    nickname the validator accepts: 3 to 20 bytes long, every byte a
    letter, a digit, [_] or [-]. *)
Theorem registry_keys_are_valid (s : Server) (nickname : string) (h : nat) :
  reachable s -> clients s !! nickname = Some h ->
  ValidateNickname nickname = None
  /\ 3 <= len nickname <= 20
  /\ forallb nicknameChar (list_ascii_of_string nickname) = true.
Proof.
  intros Hr Hl.
  assert (Hv : ValidateNickname nickname = None).
  { revert nickname h Hl. pattern s. revert s Hr. apply reachable_invariant.
    - intros n h Hl. simpl in Hl. by rewrite lookup_empty in Hl.
    - intros s s' Hp IH. by apply registry_keys_prim with s. }
  split; [done|]. by apply ValidateNickname_accepts.
Qed.

Lemma registry_keys_are_valid_witness :
  ValidateNickname "bobby" = None
  /\ 3 <= len "bobby" <= 20
  /\ forallb nicknameChar (list_ascii_of_string "bobby") = true.
Proof.
  apply (registry_keys_are_valid (run alice_and_bobby) "bobby" 1).
  - by eexists.
  - decide_closed.
Defined.

(** X2: in every reachable state the limiter is within its budgets: at
    most 100 connections counted in total and 5 for an IP, at most 5
    rooms and 3 transfers counted for a nickname, at most 10 messages
    counted since a reset; no counter is negative and the maps hold no
    zero entry.  (An accepted connection is counted before the next
    admission check, as one [Accept] event does.) *)
Theorem limiter_within_limits (s : Server) :
  reachable s -> within_limits (rateLimiter s).
Proof. apply reachable_within_limits. Qed.

Lemma limiter_within_limits_witness :
  within_limits (rateLimiter (run alice_and_bobby)).
Proof. apply limiter_within_limits. by eexists. Defined.

(** X3: in every reachable state the channel of a session holds at most
    256 messages: a send to a full channel drops the message. *)
Theorem queue_within_capacity (s : Server) (h : nat) (c : Client.t) (q : list Message) :
  reachable s -> sessions s !! h = Some c -> Client.SendChan c = Some q ->
  (length q <= 256)%nat.
Proof.
  intros Hr Hc Hq.
  assert (Hb : forall h c, sessions s !! h = Some c -> queue_bounded c).
  { apply (reachable_invariant
             (fun s => forall h c, sessions s !! h = Some c -> queue_bounded c));
      [| |done].
    - intros h' c' Hl. simpl in Hl. by rewrite lookup_empty in Hl.
    - intros s1 s2 Hp IH. by apply queues_bounded_prim with s1. }
  by apply (Hb h c Hc q).
Qed.

(** X4: in every reachable state each room of the room registry is
    stored under its own ID. *)
Theorem rooms_stored_under_their_ID (s : Server) (roomID : string) (r : Room.t) :
  reachable s -> rooms s !! roomID = Some r -> Room.ID r = roomID.
Proof.
  intros Hr. revert roomID r. apply (reachable_invariant rooms_keyed); [| |done].
  - intros k r Hl. simpl in Hl. by rewrite lookup_empty in Hl.
  - apply rooms_keyed_prim.
Qed.

Lemma queue_within_capacity_witness :
  let s := run alice_and_bobby in
  (length (default [] (default None (Client.SendChan <$> sessions s !! 0%nat))) <= 256)%nat.
Proof.
  intros s.
  apply (queue_within_capacity s 0 (deref s 0)).
  - by eexists.
  - decide_closed.
  - decide_closed.
Defined.

Lemma rooms_stored_under_their_ID_witness :
  let room := Room.mk "room_3000000000_00ff" "proj" "" "alice" {[ "alice" ]} ∅
                      (3 * Second) in
  Room.ID room = "room_3000000000_00ff".
Proof.
  intros room.
  apply (rooms_stored_under_their_ID
           (run (alice_and_bobby
                 ++ [Recv 0 (frame_ROOM RoomCreate "" "proj") (3 * Second) (Some "00ff")]))).
  - by eexists.
  - decide_closed.
Defined.

Section Staying.

Implicit Types (s : Server) (e : Event) (h : nat).

Lemma clients_kept_prim s s' n h :
  prim false s s' -> clients s !! n = Some h -> clients s' !! n = Some h.
Proof.
  intros Hp Hl. destruct Hp; simpl; try done.
  rewrite lookup_insert_ne; [done|]. congruence.
Qed.

Lemma room_budget_kept_prim s s' n :
  prim false s s' ->
  count (roomsPerUser (rateLimiter s)) n <= count (roomsPerUser (rateLimiter s')) n.
Proof.
  intros Hp. destruct Hp; simpl; try done; try lia.
  - unfold CanSendMessage. by repeat case_match.
  - unfold count at 2. destruct (decide (nickname = n)) as [->|Hne].
    + rewrite lookup_insert_eq. simpl. lia.
    + rewrite lookup_insert_ne by done. done.
Qed.

Lemma staying_invariant (R : Server -> Server -> Prop) s e :
  (forall s, R s s) -> (forall s1 s2 s3, R s1 s2 -> R s2 s3 -> R s1 s3) ->
  (forall s s', prim false s s' -> R s s') ->
  staying e -> R s (exec s e).
Proof.
  intros Hrefl Htrans Hprim He.
  pose proof (steps_exec_staying s e He) as Hs.
  induction Hs; [apply Hrefl|]. eapply Htrans; [by apply Hprim|done].
Qed.

Lemma decrement_increment (m : gmap string Z) k :
  (forall v, m !! k = Some v -> 0 < v) ->
  decrement (<[k := count m k + 1]> m) k = m.
Proof.
  intros Hpos. unfold decrement.
  assert (Hc : count (<[k := count m k + 1]> m) k = count m k + 1).
  { unfold count at 1. by rewrite lookup_insert_eq. }
  rewrite Hc. unfold count.
  destruct (m !! k) as [v|] eqn:E; simpl.
  - specialize (Hpos v eq_refl).
    destruct (Z.gtb_spec (v + 1) 0); [|lia].
    destruct (Z.eqb_spec (v + 1) 1); [lia|].
    rewrite insert_insert_eq. replace (v + 1 - 1) with v by lia.
    by apply insert_id.
  - by apply delete_insert_id.
Qed.

End Staying.

(** X5: no event other than the end of a read loop takes an entry out
    of the nickname registry or binds it to another session: through any
    sequence of such events a nickname stays bound to the session that
    registered it. *)
Theorem registry_entries_stay (s : Server) (evs : list Event) (nickname : string)
        (h : nat) :
  Forall staying evs -> clients s !! nickname = Some h ->
  clients (foldl exec s evs) !! nickname = Some h.
Proof.
  intros Hevs. revert s. induction Hevs as [|e evs He _ IH]; intros s Hl; [done|].
  simpl. apply IH.
  apply (staying_invariant
           (fun s s' => forall n h, clients s !! n = Some h -> clients s' !! n = Some h)
           s e); [auto|auto| |done|done].
  intros s1 s2 Hp n h'. by apply clients_kept_prim.
Qed.

Lemma registry_entries_stay_witness :
  let s := run alice_and_bobby in
  clients (foldl exec s [ Recv 1 (frame_CONNECT "alice") (3 * Second) None;
                          Recv 0 (frame_STATUS StatusBusy) (4 * Second) None ])
    !! "alice"
  = Some 0%nat.
Proof.
  intros s. apply registry_entries_stay; [by repeat constructor|decide_closed].
Defined.

(** X6: the room budget of a nickname is never given back while its
    session stays: through any sequence of events other than the end of
    a read loop the number of rooms the limiter counts for a nickname
    does not go down, so leaving or deleting rooms does not make room
    for a sixth creation. *)
Theorem room_budget_never_refunded (s : Server) (evs : list Event) (nickname : string) :
  Forall staying evs ->
  count (roomsPerUser (rateLimiter s)) nickname
  <= count (roomsPerUser (rateLimiter (foldl exec s evs))) nickname.
Proof.
  intros Hevs. revert s. induction Hevs as [|e evs He _ IH]; intros s; [done|].
  simpl. etrans; [|apply IH].
  apply (staying_invariant
           (fun s s' => count (roomsPerUser (rateLimiter s)) nickname
                        <= count (roomsPerUser (rateLimiter s')) nickname));
    [lia|lia| |done].
  intros s1 s2 Hp. by apply room_budget_kept_prim.
Qed.

Lemma room_budget_never_refunded_witness :
  let s := run (alice_and_bobby
                ++ [Recv 0 (frame_ROOM RoomCreate "" "proj") (3 * Second) (Some "00ff")]) in
  let s' := foldl exec s
              [Recv 0 (frame_ROOM RoomDelete "room_3000000000_00ff" "") (4 * Second) None] in
  rooms s' !! "room_3000000000_00ff" = None
  /\ 1 <= count (roomsPerUser (rateLimiter s')) "alice".
Proof.
  intros s s'. split; [decide_closed|].
  assert (H1 : count (roomsPerUser (rateLimiter s)) "alice" = 1) by decide_closed.
  rewrite <- H1. apply room_budget_never_refunded. by repeat constructor.
Defined.

(** X7: with the limiter within its budgets, removing what was just
    added gives the limiter back: [RemoveConnection] after
    [AddConnection], [RemoveRoom] after [AddRoom] and
    [RemoveFileTransfer] after [AddFileTransfer] are the identity. *)
Theorem limiter_add_remove (rl : RateLimiter) (addr : Addr) (nickname : string) :
  within_limits rl ->
  RemoveConnection addr (AddConnection addr rl) = rl
  /\ RemoveRoom nickname (AddRoom nickname rl) = rl
  /\ RemoveFileTransfer nickname (AddFileTransfer nickname rl) = rl.
Proof.
  intros (Ht & Hip & Hr & Hf & _). destruct rl as [t ips ms rs fs]. simpl in *.
  unfold RemoveConnection, AddConnection, RemoveRoom, AddRoom, RemoveFileTransfer,
    AddFileTransfer. simpl.
  rewrite !decrement_increment.
  - destruct (Z.gtb_spec (t + 1) 0); [|lia].
    by replace (t + 1 - 1) with t by lia.
  - intros v Hv. by apply (Hf _ _ Hv).
  - intros v Hv. by apply (Hr _ _ Hv).
  - intros v Hv. by apply (Hip _ _ Hv).
Qed.

Lemma limiter_add_remove_witness :
  let rl := rateLimiter (run alice_and_bobby) in
  RemoveConnection peer1 (AddConnection peer1 rl) = rl.
Proof.
  intros rl.
  apply (limiter_add_remove rl peer1 "alice").
  apply reachable_within_limits. by eexists.
Defined.

(** ** The cleanup sweeps (cleanup.go) *)

#[global] Instance stale_dec now ft : Decision (stale now ft).
Proof. unfold stale. apply _. Defined.

#[global] Instance abandoned_dec now r : Decision (abandoned now r).
Proof. unfold abandoned. apply _. Defined.

Section Cleanup.

Implicit Types (s : Server) (now : Z).

(** Deleting a list of keys one after the other. *)
Lemma lookup_foldl_delete {V} (l : list string) (m : gmap string V) k :
  foldl (fun m k => delete k m) m l !! k = if decide (k ∈ l) then None else m !! k.
Proof.
  revert m. induction l as [|k0 l IH]; intros m.
  - case_decide as Hin; [|done]. by apply elem_of_nil in Hin.
  - change (foldl (fun m k => delete k m) (delete k0 m) l !! k
            = if decide (k ∈ k0 :: l) then None else m !! k).
    rewrite IH. destruct (decide (k ∈ l)) as [Hin|Hnin].
    + rewrite decide_True; [done|]. by right.
    + destruct (decide (k = k0)) as [->|Hne].
      * rewrite decide_True by left. apply lookup_delete_eq.
      * rewrite decide_False; [by apply lookup_delete_ne|].
        intros Hin. by apply elem_of_cons in Hin as [?|?].
Qed.

(** Deleting the keys whose entry satisfies [P] leaves the others. *)
Lemma foldl_delete_filter {V} (P : string * V -> Prop) `{!forall x, Decision (P x)}
      (m : gmap string V) :
  foldl (fun m k => delete k m) m (map fst (filter P (map_to_list m)))
  = filter (fun kv => ~ P kv) m.
Proof.
  apply map_eq. intros k. rewrite lookup_foldl_delete.
  change (map fst (filter P (map_to_list m))) with (fst <$> filter P (map_to_list m)).
  apply option_eq. intros v. rewrite map_lookup_filter_Some.
  case_decide as Hin.
  - split; [done|]. intros [Hk HnP]. exfalso. apply HnP.
    apply list_elem_of_fmap in Hin as ([k' v'] & -> & Hin).
    apply list_elem_of_filter in Hin as [HP Hin].
    apply elem_of_map_to_list in Hin. simpl in *. congruence.
  - split; [|by intros [? _]]. intros Hk. split; [done|].
    intros HP. apply Hin. apply list_elem_of_fmap. exists (k, v). split; [done|].
    apply list_elem_of_filter. split; [done|]. by apply elem_of_map_to_list.
Qed.

Lemma fileTransfers_deletes s (l : list string) :
  let s' := foldl (fun s fileID => setFileTransfers (delete fileID (fileTransfers s)) s)
                  s l in
  fileTransfers s' = foldl (fun m k => delete k m) (fileTransfers s) l
  /\ sessions s' = sessions s /\ clients s' = clients s /\ rooms s' = rooms s
  /\ rateLimiter s' = rateLimiter s.
Proof.
  revert s. induction l as [|k l IH]; intros s; simpl; [done|].
  destruct (IH (setFileTransfers (delete k (fileTransfers s)) s)) as (-> & -> & -> & -> & ->).
  done.
Qed.

Lemma rooms_deletes s (l : list string) :
  foldl (fun s roomID => setRooms (delete roomID (rooms s)) s) s l
  = setRooms (foldl (fun m k => delete k m) (rooms s) l) s.
Proof.
  revert s. induction l as [|k l IH]; intros s; simpl; [by destruct s|].
  by rewrite IH.
Qed.

(** The first loop of [cleanupFileTransfers] collects the IDs of the
    stale transfers and leaves the transfer registry, the nickname
    registry and the rooms alone. *)
Lemma cleanupOne_fold now (l : list (string * FileTransfer.t)) s acc :
  fileTransfers (foldl (cleanupOne now) (s, acc) l).1 = fileTransfers s
  /\ clients (foldl (cleanupOne now) (s, acc) l).1 = clients s
  /\ rooms (foldl (cleanupOne now) (s, acc) l).1 = rooms s
  /\ (foldl (cleanupOne now) (s, acc) l).2
     = acc ++ map fst (filter (fun kv => stale now kv.2) l).
Proof.
  revert s acc. induction l as [|[k ft] l IH]; intros s acc.
  { simpl. by rewrite app_nil_r. }
  change (foldl (cleanupOne now) (s, acc) ((k, ft) :: l))
    with (foldl (cleanupOne now) (cleanupOne now (s, acc) (k, ft)) l).
  assert (Hone : exists s1,
             cleanupOne now (s, acc) (k, ft)
             = (s1, acc ++ if decide (stale now ft) then [k] else [])
             /\ fileTransfers s1 = fileTransfers s /\ clients s1 = clients s
             /\ rooms s1 = rooms s).
  { unfold cleanupOne. simpl.
    destruct (Z.gtb_spec (now - FileTransfer.StartTime ft) FileTransferTimeout).
    - eexists. split.
      + rewrite decide_True by (unfold stale; lia). reflexivity.
      + unfold sendError, sendTo, update, GetClient. simpl. by repeat case_match.
    - exists s. rewrite decide_False by (unfold stale; lia). by rewrite app_nil_r. }
  destruct Hone as (s1 & -> & Hf & Hc & Hr).
  destruct (IH s1 (acc ++ if decide (stale now ft) then [k] else []))
    as (-> & -> & -> & ->).
  rewrite Hf, Hc, Hr. split_ands; try done.
  rewrite filter_cons. simpl.
  destruct (decide (stale now ft)); simpl; by rewrite <- ?app_assoc, ?app_nil_r.
Qed.

Lemma cleanupFileTransfers_filter now s :
  fileTransfers (cleanupFileTransfers now s)
  = filter (fun kv => ~ stale now kv.2) (fileTransfers s)
  /\ clients (cleanupFileTransfers now s) = clients s
  /\ rooms (cleanupFileTransfers now s) = rooms s.
Proof.
  unfold cleanupFileTransfers.
  pose proof (cleanupOne_fold now (map_to_list (fileTransfers s)) s []) as H.
  destruct (foldl (cleanupOne now) (s, []) (map_to_list (fileTransfers s))) as [s1 del].
  simpl in H. destruct H as (Hf & Hc & Hr & ->).
  destruct (fileTransfers_deletes s1
              (map fst (filter (fun kv => stale now kv.2) (map_to_list (fileTransfers s)))))
    as (-> & _ & -> & -> & _).
  rewrite Hf, Hc, Hr. split; [|done].
  apply (foldl_delete_filter (fun kv => stale now kv.2)).
Qed.

Lemma cleanupEmptyRooms_filter now s :
  cleanupEmptyRooms now s
  = setRooms (filter (fun kv => ~ abandoned now kv.2) (rooms s)) s.
Proof.
  unfold cleanupEmptyRooms. rewrite rooms_deletes. f_equal.
  apply (foldl_delete_filter (fun kv => abandoned now kv.2)).
Qed.

End Cleanup.

(** X8: the sweep of [cleanupFileTransfers] removes from the transfer
    registry exactly the transfers that started more than five minutes
    before the sweep (a transfer that is exactly five minutes old stays),
    and leaves the nickname registry and the rooms as they are. *)
Theorem cleanupFileTransfers_sweeps_the_stale (now : Z) (s : Server) :
  fileTransfers (cleanupFileTransfers now s)
  = filter (fun kv => ~ stale now kv.2) (fileTransfers s)
  /\ clients (cleanupFileTransfers now s) = clients s
  /\ rooms (cleanupFileTransfers now s) = rooms s.
Proof. apply cleanupFileTransfers_filter. Qed.

(** X9: the sweep of [cleanupEmptyRooms] removes exactly the rooms that
    have no member and were created more than thirty minutes before the
    sweep, and changes nothing else of the server; a room that still has
    a member is never removed, however old. *)
Theorem cleanupEmptyRooms_sweeps_the_abandoned (now : Z) (s : Server) :
  cleanupEmptyRooms now s
  = setRooms (filter (fun kv => ~ abandoned now kv.2) (rooms s)) s.
Proof. apply cleanupEmptyRooms_filter. Qed.

(** ** Frames of a session *)

Section Session.

Implicit Types (c : Client.t) (msg : Message) (s : Server) (h : nat).

Lemma reachable_rooms_keyed s : reachable s -> rooms_keyed s.
Proof.
  apply (reachable_invariant rooms_keyed).
  - intros k r Hl. simpl in Hl. by rewrite lookup_empty in Hl.
  - apply rooms_keyed_prim.
Qed.

(** What [ReadPump] does with a frame the session reads. *)
Lemma exec_Recv s h c frame now rnd :
  sessions s !! h = Some c -> is_Some (Client.SendChan c) ->
  exec s (Recv h frame now rnd)
  = match HandleMessage h (stamp s h frame now) now rnd s with
    | (s', None) => s'
    | (s', Some e) => sendError h (Client.Nickname (deref s' h)) e now s'
    end.
Proof.
  intros Hc Hq. simpl. by rewrite (reading_lookup s h c Hc Hq).
Qed.

Lemma not_dispatched ty :
  ty ∉ dispatched ->
  eqs ty TypeConnect = false /\ eqs ty TypeText = false /\ eqs ty TypeStatus = false
  /\ eqs ty TypeRoom = false /\ eqs ty TypeInvite = false
  /\ eqs ty TypeInviteResp = false /\ eqs ty TypeFile = false
  /\ eqs ty TypeFileChunk = false.
Proof.
  intros Hn. unfold dispatched in Hn. rewrite !not_elem_of_cons in Hn.
  split_ands; apply eqs_false; tauto.
Qed.

Lemma RemoveMember_idemp n (r : Room.t) :
  Room.RemoveMember n (Room.RemoveMember n r) = Room.RemoveMember n r.
Proof.
  destruct r. unfold Room.RemoveMember. simpl. f_equal.
  apply set_eq. intros x. rewrite !elem_of_difference. tauto.
Qed.

Lemma RemoveMember_absent n (r : Room.t) :
  n ∉ Room.Members r -> Room.RemoveMember n r = r.
Proof.
  destruct r. unfold Room.RemoveMember. simpl. intros Hn. f_equal.
  apply set_eq. intros x. rewrite elem_of_difference, elem_of_singleton.
  split; [tauto|]. intros Hx. split; [done|]. congruence.
Qed.

(** The rooms after the loop of [UnregisterClient]. *)
Lemma unregister_loop_rooms n now (l : list Room.t) s :
  rooms (foldl (unregisterRoom n now) s l)
  = foldl (fun m room => alter (Room.RemoveMember n) (Room.ID room) m) (rooms s) l.
Proof.
  revert s. induction l as [|room l IH]; intros s; [done|].
  change (foldl (unregisterRoom n now) s (room :: l))
    with (foldl (unregisterRoom n now) (unregisterRoom n now s room) l).
  rewrite IH. simpl. f_equal. unfold unregisterRoom.
  match goal with |- rooms (BroadcastToRoom ?r ?m ?s1) = _ =>
    destruct (BroadcastToRoom_sends r m s1) as (_ & -> & _) end.
  done.
Qed.

Lemma lookup_foldl_RemoveMember n (l : list Room.t) (m : gmap string Room.t) k :
  foldl (fun m room => alter (Room.RemoveMember n) (Room.ID room) m) m l !! k
  = (if decide (k ∈ map Room.ID l) then Room.RemoveMember n else id) <$> m !! k.
Proof.
  revert m. induction l as [|r0 l IH]; intros m.
  { case_decide as Hin; [by apply elem_of_nil in Hin|]. simpl. by destruct (m !! k). }
  change (foldl (fun m room => alter (Room.RemoveMember n) (Room.ID room) m)
            (alter (Room.RemoveMember n) (Room.ID r0) m) l !! k
          = (if decide (k ∈ Room.ID r0 :: map Room.ID l)
             then Room.RemoveMember n else id) <$> m !! k).
  rewrite IH. destruct (decide (k = Room.ID r0)) as [->|Hne].
  - rewrite lookup_alter_eq, (decide_True (P := _ ∈ _ :: _)) by left.
    destruct (m !! Room.ID r0); simpl; [|done].
    case_decide; simpl; [|done]. by rewrite RemoveMember_idemp.
  - rewrite lookup_alter_ne by done.
    destruct (decide (k ∈ map Room.ID l)) as [Hin|Hnin].
    + rewrite decide_True; [done|]. by right.
    + rewrite decide_False; [done|].
      intros Hin. by apply elem_of_cons in Hin as [?|?].
Qed.

Lemma UnregisterClient_rooms s h c now :
  rooms_keyed s -> sessions s !! h = Some c -> Client.Nickname c <> "" ->
  let s' := UnregisterClient h now s in
  rooms s' = Room.RemoveMember (Client.Nickname c) <$> rooms s
  /\ clients s' = delete (Client.Nickname c) (clients s)
  /\ fileTransfers s' = fileTransfers s.
Proof.
  intros Hk Hc Hn. unfold UnregisterClient. rewrite (deref_lookup _ _ _ Hc).
  apply eqs_false in Hn as Hn'. rewrite Hn'. cbv zeta.
  set (n := Client.Nickname c) in *.
  set (s1 := setClients _ s).
  set (disc := NewBroadcastMessage _ _ _).
  pose proof (unregister_loop_rooms n now (GetUserRooms s1 n) s1) as Hr2.
  destruct (unregister_loop_sends n now (GetUserRooms s1 n) s1) as (Hc2 & Hf2 & _ & _).
  set (s2 := foldl _ s1 _) in *.
  destruct (BroadcastMessage_spec disc "" s2) as (Hc3 & Hr3 & Hf3 & _ & _).
  set (s3 := BroadcastMessage disc "" s2) in *.
  destruct (BroadcastMessage_spec (UserListMessage (userList s3)) "" s3)
    as (Hc4 & Hr4 & Hf4 & _ & _).
  fold (BroadcastUserList s3) in Hc4, Hr4, Hf4.
  set (s4 := BroadcastUserList s3) in *.
  assert (Hrooms : rooms s4 = Room.RemoveMember n <$> rooms s).
  { rewrite Hr4, Hr3, Hr2. apply map_eq. intros k.
    rewrite lookup_foldl_RemoveMember, lookup_fmap.
    change (rooms s1) with (rooms s).
    destruct (rooms s !! k) as [r|] eqn:Hl; simpl; [|done].
    case_decide as Hin; [done|]. simpl. f_equal. symmetry.
    apply RemoveMember_absent. intros Hmem. apply Hin.
    change (map Room.ID (GetUserRooms s1 n)) with (Room.ID <$> GetUserRooms s1 n).
    apply list_elem_of_fmap. exists r. split; [symmetry; by apply Hk|].
    unfold GetUserRooms. apply list_elem_of_filter. split.
    - unfold Room.IsMember. by apply bool_decide_eq_true.
    - change (map snd (map_to_list (rooms s1))) with (snd <$> map_to_list (rooms s)).
      apply list_elem_of_fmap. exists (k, r). split; [done|].
      by apply elem_of_map_to_list. }
  assert (Hclients : clients s4 = delete n (clients s)) by (by rewrite Hc4, Hc3, Hc2).
  assert (Hfts : fileTransfers s4 = fileTransfers s) by (by rewrite Hf4, Hf3, Hf2).
  by destruct (Client.RemoteAddr _).
Qed.

End Session.

(** X10: when the write loop of a session with an open socket takes as
    many messages from the channel as it holds, they are written to the
    socket in the order in which they were queued, after what was written
    before; the channel is then empty and no other session is touched. *)
Theorem write_loop_in_order (s : Server) (h : nat) (c : Client.t) (q : list Message) :
  sessions s !! h = Some c -> Client.SendChan c = Some q ->
  Client.ConnClosed c = false ->
  let s' := foldl exec s (replicate (length q) (Write h)) in
  (exists c', sessions s' !! h = Some c'
     /\ Client.ConnWritten c' = Client.ConnWritten c ++ q
     /\ Client.SendChan c' = Some [])
  /\ forall h', h' <> h -> sessions s' !! h' = sessions s !! h'.
Proof.
  intros Hc Hq Hopen s'. unfold s'. split.
  - rewrite sessions_writes, decide_True, Hc by done. simpl.
    eexists. split; [done|]. by apply WriteOne_fifo.
  - intros h' Hne. rewrite sessions_writes, decide_False by done. done.
Qed.

Lemma write_loop_in_order_witness :
  let s := run alice_and_bobby in
  let q := default [] (Client.SendChan (deref s 0)) in
  let s' := foldl exec s (replicate (length q) (Write 0)) in
  sessions s' !! 1%nat = sessions s !! 1%nat.
Proof.
  intros s q s'.
  apply (write_loop_in_order s 0 (deref s 0) q); [decide_closed..|done].
Defined.

(** X11: a frame whose type is none of the eight the dispatcher handles
    (DISCONNECT, ACK, USER_LIST, ERROR and FILE_COMPLETE among them) has
    one effect: the session that sent it is sent the ERROR
    "[VALIDATION] unknown message type: T".  In particular a DISCONNECT
    frame neither unregisters nor closes the session. *)
Theorem unknown_type_is_reported (s : Server) (h : nat) (c : Client.t) (frame : Message)
        (now : Z) (rnd : option string) :
  sessions s !! h = Some c -> is_Some (Client.SendChan c) ->
  MType frame ∉ dispatched ->
  exec s (Recv h frame now rnd)
  = sendTo h (NewErrorMessage "Server" (Client.Nickname c)
                ("[VALIDATION] unknown message type: " +:+ MType frame) now) s.
Proof.
  intros Hc Hq Hty. rewrite (exec_Recv s h c frame now rnd Hc Hq).
  unfold HandleMessage.
  destruct (stamp_fields s h frame now) as (-> & _).
  destruct (not_dispatched _ Hty) as (-> & -> & -> & -> & -> & -> & -> & ->).
  by rewrite (deref_lookup _ _ _ Hc).
Qed.

Lemma unknown_type_is_reported_witness :
  let s := run alice_and_bobby in
  let frame := mkMessage TypeDisconnect "" "" "" "" "" "" "" 0 "" 0 0 [] [] zeroTime "" in
  exec s (Recv 0 frame (3 * Second) None)
  = sendTo 0 (NewErrorMessage "Server" (Client.Nickname (deref s 0))
                ("[VALIDATION] unknown message type: " +:+ TypeDisconnect)
                (3 * Second)) s.
Proof.
  intros s frame.
  apply (unknown_type_is_reported s 0 (deref s 0) frame); [decide_closed..].
Defined.

(** X12: a CONNECT whose nickname is invalid or already in the registry
    (also when the requester itself holds it) registers nothing: the
    requester is sent one ERROR with the reason and its socket is closed;
    the registry, the rooms, the limiter and the requester's own
    nickname stay as they were. *)
Theorem CONNECT_refused (s : Server) (h : nat) (c : Client.t) (frame : Message)
        (now : Z) (rnd : option string) :
  sessions s !! h = Some c -> is_Some (Client.SendChan c) ->
  MType frame = TypeConnect ->
  is_Some (ValidateNickname (Content frame)) \/ is_Some (clients s !! Content frame) ->
  let reason :=
    match ValidateNickname (Content frame) with
    | Some e => e
    | None => "nickname '" +:+ Content frame +:+ "' is already taken"
    end in
  exec s (Recv h frame now rnd)
  = update h Client.ConnClose
      (sendTo h (NewErrorMessage "Server" (Client.Nickname c) reason now) s).
Proof.
  intros Hc Hq Hty Hbad reason. rewrite (exec_Recv s h c frame now rnd Hc Hq).
  unfold HandleMessage.
  destruct (stamp_fields s h frame now) as (-> & -> & _ & _ & -> & _).
  rewrite Hty. change (eqs TypeConnect TypeConnect) with true. cbv iota.
  rewrite (deref_lookup _ _ _ Hc). unfold RegisterClient, reason.
  destruct (ValidateNickname (Content frame)) as [e|]; [done|].
  destruct Hbad as [[? [=]]|[h0 ->]]. done.
Qed.

Lemma CONNECT_refused_witness :
  let s := run alice_and_bobby in
  exec s (Recv 1 (frame_CONNECT "alice") (3 * Second) None)
  = update 1 Client.ConnClose
      (sendTo 1 (NewErrorMessage "Server" (Client.Nickname (deref s 1))
                   "nickname 'alice' is already taken" (3 * Second)) s).
Proof.
  intros s.
  apply (CONNECT_refused s 1 (deref s 1) (frame_CONNECT "alice") (3 * Second) None);
    [decide_closed|decide_closed|reflexivity|right; decide_closed].
Defined.

(** X13: when the read loop of a session with a nickname ends in a
    reachable state, the nickname is deleted from the registry and taken
    out of the member set of every room; no room is removed (an emptied
    room waits for the sweep), invitations are kept, and the transfers
    the nickname takes part in stay in the transfer registry. *)
Theorem disconnect_leaves_every_room (s : Server) (h : nat) (c : Client.t) (now : Z) :
  reachable s ->
  sessions s !! h = Some c -> is_Some (Client.SendChan c) ->
  Client.Nickname c <> "" ->
  let s' := exec s (ReadEnd h now) in
  rooms s' = Room.RemoveMember (Client.Nickname c) <$> rooms s
  /\ clients s' = delete (Client.Nickname c) (clients s)
  /\ fileTransfers s' = fileTransfers s.
Proof.
  intros Hr Hc Hq Hn. simpl. rewrite (reading_lookup s h c Hc Hq).
  unfold ReadPump_exit.
  by apply (UnregisterClient_rooms s h c now (reachable_rooms_keyed s Hr) Hc Hn).
Qed.

Lemma disconnect_leaves_every_room_witness :
  let s := run (alice_and_bobby
                ++ [Recv 0 (frame_ROOM RoomCreate "" "proj") (3 * Second) (Some "00ff")]) in
  rooms (exec s (ReadEnd 0 (4 * Second)))
  = Room.RemoveMember (Client.Nickname (deref s 0)) <$> rooms s.
Proof.
  intros s.
  apply (disconnect_leaves_every_room s 0 (deref s 0) (4 * Second));
    [by eexists|decide_closed..].
Defined.

(** ** TEXT frames *)

Section TextRouting.

Implicit Types (c : Client.t) (msg : Message) (s : Server) (h : nat).

(** The TEXT path up to the routing decision: the limiter has counted the
    message and the content is valid. *)
Lemma handleText_routed s h c frame now rl :
  sessions s !! h = Some c ->
  CanSendMessage (Client.Nickname c) now (rateLimiter s) = (rl, None) ->
  ValidateMessage (Content frame) = None ->
  Recipient frame <> "*" -> Recipient frame <> "" ->
  let msg := stamp s h frame now in
  let s1 := setRateLimiter rl s in
  handleText h msg now s
  = if negb (eqs (Room frame) "") then
      match GetRoom s1 (Room frame) with
      | Some room =>
          if negb (Room.IsMember (Client.Nickname c) room) then
            sendError h (Client.Nickname c) "You are not a member of this room" now s1
          else BroadcastToRoom (Room frame) msg s1
      | None => sendError h (Client.Nickname c) "Room not found" now s1
      end
    else
      match GetClient s1 (Recipient frame) with
      | Some recipient => sendTo h msg (sendTo recipient msg s1)
      | None =>
          sendError h (Client.Nickname c)
            ("User " +:+ Recipient frame +:+ " not found") now s1
      end.
Proof.
  intros Hc Hlim Hval Hr1 Hr2 msg s1. unfold handleText.
  destruct (stamp_fields s h frame now) as (_ & Hcont & Hrcp & Hroom & Hsnd & _).
  fold msg in Hcont, Hrcp, Hroom, Hsnd.
  rewrite (deref_lookup _ _ _ Hc) in *. rewrite Hlim, Hcont, Hval, Hrcp, Hroom, Hsnd.
  apply eqs_false in Hr1, Hr2. by rewrite Hr1, Hr2.
Qed.

End TextRouting.

(** X14: a TEXT frame with a recipient other than "*" and no room, which
    passes the rate limit and the content check, is a private message:
    when the recipient is registered its session is sent the stamped
    frame whatever its status (INVISIBLE too), the sender's session is
    sent a copy (a frame to oneself arrives twice), and no other session
    is sent anything; the sender need not be registered. *)
Theorem private_TEXT_delivery (s : Server) (h : nat) (c : Client.t) (frame : Message)
        (now : Z) (rnd : option string) (r : nat) (rl : RateLimiter) :
  sessions s !! h = Some c -> is_Some (Client.SendChan c) ->
  MType frame = TypeText ->
  Recipient frame <> "*" -> Recipient frame <> "" -> Room frame = "" ->
  CanSendMessage (Client.Nickname c) now (rateLimiter s) = (rl, None) ->
  ValidateMessage (Content frame) = None ->
  clients s !! Recipient frame = Some r ->
  let msg := stamp s h frame now in
  let s' := exec s (Recv h frame now rnd) in
  clients s' = clients s /\ rooms s' = rooms s /\ fileTransfers s' = fileTransfers s
  /\ rateLimiter s' = rl
  /\ forall h',
      sessions s' !! h'
      = SendAll (replicate ((if decide (h' = r) then 1 else 0)
                            + (if decide (h' = h) then 1 else 0)) msg)
          <$> sessions s !! h'.
Proof.
  intros Hc Hq Hty Hr1 Hr2 Hroom Hlim Hval Hrcp msg s'. unfold s'.
  rewrite (exec_Recv_TEXT s h c frame now rnd Hc Hq Hty).
  rewrite (handleText_routed s h c frame now rl Hc Hlim Hval Hr1 Hr2).
  rewrite Hroom. change (negb (eqs "" "")) with false. cbv iota.
  unfold GetClient. simpl clients. rewrite Hrcp.
  split_ands; try done.
  intros h'. rewrite !sessions_sendTo. fold msg. simpl sessions.
  destruct (sessions s !! h') as [c'|]; simpl; [|by repeat case_decide].
  repeat case_decide; subst; try congruence; done.
Qed.

Lemma private_TEXT_delivery_witness :
  let s := run alice_and_bobby in
  let frame := frame_TEXT "bobby" "" "hi" in
  let s' := exec s (Recv 0 frame (3 * Second) None) in
  sessions s' !! 1%nat
  = SendAll (replicate 1 (stamp s 0 frame (3 * Second))) <$> sessions s !! 1%nat.
Proof.
  intros s frame s'.
  pose proof (private_TEXT_delivery s 0 (deref s 0) frame (3 * Second) None 1
                (CanSendMessage "alice" (3 * Second) (rateLimiter s)).1) as H.
  destruct H as (_ & _ & _ & _ & H); [decide_closed|decide_closed|done|done|done|done
                                     |decide_closed|done|decide_closed|].
  exact (H 1%nat).
Defined.

(** X15: a TEXT frame with a room and a recipient other than "*" and "",
    which passes the rate limit and the content check, is a room
    message.  A sender that is not a member of the room only gets an
    ERROR.  From a member, every session receives some number of copies
    of the stamped frame and nothing else, and that number is zero
    exactly for the sessions that are not the registered session of a
    member that is visible or is the sender. *)
Theorem room_TEXT_delivery (s : Server) (h : nat) (c : Client.t) (frame : Message)
        (now : Z) (rnd : option string) (room : Room.t) (rl : RateLimiter) :
  sessions s !! h = Some c -> is_Some (Client.SendChan c) ->
  MType frame = TypeText ->
  Recipient frame <> "*" -> Recipient frame <> "" -> Room frame <> "" ->
  CanSendMessage (Client.Nickname c) now (rateLimiter s) = (rl, None) ->
  ValidateMessage (Content frame) = None ->
  rooms s !! Room frame = Some room ->
  let msg := stamp s h frame now in
  let s' := exec s (Recv h frame now rnd) in
  (Room.IsMember (Client.Nickname c) room = false ->
   s' = sendError h (Client.Nickname c) "You are not a member of this room" now
          (setRateLimiter rl s))
  /\ (Room.IsMember (Client.Nickname c) room = true ->
      clients s' = clients s /\ rooms s' = rooms s
      /\ forall h' c', sessions s !! h' = Some c' ->
           exists k, sessions s' !! h' = Some (SendAll (replicate k msg) c')
             /\ (k = 0%nat <->
                 ~ exists member, member ∈ Room.Members room
                     /\ clients s !! member = Some h'
                     /\ (Client.Status c' <> StatusInvisible
                         \/ member = Client.Nickname c))).
Proof.
  intros Hc Hq Hty Hr1 Hr2 Hroom Hlim Hval Hl msg s'.
  assert (Hexec : s' = if negb (Room.IsMember (Client.Nickname c) room) then
                         sendError h (Client.Nickname c)
                           "You are not a member of this room" now (setRateLimiter rl s)
                       else BroadcastToRoom (Room frame) msg (setRateLimiter rl s)).
  { unfold s'. rewrite (exec_Recv_TEXT s h c frame now rnd Hc Hq Hty).
    rewrite (handleText_routed s h c frame now rl Hc Hlim Hval Hr1 Hr2).
    apply eqs_false in Hroom. rewrite Hroom. unfold GetRoom. simpl. by rewrite Hl. }
  rewrite Hexec. clear Hexec.
  split; intros ->; simpl negb; cbv iota; [done|].
  destruct (BroadcastToRoom_spec (Room frame) room msg (setRateLimiter rl s) Hl)
    as (Hcl & Hrm & _ & _ & Hs).
  split; [done|]. split; [done|].
  intros h' c' Hc'. eexists. split.
  { rewrite Hs. simpl sessions. rewrite Hc'. reflexivity. }
  rewrite length_filter_zero. split.
  - intros Hall (member & Hmem & Hreg & Hvis).
    apply (Hall member); [unfold Room.GetMembers; by apply elem_of_elements|].
    unfold roomTarget, GetClient. simpl clients. rewrite Hreg.
    change (deref (setRateLimiter rl s) h') with (deref s h').
    rewrite (deref_lookup _ _ _ Hc').
    destruct (stamp_fields s h frame now) as (_ & _ & _ & _ & Hsnd & _).
    fold msg in Hsnd. rewrite Hsnd, (deref_lookup _ _ _ Hc).
    destruct Hvis as [Hvis| ->].
    + apply eqs_false in Hvis. by rewrite Hvis.
    + assert (Hself : eqs (Client.Nickname c) (Client.Nickname c) = true)
        by (by apply eqs_true).
      rewrite Hself. simpl. by rewrite andb_false_r.
  - intros Hnone member Hmem Htarget. apply Hnone. exists member.
    unfold Room.GetMembers in Hmem. apply elem_of_elements in Hmem. split; [done|].
    unfold roomTarget, GetClient in Htarget. simpl clients in Htarget.
    destruct (clients s !! member) as [h0|] eqn:Hreg; [|done].
    change (deref (setRateLimiter rl s) h0) with (deref s h0) in Htarget.
    destruct (stamp_fields s h frame now) as (_ & _ & _ & _ & Hsnd & _).
    fold msg in Hsnd. rewrite Hsnd, (deref_lookup _ _ _ Hc) in Htarget.
    destruct (eqs (Client.Status (deref s h0)) StatusInvisible) eqn:Hst;
      destruct (eqs member (Client.Nickname c)) eqn:Hme;
      simpl in Htarget; try done; injection Htarget as ->;
      rewrite (deref_lookup _ _ _ Hc') in Hst; split; try done.
    + right. by apply eqs_true.
    + left. by apply eqs_false.
    + left. by apply eqs_false.
Qed.

Lemma room_TEXT_delivery_witness :
  let s := run (alice_and_bobby
                ++ [Recv 0 (frame_ROOM RoomCreate "" "proj") (3 * Second) (Some "00ff")]) in
  let frame := frame_TEXT "room" "room_3000000000_00ff" "hi" in
  exec s (Recv 1 frame (4 * Second) None)
  = sendError 1 (Client.Nickname (deref s 1)) "You are not a member of this room"
      (4 * Second)
      (setRateLimiter (CanSendMessage "bobby" (4 * Second) (rateLimiter s)).1 s).
Proof.
  intros s frame.
  destruct (room_TEXT_delivery s 1 (deref s 1) frame (4 * Second) None
              (Room.mk "room_3000000000_00ff" "proj" "" "alice" {[ "alice" ]} ∅
                       (3 * Second))
              (CanSendMessage "bobby" (4 * Second) (rateLimiter s)).1) as [H _];
    [decide_closed|decide_closed|done|done|done|done|decide_closed|done|decide_closed|].
  apply H. decide_closed.
Defined.

(** ** ROOM, INVITE and INVITE_RESP frames *)

Section Dispatch.

Implicit Types (c : Client.t) (msg : Message) (s : Server) (h : nat).

Lemma stamp_payload s h frame now :
  Action (stamp s h frame now) = Action frame
  /\ Status (stamp s h frame now) = Status frame
  /\ Filename (stamp s h frame now) = Filename frame
  /\ Filesize (stamp s h frame now) = Filesize frame
  /\ FileID (stamp s h frame now) = FileID frame
  /\ ChunkNum (stamp s h frame now) = ChunkNum frame
  /\ TotalChunks (stamp s h frame now) = TotalChunks frame
  /\ Data (stamp s h frame now) = Data frame.
Proof. by destruct frame. Qed.

(** The frame goes to the handler of its type. *)
Lemma exec_Recv_dispatch s h c frame now rnd :
  sessions s !! h = Some c -> is_Some (Client.SendChan c) ->
  let msg := stamp s h frame now in
  (MType frame = TypeStatus -> exec s (Recv h frame now rnd) = handleStatus h msg now s)
  /\ (MType frame = TypeRoom ->
      exec s (Recv h frame now rnd) = handleRoomMessage h msg now rnd s)
  /\ (MType frame = TypeInvite ->
      exec s (Recv h frame now rnd) = handleInviteMessage h msg now s)
  /\ (MType frame = TypeInviteResp ->
      exec s (Recv h frame now rnd) = handleInviteResponse h msg now s)
  /\ (MType frame = TypeFile ->
      exec s (Recv h frame now rnd) = handleFileTransferInit h msg now s)
  /\ (MType frame = TypeFileChunk ->
      exec s (Recv h frame now rnd) = handleFileChunk h msg s).
Proof.
  intros Hc Hq msg. rewrite (exec_Recv s h c frame now rnd Hc Hq). fold msg.
  unfold HandleMessage. destruct (stamp_fields s h frame now) as (Hty & _).
  fold msg in Hty. rewrite Hty.
  split_ands; intros ->; reflexivity.
Qed.

Lemma sendTo_reading s h msg h' c :
  sessions s !! h' = Some c -> is_Some (Client.SendChan c) ->
  exists c', sessions (sendTo h msg s) !! h' = Some c'
    /\ is_Some (Client.SendChan c') /\ Client.Nickname c' = Client.Nickname c
    /\ Client.Rooms c' = Client.Rooms c.
Proof.
  intros Hc Hq. rewrite sessions_sendTo. case_decide; rewrite Hc; simpl.
  - eexists. split; [done|]. rewrite SendMessage_is_Some, SendMessage_Nickname,
      SendMessage_Rooms. done.
  - by eexists.
Qed.

End Dispatch.

(** X16: an invitation and its acceptance.  When a member of a room
    invites a registered nickname, the room records the invitation; when
    the invited session then answers INVITE_RESP "accept", it becomes a
    member, the invitation is used up, and the room is added to the
    session's own room set. *)
Theorem invitation_accepted (s : Server) (h hr : nat) (c cr : Client.t)
        (inv resp : Message) (now1 now2 : Z) (rnd1 rnd2 : option string)
        (room : Room.t) :
  sessions s !! h = Some c -> is_Some (Client.SendChan c) ->
  sessions s !! hr = Some cr -> is_Some (Client.SendChan cr) ->
  MType inv = TypeInvite -> rooms s !! Room inv = Some room ->
  Room.IsMember (Client.Nickname c) room = true ->
  clients s !! Recipient inv = Some hr -> Client.Nickname cr = Recipient inv ->
  MType resp = TypeInviteResp -> Room resp = Room inv -> Content resp = "accept" ->
  let s1 := exec s (Recv h inv now1 rnd1) in
  let s2 := exec s1 (Recv hr resp now2 rnd2) in
  rooms s1 !! Room inv = Some (Room.InviteUser (Client.Nickname cr) room)
  /\ exists room2 c2,
      rooms s2 !! Room inv = Some room2
      /\ Room.IsMember (Client.Nickname cr) room2 = true
      /\ Room.IsInvited (Client.Nickname cr) room2 = false
      /\ sessions s2 !! hr = Some c2
      /\ Client.IsInRoom (Room.ID room) c2 = true.
Proof.
  intros Hc Hq Hcr Hqr Hty1 Hroom Hmem Hreg Hnick Hty2 Hroom2 Hacc s1 s2.
  set (n := Client.Nickname cr) in *.
  (* the invitation *)
  destruct (exec_Recv_dispatch s h c inv now1 rnd1 Hc Hq) as (_ & _ & Hinv & _).
  specialize (Hinv Hty1). fold s1 in Hinv.
  destruct (stamp_fields s h inv now1) as (_ & _ & Hrcp1 & Hrm1 & _).
  unfold handleInviteMessage in Hinv.
  rewrite Hrm1, Hrcp1, (deref_lookup _ _ _ Hc) in Hinv.
  unfold GetRoom, GetClient in Hinv. rewrite Hroom, Hmem, Hreg in Hinv.
  simpl negb in Hinv. cbv iota zeta in Hinv. rewrite <- Hnick in Hinv. fold n in Hinv.
  assert (Hr1 : rooms s1 !! Room inv = Some (Room.InviteUser n room)).
  { rewrite Hinv. simpl. by rewrite lookup_alter_eq, Hroom. }
  assert (Hs1 : exists c1, sessions s1 !! hr = Some c1
                  /\ is_Some (Client.SendChan c1) /\ Client.Nickname c1 = n
                  /\ Client.Rooms c1 = Client.Rooms cr).
  { rewrite Hinv.
    match goal with |- context [sendTo h ?m1 (sendTo hr ?m2 ?s0)] =>
      destruct (sendTo_reading s0 hr m2 hr cr) as (c0 & Hc0 & Hq0 & Hn0 & Hrs0);
        [done|done|];
      destruct (sendTo_reading (sendTo hr m2 s0) h m1 hr c0)
        as (c1 & Hc1 & Hq1 & Hn1 & Hrs1); [done|done|] end.
    exists c1. split_ands; [done|done|by rewrite Hn1, Hn0|by rewrite Hrs1, Hrs0]. }
  destruct Hs1 as (c1 & Hc1 & Hq1 & Hn1 & Hrs1).
  split; [done|].
  (* the answer *)
  destruct (exec_Recv_dispatch s1 hr c1 resp now2 rnd2 Hc1 Hq1) as (_ & _ & _ & Hresp & _).
  specialize (Hresp Hty2). fold s2 in Hresp.
  destruct (stamp_fields s1 hr resp now2) as (_ & Hcont2 & _ & Hrm2 & _).
  unfold handleInviteResponse in Hresp.
  rewrite Hrm2, Hcont2, (deref_lookup _ _ _ Hc1), Hroom2, Hacc, Hn1 in Hresp.
  unfold GetRoom in Hresp. rewrite Hr1 in Hresp.
  assert (Hinvited : Room.IsInvited n (Room.InviteUser n room) = true).
  { unfold Room.IsInvited, Room.InviteUser. simpl. apply bool_decide_eq_true.
    apply elem_of_union_l. by apply elem_of_singleton. }
  rewrite Hinvited in Hresp. change (eqs "accept" "accept") with true in Hresp.
  cbv iota zeta in Hresp. simpl andb in Hresp. cbv iota in Hresp.
  match type of Hresp with s2 = BroadcastToRoom ?r ?m ?s0 =>
    destruct (BroadcastToRoom_sends r m s0) as (_ & Hrooms & _ & _ & Hsess) end.
  rewrite <- Hresp in Hrooms, Hsess.
  exists (Room.AddMember n (Room.InviteUser n room)).
  destruct (Hsess hr) as [l Hl]. rewrite sessions_sendTo, decide_True in Hl by done.
  simpl in Hl. rewrite lookup_alter_eq, Hc1 in Hl. simpl in Hl.
  eexists. split_ands.
  - rewrite Hrooms. simpl. by rewrite lookup_alter_eq, Hr1.
  - unfold Room.IsMember, Room.AddMember. simpl. apply bool_decide_eq_true.
    apply elem_of_union_l. by apply elem_of_singleton.
  - unfold Room.IsInvited, Room.AddMember. simpl. apply bool_decide_eq_false.
    rewrite elem_of_difference, elem_of_singleton. tauto.
  - exact Hl.
  - unfold Client.IsInRoom. apply bool_decide_eq_true.
    rewrite SendAll_Rooms, SendMessage_Rooms. simpl.
    apply elem_of_union_l. by apply elem_of_singleton.
Qed.

Lemma invitation_accepted_witness :
  let s := run alice_creates_a_room in
  let inv := mkMessage TypeInvite "" "bobby" "room_3000000000_00ff" "" "" "" "" 0 ""
                       0 0 [] [] zeroTime "" in
  let resp := mkMessage TypeInviteResp "" "" "room_3000000000_00ff" "accept" "" "" ""
                        0 "" 0 0 [] [] zeroTime "" in
  rooms (exec s (Recv 0 inv (4 * Second) None)) !! "room_3000000000_00ff"
  = Some (Room.InviteUser (Client.Nickname (deref s 1)) the_room).
Proof.
  intros s inv resp.
  apply (invitation_accepted s 0 1 (deref s 0) (deref s 1) inv resp
           (4 * Second) (5 * Second) None None the_room); decide_closed.
Defined.

(** X17: an INVITE_RESP for an existing room that is neither a
    "decline" nor the "accept" of an invited nickname is dropped
    silently: the state is left as it is and nothing is sent, not even
    to the session that answered. *)
Theorem uninvited_accept_is_ignored (s : Server) (h : nat) (c : Client.t)
        (frame : Message) (now : Z) (rnd : option string) (room : Room.t) :
  sessions s !! h = Some c -> is_Some (Client.SendChan c) ->
  MType frame = TypeInviteResp -> rooms s !! Room frame = Some room ->
  Content frame <> "decline" ->
  (Content frame = "accept" -> Room.IsInvited (Client.Nickname c) room = false) ->
  exec s (Recv h frame now rnd) = s.
Proof.
  intros Hc Hq Hty Hroom Hdec Hacc.
  destruct (exec_Recv_dispatch s h c frame now rnd Hc Hq) as (_ & _ & _ & Hx & _).
  rewrite (Hx Hty). clear Hx.
  destruct (stamp_fields s h frame now) as (_ & Hcont & _ & Hrm & _).
  unfold handleInviteResponse.
  rewrite Hrm, Hcont, (deref_lookup _ _ _ Hc). unfold GetRoom. rewrite Hroom.
  apply eqs_false in Hdec. rewrite Hdec.
  destruct (eqs (Content frame) "accept") eqn:Heq; [|done].
  apply eqs_true in Heq. by rewrite (Hacc Heq).
Qed.

Lemma uninvited_accept_is_ignored_witness :
  let s := run alice_creates_a_room in
  let resp := mkMessage TypeInviteResp "" "" "room_3000000000_00ff" "accept" "" "" ""
                        0 "" 0 0 [] [] zeroTime "" in
  exec s (Recv 1 resp (4 * Second) None) = s.
Proof.
  intros s resp.
  apply (uninvited_accept_is_ignored s 1 (deref s 1) resp (4 * Second) None the_room);
    [decide_closed..|intros _; decide_closed].
Defined.

(** X18: KICK and DELETE are for the creator of the room.  From any
    other session either frame has one effect: the sender is sent the
    ERROR that says so. *)
Theorem only_the_creator_kicks_or_deletes (s : Server) (h : nat) (c : Client.t)
        (frame : Message) (now : Z) (rnd : option string) (room : Room.t) :
  sessions s !! h = Some c -> is_Some (Client.SendChan c) ->
  MType frame = TypeRoom ->
  Action frame = RoomKick \/ Action frame = RoomDelete ->
  rooms s !! Room frame = Some room ->
  Room.Creator room <> Client.Nickname c ->
  let text :=
    if eqs (Action frame) RoomKick then "Only the room creator can kick members"
    else "Only the room creator can delete the room" in
  exec s (Recv h frame now rnd) = sendError h (Client.Nickname c) text now s.
Proof.
  intros Hc Hq Hty Hact Hroom Hcr text. unfold text.
  destruct (exec_Recv_dispatch s h c frame now rnd Hc Hq) as (_ & Hx & _).
  rewrite (Hx Hty). clear Hx.
  destruct (stamp_fields s h frame now) as (_ & _ & _ & Hrm & _).
  destruct (stamp_payload s h frame now) as (Hac & _).
  unfold handleRoomMessage. rewrite Hac, Hrm, (deref_lookup _ _ _ Hc).
  unfold GetRoom. rewrite Hroom.
  apply eqs_false in Hcr. rewrite Hcr.
  destruct Hact as [-> | ->]; reflexivity.
Qed.

Lemma only_the_creator_kicks_or_deletes_witness :
  let s := run alice_creates_a_room in
  exec s (Recv 1 (frame_ROOM RoomDelete "room_3000000000_00ff" "") (4 * Second) None)
  = sendError 1 (Client.Nickname (deref s 1))
      "Only the room creator can delete the room" (4 * Second) s.
Proof.
  intros s.
  apply (only_the_creator_kicks_or_deletes s 1 (deref s 1)
           (frame_ROOM RoomDelete "room_3000000000_00ff" "") (4 * Second) None the_room);
    [decide_closed|decide_closed|decide_closed|by right|decide_closed|decide_closed].
Defined.

(** ** DELETE and STATUS *)

Section Delete.

Implicit Types (c : Client.t) (msg : Message) (s : Server) (h : nat).

Lemma without_twice rid b1 b2 R :
  without rid b2 (without rid b1 R) = without rid (b1 || b2) R.
Proof.
  destruct b1, b2; simpl; try done.
  apply set_eq. intros x. rewrite !elem_of_difference. tauto.
Qed.

Lemma Rooms_sendTo s h msg h' :
  Client.Rooms <$> sessions (sendTo h msg s) !! h' = Client.Rooms <$> sessions s !! h'.
Proof.
  rewrite sessions_sendTo. case_decide; [|done].
  destruct (sessions s !! h'); simpl; [|done]. by rewrite SendMessage_Rooms.
Qed.

Lemma deleteOne_frame room rid s member :
  let s' := deleteOne room rid s member in
  clients s' = clients s /\ rooms s' = rooms s /\ fileTransfers s' = fileTransfers s
  /\ rateLimiter s' = rateLimiter s
  /\ forall h',
      Client.Rooms <$> sessions s' !! h'
      = without rid (bool_decide (clients s !! member = Some h'))
          <$> (Client.Rooms <$> sessions s !! h').
Proof.
  unfold deleteOne, GetClient. destruct (clients s !! member) as [mc|] eqn:Hm; cbv zeta.
  - split_ands; try done. intros h'. rewrite Rooms_sendTo. simpl.
    rewrite lookup_alter. case_decide as Hh.
    + subst. rewrite bool_decide_eq_true_2 by done.
      by destruct (sessions s !! h').
    + rewrite bool_decide_eq_false_2 by congruence.
      by destruct (sessions s !! h').
  - split_ands; try done. intros h'. rewrite bool_decide_eq_false_2 by done.
    by destruct (sessions s !! h').
Qed.

(** The loop of the DELETE case: the room is taken out of the room set
    of every session that is the registered session of a visited
    member. *)
Lemma deleteOne_fold room rid (l : list string) (cl : gmap string nat) s :
  clients s = cl ->
  let s' := foldl (deleteOne room rid) s l in
  clients s' = cl /\ rooms s' = rooms s /\ fileTransfers s' = fileTransfers s
  /\ rateLimiter s' = rateLimiter s
  /\ forall h',
      Client.Rooms <$> sessions s' !! h'
      = without rid (bool_decide (Exists (fun m => cl !! m = Some h') l))
          <$> (Client.Rooms <$> sessions s !! h').
Proof.
  revert s. induction l as [|m l IH]; intros s Hcl.
  { change (foldl (deleteOne room rid) s []) with s. cbv zeta.
    split_ands; try done. intros h'.
    rewrite bool_decide_eq_false_2 by (intros Hex; by apply Exists_nil in Hex).
    by destruct (sessions s !! h'). }
  change (foldl (deleteOne room rid) s (m :: l))
    with (foldl (deleteOne room rid) (deleteOne room rid s m) l).
  destruct (deleteOne_frame room rid s m) as (Hc1 & Hr1 & Hf1 & Hl1 & Hs1).
  destruct (IH (deleteOne room rid s m)) as (Hc & Hr & Hf & Hl & Hs);
    [by rewrite Hc1|].
  cbv zeta. rewrite Hc, Hr, Hf, Hl. split_ands; try done.
  intros h'. rewrite Hs, Hs1, Hcl.
  destruct (Client.Rooms <$> sessions s !! h') as [R|]; simpl; [|done].
  rewrite without_twice.
  assert (Hb : bool_decide (cl !! m = Some h')
               || bool_decide (Exists (fun m => cl !! m = Some h') l)
               = bool_decide (Exists (fun m => cl !! m = Some h') (m :: l))).
  { apply eq_true_iff_eq.
    by rewrite orb_true_iff, !bool_decide_eq_true, Exists_cons. }
  by rewrite Hb.
Qed.

Lemma Rooms_SendAll_lookup (m m' : gmap nat Client.t) h' l :
  m' !! h' = SendAll l <$> m !! h' ->
  Client.Rooms <$> m' !! h' = Client.Rooms <$> m !! h'.
Proof.
  intros ->. destruct (m !! h'); simpl; [|done]. by rewrite SendAll_Rooms.
Qed.

Lemma Status_SendAll_lookup (m m' : gmap nat Client.t) h' l :
  m' !! h' = SendAll l <$> m !! h' ->
  Client.Status <$> m' !! h' = Client.Status <$> m !! h'.
Proof.
  intros ->. destruct (m !! h'); simpl; [|done]. by rewrite SendAll_Status.
Qed.

End Delete.

(** X19: a DELETE by the creator of the room (member or not) removes the
    room from the room registry and takes its ID out of the room set of
    every session that is the registered session of one of its members;
    the room sets of all other sessions, the nickname registry, and the
    limiter (the creator's room budget included) stay as they were. *)
Theorem DELETE_by_the_creator (s : Server) (h : nat) (c : Client.t) (frame : Message)
        (now : Z) (rnd : option string) (room : Room.t) :
  sessions s !! h = Some c -> is_Some (Client.SendChan c) ->
  MType frame = TypeRoom -> Action frame = RoomDelete ->
  rooms s !! Room frame = Some room ->
  Room.Creator room = Client.Nickname c ->
  let s' := exec s (Recv h frame now rnd) in
  rooms s' = delete (Room frame) (rooms s)
  /\ clients s' = clients s /\ rateLimiter s' = rateLimiter s
  /\ forall h' c', sessions s !! h' = Some c' ->
       exists c'', sessions s' !! h' = Some c''
         /\ Client.Rooms c''
            = if bool_decide (Exists (fun m => clients s !! m = Some h')
                                (Room.GetMembers room))
              then Client.Rooms c' ∖ {[ Room frame ]} else Client.Rooms c'.
Proof.
  intros Hc Hq Hty Hact Hroom Hcr s'. unfold s'.
  destruct (exec_Recv_dispatch s h c frame now rnd Hc Hq) as (_ & Hx & _).
  rewrite (Hx Hty). clear Hx.
  destruct (stamp_fields s h frame now) as (_ & _ & _ & Hrm & _).
  destruct (stamp_payload s h frame now) as (Hac & _).
  unfold handleRoomMessage. rewrite Hac, Hrm, Hact, (deref_lookup _ _ _ Hc).
  change (eqs RoomDelete RoomCreate) with false.
  change (eqs RoomDelete RoomJoin) with false.
  change (eqs RoomDelete RoomLeave) with false.
  change (eqs RoomDelete RoomMembers) with false.
  change (eqs RoomDelete RoomKick) with false.
  change (eqs RoomDelete RoomDelete) with true. cbv iota.
  unfold GetRoom. rewrite Hroom.
  assert (Hself : eqs (Room.Creator room) (Client.Nickname c) = true)
    by (by apply eqs_true).
  rewrite Hself. simpl negb. cbv iota zeta.
  match goal with |- context [BroadcastToRoom ?r ?m s] =>
    destruct (BroadcastToRoom_sends r m s) as (Hc1 & Hr1 & _ & Hl1 & Hs1);
    set (s1 := BroadcastToRoom r m s) in * end.
  destruct (deleteOne_fold room (Room frame) (Room.GetMembers room) (clients s) s1 Hc1)
    as (Hc2 & Hr2 & _ & Hl2 & Hs2).
  set (s2 := foldl _ s1 _) in *.
  simpl. rewrite Hr2, Hr1, Hc2, Hl2, Hl1. split_ands; try done.
  intros h' c' Hc'.
  assert (HR : Client.Rooms <$> sessions s2 !! h'
               = Some (without (Room frame)
                         (bool_decide (Exists (fun m => clients s !! m = Some h')
                                         (Room.GetMembers room)))
                         (Client.Rooms c'))).
  { rewrite Hs2. destruct (Hs1 h') as [l Hl].
    rewrite (Rooms_SendAll_lookup _ _ _ _ Hl), Hc'. done. }
  destruct (sessions s2 !! h') as [c2|] eqn:Hc2'; simpl in HR; [|done].
  injection HR as HR. unfold without in HR.
  rewrite lookup_alter.
  case_decide; subst; rewrite Hc2'; simpl; eexists; (split; [done|]);
    by rewrite ?SendMessage_Rooms.
Qed.

Lemma DELETE_by_the_creator_witness :
  let s := run alice_creates_a_room in
  rooms (exec s (Recv 0 (frame_ROOM RoomDelete "room_3000000000_00ff" "")
                   (4 * Second) None))
  = delete "room_3000000000_00ff" (rooms s).
Proof.
  intros s.
  apply (DELETE_by_the_creator s 0 (deref s 0)
           (frame_ROOM RoomDelete "room_3000000000_00ff" "") (4 * Second) None the_room);
    decide_closed.
Defined.

(** X20: a STATUS frame sets the status of the session to whatever text
    the frame carries (it is not checked against ACTIVE, BUSY and
    INVISIBLE, and the session need not be registered); the status of no
    other session, the registry, the rooms and the limiter are
    changed. *)
Theorem STATUS_is_taken_as_sent (s : Server) (h : nat) (c : Client.t) (frame : Message)
        (now : Z) (rnd : option string) :
  sessions s !! h = Some c -> is_Some (Client.SendChan c) ->
  MType frame = TypeStatus ->
  let s' := exec s (Recv h frame now rnd) in
  Client.Status <$> sessions s' !! h = Some (Status frame)
  /\ (forall h', h' <> h ->
        Client.Status <$> sessions s' !! h' = Client.Status <$> sessions s !! h')
  /\ clients s' = clients s /\ rooms s' = rooms s /\ rateLimiter s' = rateLimiter s.
Proof.
  intros Hc Hq Hty s'. unfold s'.
  destruct (exec_Recv_dispatch s h c frame now rnd Hc Hq) as (Hx & _).
  rewrite (Hx Hty). clear Hx.
  destruct (stamp_payload s h frame now) as (_ & Hst & _).
  unfold handleStatus. rewrite Hst. cbv zeta.
  set (s1 := update h (Client.SetStatus (Status frame)) s).
  destruct (BroadcastMessage_spec (UserListMessage (userList s1)) "" s1)
    as (Hc2 & Hr2 & _ & Hl2 & Hs2).
  fold (BroadcastUserList s1) in Hc2, Hr2, Hl2, Hs2.
  set (s2 := BroadcastUserList s1) in *.
  match goal with |- context [BroadcastMessage ?m ?x s2] =>
    destruct (BroadcastMessage_spec m x s2) as (Hc3 & Hr3 & _ & Hl3 & Hs3) end.
  rewrite Hc3, Hr3, Hl3, Hc2, Hr2, Hl2.
  split_ands; try done.
  - rewrite (Status_SendAll_lookup _ _ _ _ (Hs3 h)),
      (Status_SendAll_lookup _ _ _ _ (Hs2 h)).
    unfold s1. simpl. by rewrite lookup_alter_eq, Hc.
  - intros h' Hne.
    rewrite (Status_SendAll_lookup _ _ _ _ (Hs3 h')),
      (Status_SendAll_lookup _ _ _ _ (Hs2 h')).
    unfold s1. simpl. by rewrite lookup_alter_ne.
Qed.

Lemma STATUS_is_taken_as_sent_witness :
  let s := run alice_and_bobby in
  Client.Status <$> sessions (exec s (Recv 0 (frame_STATUS "AWAY") (3 * Second) None))
                      !! 0%nat
  = Some "AWAY".
Proof.
  intros s.
  apply (STATUS_is_taken_as_sent s 0 (deref s 0) (frame_STATUS "AWAY") (3 * Second) None);
    decide_closed.
Defined.

(** ** Sessions over time *)

Section Evolution.

Implicit Types (c : Client.t) (msg : Message) (s : Server) (h : nat).

Lemma evolves_refl s : evolves s s.
Proof. intros h c Hc. exists c. split; [done|apply session_step_refl]. Qed.

Lemma evolves_trans s1 s2 s3 : evolves s1 s2 -> evolves s2 s3 -> evolves s1 s3.
Proof.
  intros H12 H23 h c Hc. destruct (H12 h c Hc) as (c2 & Hc2 & Hs2).
  destruct (H23 h c2 Hc2) as (c3 & Hc3 & Hs3). exists c3. split; [done|].
  by eapply session_step_trans.
Qed.

Lemma evolves_update s h f :
  (forall c, session_step c (f c)) -> evolves s (update h f s).
Proof.
  intros Hf h' c Hc. simpl. rewrite lookup_alter. case_decide.
  - subst. rewrite Hc. simpl. eauto.
  - exists c. split; [done|apply session_step_refl].
Qed.

Lemma evolves_prim s s' : prim true s s' -> evolves s s'.
Proof.
  intros Hp.
  destruct Hp;
    try (intros h' c Hc; exists c; split; [exact Hc|apply session_step_refl]).
  - intros h' c Hc. simpl. rewrite lookup_insert_ne by congruence.
    exists c. split; [done|apply session_step_refl].
  - apply evolves_update. intros c. apply H.
  - apply evolves_update. intros c. apply session_step_setNickname.
Qed.

Lemma evolves_exec s e : evolves s (exec s e).
Proof.
  pose proof (steps_exec s e) as Hs.
  induction Hs; [apply evolves_refl|].
  eapply evolves_trans; [by apply evolves_prim|done].
Qed.

Lemma evolves_events s evs : evolves s (foldl exec s evs).
Proof.
  revert s. induction evs as [|e evs IH]; intros s; [apply evolves_refl|].
  simpl. eapply evolves_trans; [apply evolves_exec|apply IH].
Qed.

Lemma closed_exec s e h : closed s h -> closed (exec s e) h.
Proof.
  intros (c & Hc & Hq). destruct (evolves_exec s e h c Hc) as (c' & Hc' & Hs).
  exists c'. split; [done|]. by apply Hs.
Qed.

End Evolution.

(** X21: whatever events happen, a session of the store stays in the
    store with the ID and the remote address it was given; a channel
    that was closed is never reopened, a socket that was closed stays
    closed and nothing more is written to it, and what was written to a
    socket is only ever extended at its end. *)
Theorem sessions_only_move_forward (s : Server) (evs : list Event) (h : nat)
        (c : Client.t) :
  sessions s !! h = Some c ->
  exists c', sessions (foldl exec s evs) !! h = Some c'
    /\ Client.ID c' = Client.ID c
    /\ Client.RemoteAddr c' = Client.RemoteAddr c
    /\ (Client.SendChan c = None -> Client.SendChan c' = None)
    /\ (Client.ConnClosed c = true ->
        Client.ConnClosed c' = true /\ Client.ConnWritten c' = Client.ConnWritten c)
    /\ exists l, Client.ConnWritten c' = Client.ConnWritten c ++ l.
Proof.
  intros Hc.
  destruct (evolves_events s evs h c Hc) as (c' & Hc' & H1 & H2 & _ & H4 & H5 & H6).
  exists c'. by split_ands.
Qed.

Lemma sessions_only_move_forward_witness :
  let s := run alice_and_bobby in
  exists c', sessions (foldl exec s [Write 0; ReadEnd 0 (3 * Second); Write 0]) !! 0%nat
             = Some c'
    /\ Client.ID c' = Client.ID (deref s 0).
Proof.
  intros s.
  destruct (sessions_only_move_forward s [Write 0; ReadEnd 0 (3 * Second); Write 0] 0
              (deref s 0)) as (c' & Hc' & Hid & _); [decide_closed|].
  exists c'. split; [exact Hc'|exact Hid].
Defined.

Create HintDb quiet.

Section Ownership.

Implicit Types (c : Client.t) (msg : Message) (s : Server) (h : nat).

#[local] Hint Resolve keeps_refl keeps_sendTo keeps_sendError keeps_setRooms
  keeps_updateRoom keeps_setFileTransfers keeps_setRateLimiter
  keeps_BroadcastMessage keeps_BroadcastUserList keeps_BroadcastToRoom : quiet.

Lemma owns_keeps s s' :
  keeps s s' -> (forall h, closed s h -> closed s' h) -> owns s -> owns s'.
Proof.
  intros [Hcl Hn] Hclosed Ho h c' Hs' Hq' Hne.
  specialize (Hn h). rewrite Hs' in Hn. simpl in Hn.
  destruct (sessions s !! h) as [c|] eqn:Hs; [|done]. simpl in Hn.
  injection Hn as Hn. rewrite Hcl, Hn. apply Ho; [done| |congruence].
  destruct (Client.SendChan c) eqn:Hq; [done|].
  destruct (Hclosed h) as (c2 & Hc2 & Hq2); [by exists c|].
  rewrite Hs' in Hc2. injection Hc2 as <-. rewrite Hq2 in Hq'. by destruct Hq'.
Qed.

Lemma keeps_HandleMessage_other h msg now rnd s :
  eqs (MType msg) TypeConnect = false -> keeps s (HandleMessage h msg now rnd s).1.
Proof.
  intros Hty. unfold HandleMessage. rewrite Hty.
  repeat case_match; simpl;
    eauto using keeps_handleText, keeps_handleStatus, keeps_handleRoomMessage,
      keeps_handleInviteMessage, keeps_handleInviteResponse,
      keeps_handleFileTransferInit, keeps_handleFileChunk, keeps_refl.
Qed.

(** [RegisterClient] either refuses and changes nothing, or assigns the
    nickname, stores the session under it, and sends messages. *)
Lemma RegisterClient_cases h n now s :
  (exists e, RegisterClient h n now s = (s, Some e))
  \/ (ValidateNickname n = None /\ clients s !! n = None
      /\ exists s', RegisterClient h n now s = (s', None)
           /\ keeps (setClients (<[n := h]> (clients s))
                       (update h (Client.setNickname n) s)) s').
Proof.
  unfold RegisterClient.
  destruct (ValidateNickname n) as [e|]; [left; by eexists|].
  destruct (clients s !! n) as [h0|]; [left; by eexists|].
  right. split_ands; try done. eexists. split; [reflexivity|].
  eauto 8 with quiet.
Qed.

Lemma keeps_UnregisterClient h now s :
  let n := Client.Nickname (deref s h) in
  n <> "" -> keeps (setClients (delete n (clients s)) s) (UnregisterClient h now s).
Proof.
  intros n Hn. unfold UnregisterClient. fold n.
  apply eqs_false in Hn. rewrite Hn. cbv zeta.
  case_match; repeat first
    [ apply keeps_setRateLimiter | apply keeps_BroadcastUserList
    | apply keeps_BroadcastMessage ];
    (apply keeps_foldl; [intros; apply keeps_unregisterRoom|apply keeps_refl]).
Qed.

Lemma owns_exec s e : owns s -> owns (exec s e).
Proof.
  intros Ho.
  assert (Hquiet : keeps s (exec s e) -> owns (exec s e)).
  { intros Hk. apply (owns_keeps s); [done| |done]. intros h. apply closed_exec. }
  pose proof (fun h' => closed_exec s e h') as Hclosed.
  destruct e as [h id addr|h frame now rnd|h now|h|h now|now|now]; simpl in *.
  - destruct (sessions s !! h) eqn:Hh; [done|].
    destruct (CanConnect (rateLimiter s) addr); [done|].
    intros h' c'. simpl. rewrite lookup_insert_Some.
    intros [[<- <-]|[Hne Hc']]; [done|]. by apply Ho.
  - destruct (reading s h) eqn:Hr; [|done]. unfold ReadPump_step in *.
    set (msg := setTimestamp now (setSender (Client.Nickname (deref s h)) frame)) in *.
    destruct (eqs (MType msg) TypeConnect) eqn:Hty.
    2:{ apply Hquiet.
        pose proof (keeps_HandleMessage_other h msg now rnd s Hty) as Hk.
        destruct (HandleMessage h msg now rnd s) as [s1 [e|]]; simpl in Hk; [|done].
        by apply keeps_sendError. }
    unfold HandleMessage in *. rewrite Hty in *.
    destruct (RegisterClient_cases h (Content msg) now s)
      as [[e He]|(Hval & Hfree & s' & Hs' & Hk)].
    { rewrite He in *. apply Hquiet. eauto 6 with quiet.
      apply keeps_update; [done|]. eauto with quiet. }
    rewrite Hs' in *. clear Hquiet.
    set (n := Content msg) in *.
    set (s1 := setClients (<[n := h]> (clients s)) (update h (Client.setNickname n) s))
      in *.
    apply (owns_keeps s1); [by apply keeps_sendTo| |].
    + intros h' (c1 & Hc1 & Hq1). apply Hclosed.
      unfold s1 in Hc1. simpl in Hc1. rewrite lookup_alter in Hc1.
      case_decide.
      * subst h'. destruct (sessions s !! h) as [c0|] eqn:Hc0; [|done].
        simpl in Hc1. injection Hc1 as <-. by exists c0.
      * by exists c1.
    + intros h' c1 Hc1 Hq1 Hne. unfold s1 in Hc1 |- *. simpl in Hc1 |- *.
      rewrite lookup_alter in Hc1. case_decide.
      * subst h'. destruct (sessions s !! h) as [c0|]; [|done].
        simpl in Hc1. injection Hc1 as <-. simpl. by rewrite lookup_insert_eq.
      * pose proof (Ho h' c1 Hc1 Hq1 Hne) as Hown.
        rewrite lookup_insert_ne; [done|]. intros Heq. rewrite <- Heq in Hown.
        congruence.
  - destruct (reading s h) eqn:Hr; [|done]. clear Hquiet.
    unfold reading in Hr. destruct (sessions s !! h) as [c|] eqn:Hc; [|done].
    apply bool_decide_eq_true in Hr. unfold ReadPump_exit.
    assert (Hgone : forall h' c', sessions (update h Client.Close
                                              (UnregisterClient h now s)) !! h' = Some c' ->
                      is_Some (Client.SendChan c') -> h' <> h).
    { intros h' c' Hc' Hq' ->. simpl in Hc'. rewrite lookup_alter_eq in Hc'.
      destruct (sessions (UnregisterClient h now s) !! h); [|done].
      simpl in Hc'. injection Hc' as <-. simpl in Hq'. by destruct Hq'. }
    assert (Hlive : forall h' c', sessions (update h Client.Close
                                              (UnregisterClient h now s)) !! h' = Some c' ->
                      is_Some (Client.SendChan c') ->
                      forall c0, sessions s !! h' = Some c0 -> is_Some (Client.SendChan c0)).
    { intros h' c' Hc' Hq' c0 Hc0.
      destruct (Client.SendChan c0) eqn:Hq0; [done|].
      destruct (closed_exec s (ReadEnd h now) h') as (c2 & Hc2 & Hq2); [by exists c0|].
      simpl in Hc2. unfold reading in Hc2. rewrite Hc in Hc2.
      rewrite (bool_decide_eq_true_2 _ Hr) in Hc2. unfold ReadPump_exit in Hc2.
      rewrite Hc' in Hc2. injection Hc2 as <-. rewrite Hq2 in Hq'. by destruct Hq'. }
    destruct (decide (Client.Nickname c = "")) as [Hempty|Hnick].
    + unfold UnregisterClient in *. rewrite (deref_lookup _ _ _ Hc) in *.
      apply eqs_true in Hempty. rewrite Hempty in *.
      intros h' c' Hc' Hq' Hne. pose proof (Hgone h' c' Hc' Hq') as Hh.
      simpl in Hc' |- *. rewrite lookup_alter_ne in Hc' by done. by apply Ho.
    + pose proof (keeps_UnregisterClient h now s) as Hk.
      rewrite (deref_lookup _ _ _ Hc) in Hk. specialize (Hk Hnick).
      assert (Hk' : keeps (setClients (delete (Client.Nickname c) (clients s)) s)
                      (update h Client.Close (UnregisterClient h now s))).
      { apply keeps_update; [done|exact Hk]. }
      destruct Hk' as [Hcl Hn].
      intros h' c' Hc' Hq' Hne. pose proof (Hgone h' c' Hc' Hq') as Hh.
      specialize (Hn h'). rewrite Hc' in Hn. simpl in Hn.
      destruct (sessions s !! h') as [c0|] eqn:Hc0; [|done]. simpl in Hn.
      injection Hn as Hn. rewrite Hcl, Hn. simpl.
      pose proof (Ho h' c0 Hc0 (Hlive h' c' Hc' Hq' c0 Hc0)) as Hown.
      rewrite <- Hn in Hown. specialize (Hown Hne). rewrite Hn in Hown.
      rewrite lookup_delete_ne; [done|]. intros Heq.
      pose proof (Ho h c Hc Hr Hnick) as Hown'. rewrite Heq in Hown'. congruence.
  - apply Hquiet. apply keeps_update; [|apply keeps_refl].
    intros c. unfold Client.WriteOne. by repeat case_match.
  - apply Hquiet. apply keeps_update; [|apply keeps_refl].
    intros c. unfold Client.WritePing. by repeat case_match.
  - apply Hquiet.
    eapply keeps_trans; [apply keeps_cleanupFileTransfers|apply keeps_cleanupEmptyRooms].
  - apply Hquiet. eauto with quiet.
Qed.

Lemma reachable_owns s : reachable s -> owns s.
Proof.
  intros [evs <-]. unfold run.
  induction evs as [|e evs IH] using rev_ind.
  - intros h c Hc. simpl in Hc. by rewrite lookup_empty in Hc.
  - rewrite foldl_app. simpl. by apply owns_exec.
Qed.

End Ownership.

(** X22: in every reachable state a session whose read loop runs and
    that has a nickname is the session the registry stores under that
    nickname. *)
Theorem live_session_owns_its_nickname (s : Server) (h : nat) (c : Client.t) :
  reachable s ->
  sessions s !! h = Some c -> is_Some (Client.SendChan c) ->
  Client.Nickname c <> "" ->
  clients s !! Client.Nickname c = Some h.
Proof. intros Hr. by apply reachable_owns. Qed.

Lemma live_session_owns_its_nickname_witness :
  let s := run alice_and_bobby in
  clients s !! Client.Nickname (deref s 1) = Some 1%nat.
Proof.
  intros s. apply live_session_owns_its_nickname; [by eexists|decide_closed..].
Defined.

(** X23: nicknames are unique among the sessions whose read loop runs:
    in a reachable state two such sessions never carry the same non-empty
    nickname. *)
Theorem nicknames_are_unique (s : Server) (h1 h2 : nat) (c1 c2 : Client.t) :
  reachable s ->
  sessions s !! h1 = Some c1 -> is_Some (Client.SendChan c1) ->
  sessions s !! h2 = Some c2 -> is_Some (Client.SendChan c2) ->
  Client.Nickname c1 <> "" -> Client.Nickname c1 = Client.Nickname c2 ->
  h1 = h2.
Proof.
  intros Hr Hc1 Hq1 Hc2 Hq2 Hne Heq.
  pose proof (reachable_owns s Hr h1 c1 Hc1 Hq1 Hne) as H1.
  pose proof (reachable_owns s Hr h2 c2 Hc2 Hq2) as H2.
  rewrite <- Heq in H2. specialize (H2 Hne). congruence.
Qed.

Lemma nicknames_are_unique_witness :
  let s := run alice_and_bobby in
  Client.Nickname (deref s 0) <> "" /\ 0%nat = 0%nat.
Proof.
  intros s. split; [decide_closed|].
  apply (nicknames_are_unique s 0 0 (deref s 0) (deref s 0));
    [by eexists|decide_closed..].
Defined.

(** ** File transfers and the limiter's clock *)

Section Files.

Implicit Types (c : Client.t) (msg : Message) (s : Server) (h : nat).

Lemma size_insert_pos (k : Z) (d : list ascii) (m : gmap Z (list ascii)) :
  (0 < size (<[k := d]> m))%nat.
Proof.
  destruct (size (<[k := d]> m)) eqn:Hs; [|lia].
  apply map_size_empty_iff in Hs. by apply insert_non_empty in Hs.
Qed.

End Files.

(** X24: the life of an announced transfer.  A FILE frame that passes
    the limiter and the checks of name and size, for a registered
    recipient, stores the transfer under the frame's ID with the server's
    clock reading as its start time (whatever timestamp the frame
    carried) and counts it for the sender; a cleanup sweep more than
    five minutes after that reading removes it, an earlier sweep leaves
    it. *)
Theorem announced_transfer_expires (s : Server) (h : nat) (c : Client.t)
        (frame : Message) (now later : Z) (rnd : option string) (r : nat) :
  sessions s !! h = Some c -> is_Some (Client.SendChan c) ->
  MType frame = TypeFile ->
  CanStartFileTransfer (Client.Nickname c) (rateLimiter s) = None ->
  ValidateFileName (Filename frame) = None ->
  ValidateFileSize (Filesize frame) = None ->
  clients s !! Recipient frame = Some r ->
  let ft := FileTransfer.mk (FileID frame) (Filename frame) (Filesize frame)
              (Client.Nickname c) (Recipient frame) (TotalChunks frame) ∅ now in
  let s1 := exec s (Recv h frame now rnd) in
  let s2 := exec s1 (CleanupTick later) in
  fileTransfers s1 = <[FileID frame := ft]> (fileTransfers s)
  /\ rateLimiter s1 = AddFileTransfer (Client.Nickname c) (rateLimiter s)
  /\ (later - now > FileTransferTimeout -> fileTransfers s2 !! FileID frame = None)
  /\ (later - now <= FileTransferTimeout -> fileTransfers s2 !! FileID frame = Some ft).
Proof.
  intros Hc Hq Hty Hlim Hname Hsize Hrcp ft s1 s2.
  assert (H1 : fileTransfers s1 = <[FileID frame := ft]> (fileTransfers s)
               /\ rateLimiter s1 = AddFileTransfer (Client.Nickname c) (rateLimiter s)).
  { unfold s1.
    destruct (exec_Recv_dispatch s h c frame now rnd Hc Hq) as (_ & _ & _ & _ & Hx & _).
    rewrite (Hx Hty). clear Hx.
    destruct (stamp_fields s h frame now) as (_ & _ & Hr & _ & _ & Hts).
    destruct (stamp_payload s h frame now) as (_ & _ & Hfn & Hfs & Hid & _ & Htc & _).
    unfold handleFileTransferInit.
    rewrite Hfn, Hfs, Hid, Htc, Hr, Hts, (deref_lookup _ _ _ Hc), Hlim, Hname, Hsize.
    unfold GetClient. rewrite Hrcp. done. }
  destruct H1 as [Hf1 Hl1]. split; [done|]. split; [done|].
  assert (Hf2 : fileTransfers s2
                = filter (fun kv => ~ stale later kv.2) (fileTransfers s1)).
  { unfold s2. simpl. rewrite cleanupEmptyRooms_filter. simpl.
    apply cleanupFileTransfers_filter. }
  rewrite Hf2, Hf1. split.
  - intros Hlate. apply map_lookup_filter_None. right. intros ft'.
    rewrite lookup_insert_eq. intros [= <-] Hn. apply Hn. unfold stale. simpl. lia.
  - intros Hearly. apply map_lookup_filter_Some. split; [apply lookup_insert_eq|].
    unfold stale. simpl. lia.
Qed.

Lemma announced_transfer_expires_witness :
  let s := run alice_and_bobby in
  let frame := frame_FILE "bobby" "f1" "a.txt" 10 2 in
  let s1 := exec s (Recv 0 frame (3 * Second) None) in
  fileTransfers (exec s1 (CleanupTick (304 * Second))) !! "f1" = None.
Proof.
  intros s frame s1.
  destruct (announced_transfer_expires s 0 (deref s 0) frame (3 * Second)
              (304 * Second) None 1) as (_ & _ & H & _); [decide_closed..|].
  apply H. unfold FileTransferTimeout, Minute, Second. lia.
Defined.

(** X25: a transfer announced with a chunk total of zero or less can
    never complete: every FILE_CHUNK for it is recorded and the transfer
    stays in the transfer registry (until a sweep removes it). *)
Theorem transfer_without_total_never_completes (s : Server) (h : nat) (c : Client.t)
        (frame : Message) (now : Z) (rnd : option string) (ft0 : FileTransfer.t) :
  sessions s !! h = Some c -> is_Some (Client.SendChan c) ->
  MType frame = TypeFileChunk ->
  fileTransfers s !! FileID frame = Some ft0 ->
  FileTransfer.TotalChunks ft0 <= 0 ->
  fileTransfers (exec s (Recv h frame now rnd))
  = <[FileID frame := FileTransfer.AddChunk (ChunkNum frame) (Data frame) ft0]>
      (fileTransfers s).
Proof.
  intros Hc Hq Hty Hft Htot.
  destruct (exec_Recv_dispatch s h c frame now rnd Hc Hq) as (_ & _ & _ & _ & _ & Hx).
  rewrite (Hx Hty). clear Hx.
  destruct (stamp_payload s h frame now) as (_ & _ & _ & _ & Hid & Hcn & _ & Hdata).
  unfold handleFileChunk. rewrite Hid, Hcn, Hdata, Hft. cbv zeta.
  assert (Hinc : FileTransfer.IsComplete
                   (FileTransfer.AddChunk (ChunkNum frame) (Data frame) ft0) = false).
  { unfold FileTransfer.IsComplete, FileTransfer.AddChunk. simpl.
    pose proof (size_insert_pos (ChunkNum frame) (Data frame)
                  (FileTransfer.ReceivedChunks ft0)).
    apply Z.eqb_neq. lia. }
  rewrite Hinc. by case_match.
Qed.

Lemma transfer_without_total_never_completes_witness :
  let s := run (alice_and_bobby
                ++ [Recv 0 (frame_FILE "bobby" "f1" "a.txt" 10 0) (3 * Second) None]) in
  let ft0 := FileTransfer.mk "f1" "a.txt" 10 "alice" "bobby" 0 ∅ (3 * Second) in
  fileTransfers (exec s (Recv 0 (frame_FILE_CHUNK "f1" 0 []) (4 * Second) None))
  = <[ "f1" := FileTransfer.AddChunk 0 [] ft0 ]> (fileTransfers s).
Proof.
  intros s ft0.
  apply (transfer_without_total_never_completes s 0 (deref s 0)
           (frame_FILE_CHUNK "f1" 0 []) (4 * Second) None ft0);
    [decide_closed|decide_closed|decide_closed|decide_closed|done].
Defined.

(** X26: the limiter's own cleanup is invisible to the senders: dropping
    the counters that were last reset more than five minutes before a
    tick never changes whether a later message is accepted, nor the
    counter the message leaves behind. *)
Theorem limiter_cleanup_is_transparent (rl : RateLimiter) (nickname : string)
        (tick now : Z) :
  tick <= now ->
  (CanSendMessage nickname now (RateLimiter_cleanup tick rl)).2
  = (CanSendMessage nickname now rl).2
  /\ messageRates (CanSendMessage nickname now (RateLimiter_cleanup tick rl)).1
       !! nickname
     = messageRates (CanSendMessage nickname now rl).1 !! nickname.
Proof.
  intros Hle. unfold CanSendMessage, RateLimiter_cleanup. simpl.
  rewrite map_lookup_filter.
  destruct (messageRates rl !! nickname) as [u|] eqn:Hu; simpl.
  - case_guard as Hg; simpl.
    + by repeat case_match; simpl; rewrite ?lookup_insert_eq.
    + assert (Hold : tick - lastReset u > 5 * Minute).
      { destruct (decide (tick - lastReset u > 5 * Minute)); [done|].
        exfalso. tauto. }
      unfold Minute, Second in *.
      destruct (Z.geb_spec (now - lastReset u) 1000000000) as [_|Hlt]; [|lia].
      destruct (Z.geb_spec (now - now) 1000000000) as [Hge|_]; [lia|].
      simpl. by rewrite !lookup_insert_eq.
  - by repeat case_match; simpl; rewrite ?lookup_insert_eq.
Qed.

Lemma limiter_cleanup_is_transparent_witness :
  let rl := mkRL 0 ∅ {[ "alice" := mkRate 10 0 ]} ∅ ∅ in
  (CanSendMessage "alice" (400 * Second) (RateLimiter_cleanup (301 * Second) rl)).2
  = (CanSendMessage "alice" (400 * Second) rl).2.
Proof.
  intros rl.
  apply (limiter_cleanup_is_transparent rl "alice" (301 * Second) (400 * Second)).
  unfold Second. lia.
Defined.

(** ** Names of sessions, and rooms that lose their last member *)

Section Names.

Implicit Types (c : Client.t) (msg : Message) (s : Server) (h : nat).

Lemma nicknames_valid_prim s s' :
  prim true s s' ->
  (forall h c, sessions s !! h = Some c ->
     Client.Nickname c = "" \/ ValidateNickname (Client.Nickname c) = None) ->
  (forall h c, sessions s' !! h = Some c ->
     Client.Nickname c = "" \/ ValidateNickname (Client.Nickname c) = None).
Proof.
  intros Hp Hv. destruct Hp; simpl; try done.
  - intros h' c. rewrite lookup_insert_Some.
    intros [[_ <-]|[_ Hl]]; [by left|by eapply Hv].
  - intros h' c. rewrite lookup_alter_Some.
    intros [(_ & c0 & Hl & ->)|[_ Hl]]; [|by eapply Hv].
    destruct (H c0) as [-> _]. by eapply Hv.
  - intros h' c. rewrite lookup_alter_Some.
    intros [(_ & c0 & Hl & ->)|[_ Hl]]; [by right|by eapply Hv].
Qed.

End Names.

(** X27: in every reachable state the nickname of a session is empty
    (the session has not registered) or a nickname that passes
    [ValidateNickname]. *)
Theorem session_nickname_is_empty_or_valid (s : Server) (h : nat) (c : Client.t) :
  reachable s -> sessions s !! h = Some c ->
  Client.Nickname c = "" \/ ValidateNickname (Client.Nickname c) = None.
Proof.
  intros Hr. revert h c.
  apply (reachable_invariant
           (fun s => forall h c, sessions s !! h = Some c ->
              Client.Nickname c = "" \/ ValidateNickname (Client.Nickname c) = None));
    [| |done].
  - intros h c Hl. simpl in Hl. by rewrite lookup_empty in Hl.
  - intros s1 s2 Hp IH. by apply nicknames_valid_prim with s1.
Qed.

Lemma session_nickname_is_empty_or_valid_witness :
  let s := run alice_and_bobby in
  Client.Nickname (deref s 0) = ""
  \/ ValidateNickname (Client.Nickname (deref s 0)) = None.
Proof.
  intros s. apply (session_nickname_is_empty_or_valid s 0); [by eexists|decide_closed].
Defined.

(** X28: in every reachable state each entry of the nickname registry
    refers to a session of the store, and that session has a
    nickname. *)
Theorem registry_refers_to_named_sessions (s : Server) (nickname : string) (h : nat) :
  reachable s -> clients s !! nickname = Some h ->
  exists c, sessions s !! h = Some c /\ Client.Nickname c <> "".
Proof. intros Hr Hl. by apply (reachable_registry_valid s Hr nickname h). Qed.

Lemma registry_refers_to_named_sessions_witness :
  let s := run alice_and_bobby in
  exists c, sessions s !! 1%nat = Some c /\ Client.Nickname c <> "".
Proof.
  intros s. apply (registry_refers_to_named_sessions s "bobby" 1);
    [by eexists|decide_closed].
Defined.

(** X29: a room that loses its last member is swept by age, not by the
    time it has been empty.  LEAVE is not checked for membership: it
    takes the sender out of the member set of the room, which stays in
    the room registry even when empty; the next cleanup sweep removes the
    emptied room if it was created more than thirty minutes before the
    sweep, and leaves it otherwise. *)
Theorem emptied_room_is_swept_by_age (s : Server) (h : nat) (c : Client.t)
        (frame : Message) (now later : Z) (rnd : option string) (room : Room.t) :
  sessions s !! h = Some c -> is_Some (Client.SendChan c) ->
  MType frame = TypeRoom -> Action frame = RoomLeave ->
  rooms s !! Room frame = Some room ->
  (forall member, member ∈ Room.Members room -> member = Client.Nickname c) ->
  let left := Room.RemoveMember (Client.Nickname c) room in
  let s1 := exec s (Recv h frame now rnd) in
  let s2 := exec s1 (CleanupTick later) in
  rooms s1 !! Room frame = Some left
  /\ (later - Room.CreatedAt room > EmptyRoomTimeout -> rooms s2 !! Room frame = None)
  /\ (later - Room.CreatedAt room <= EmptyRoomTimeout ->
      rooms s2 !! Room frame = Some left).
Proof.
  intros Hc Hq Hty Hact Hroom Hlast left s1 s2.
  assert (H1 : rooms s1 !! Room frame = Some left).
  { unfold s1.
    destruct (exec_Recv_dispatch s h c frame now rnd Hc Hq) as (_ & Hx & _).
    rewrite (Hx Hty). clear Hx.
    destruct (stamp_fields s h frame now) as (_ & _ & _ & Hrm & _).
    destruct (stamp_payload s h frame now) as (Hac & _).
    unfold handleRoomMessage. rewrite Hac, Hrm, Hact, (deref_lookup _ _ _ Hc).
    change (eqs RoomLeave RoomCreate) with false.
    change (eqs RoomLeave RoomJoin) with false.
    change (eqs RoomLeave RoomLeave) with true. cbv iota.
    unfold GetRoom. rewrite Hroom. cbv zeta.
    match goal with |- rooms (BroadcastToRoom ?r ?m ?s0) !! _ = _ =>
      destruct (BroadcastToRoom_sends r m s0) as (_ & -> & _) end.
    simpl. by rewrite lookup_alter_eq, Hroom. }
  split; [done|].
  assert (H2 : rooms s2 = filter (fun kv => ~ abandoned later kv.2) (rooms s1)).
  { unfold s2. simpl. rewrite cleanupEmptyRooms_filter. simpl. f_equal.
    apply cleanupFileTransfers_filter. }
  assert (Hempty : size (Room.Members left) = 0%nat).
  { apply size_empty_iff. unfold left. simpl. intros m.
    rewrite elem_of_difference, elem_of_singleton. split; [|by intros ?%elem_of_empty].
    intros [Hm Hne]. exfalso. by apply Hne, Hlast. }
  rewrite H2. split.
  - intros Hold. apply map_lookup_filter_None. right. intros r'. rewrite H1.
    intros [= <-] Hn. apply Hn. split; [done|]. unfold left. simpl. lia.
  - intros Hyoung. apply map_lookup_filter_Some. split; [done|].
    intros [_ Hage]. unfold left in Hage. simpl in Hage. lia.
Qed.

Lemma emptied_room_is_swept_by_age_witness :
  let s := run alice_creates_a_room in
  let s1 := exec s (Recv 0 (frame_ROOM RoomLeave "room_3000000000_00ff" "")
                      (1900 * Second) None) in
  rooms (exec s1 (CleanupTick (1920 * Second))) !! "room_3000000000_00ff" = None.
Proof.
  intros s s1.
  destruct (emptied_room_is_swept_by_age s 0 (deref s 0)
              (frame_ROOM RoomLeave "room_3000000000_00ff" "")
              (1900 * Second) (1920 * Second) None the_room) as (_ & H & _);
    [decide_closed|decide_closed|decide_closed|decide_closed|decide_closed| |].
  - intros member Hm. unfold the_room in Hm. simpl in Hm.
    apply elem_of_singleton in Hm. subst member.
    symmetry. decide_closed.
  - apply H. unfold the_room, EmptyRoomTimeout, Minute, Second. simpl. lia.
Defined.

(** X30: the chunk path does not check who sends the chunk.  A
    FILE_CHUNK that names an in-flight transfer is recorded for it
    whichever session it is read from, registered or not.  When it
    completes the transfer while the recipient is registered, the
    transfer is removed, the recipient's session is sent the chunk and
    FILE_COMPLETE, and the second FILE_COMPLETE goes to the session the
    chunk was read from: the session registered under the transfer's
    sender, when it is another one, is sent nothing. *)
Theorem FILE_CHUNK_from_any_session (s : Server) (h : nat) (c : Client.t)
        (frame : Message) (now : Z) (rnd : option string) (ft0 : FileTransfer.t)
        (r h0 : nat) :
  sessions s !! h = Some c -> is_Some (Client.SendChan c) ->
  MType frame = TypeFileChunk ->
  fileTransfers s !! FileID frame = Some ft0 ->
  clients s !! FileTransfer.Recipient ft0 = Some r ->
  clients s !! FileTransfer.Sender ft0 = Some h0 -> h0 <> h -> h0 <> r ->
  FileTransfer.IsComplete (FileTransfer.AddChunk (ChunkNum frame) (Data frame) ft0) = true ->
  let msg := stamp s h frame now in
  let complete := FileCompleteMessage (FileID frame) (FileTransfer.Filename ft0) in
  let s' := exec s (Recv h frame now rnd) in
  fileTransfers s' = delete (FileID frame) (fileTransfers s)
  /\ sessions s' !! h0 = sessions s !! h0
  /\ sessions s' !! h
     = Some (SendAll ((if decide (r = h) then [msg; complete] else []) ++ [complete]) c)
  /\ (r <> h -> sessions s' !! r = SendAll [msg; complete] <$> sessions s !! r).
Proof.
  intros Hc Hq Hty Hft Hr Hh0 Hne1 Hne2 Hdone msg complete s'.
  destruct (exec_Recv_dispatch s h c frame now rnd Hc Hq) as (_ & _ & _ & _ & _ & Hx).
  unfold s'. rewrite (Hx Hty). clear Hx. fold msg.
  destruct (stamp_payload s h frame now) as (_ & _ & _ & _ & Hid & Hnum & _ & Hdata).
  fold msg in Hid, Hnum, Hdata.
  destruct (handleFileChunk_complete h msg s ft0 r) as [Hdel Hs].
  { by rewrite Hid. }
  { exact Hr. }
  { by rewrite Hnum, Hdata. }
  rewrite Hid in Hdel, Hs. fold complete in Hs.
  split; [exact Hdel|]. split; [|split].
  - rewrite (Hs h0), !decide_False by done. simpl. by destruct (sessions s !! h0).
  - rewrite (Hs h), (decide_True (P := h = h)), Hc by done. done.
  - intros Hne. rewrite (Hs r), decide_True, decide_False by done.
    by rewrite app_nil_r.
Qed.

Lemma FILE_CHUNK_from_any_session_witness :
  let s := run (alice_and_bobby
                ++ [Accept 2 "client_3" (mkAddr "10.0.0.3" 50000);
                    Recv 0 (frame_FILE "bobby" "f1" "a.bin" 8192 1) (3 * Second) None]) in
  let frame := frame_FILE_CHUNK "f1" 0 [] in
  let s' := exec s (Recv 2 frame (4 * Second) None) in
  fileTransfers s' = delete "f1" (fileTransfers s)
  /\ sessions s' !! 0%nat = sessions s !! 0%nat
  /\ sessions s' !! 2%nat
     = Some (SendAll [FileCompleteMessage "f1" "a.bin"] (deref s 2)).
Proof.
  intros s frame s'.
  pose (ft0 := FileTransfer.mk "f1" "a.bin" 8192 "alice" "bobby" 1 ∅ (3 * Second)).
  destruct (FILE_CHUNK_from_any_session s 2 (deref s 2) frame (4 * Second) None ft0
              1%nat 0%nat) as (Hdel & Hsender & Hme & _);
    [decide_closed|decide_closed|done|decide_closed|decide_closed|decide_closed
    |done|done|decide_closed|].
  fold s' in Hdel, Hsender, Hme. split; [exact Hdel|]. split; [exact Hsender|].
  rewrite Hme. done.
Defined.
